(** * Streak API: gamification engine and application lifecycle

    A shallow embedding of the services of the Streak backend
    (gamification.service.ts, application.service.ts, job.service.ts,
    auth.service.ts) together with the Mongoose schemas they rely on, and
    the properties of the specification checked against them.

    Conventions of the embedding:
    - a JavaScript [number] that the code only ever uses as a whole number
      (counters, points, millisecond timestamps) is a [Z];
    - a [Date] is its [getTime()] value in milliseconds; an optional field
      ([lastActivityDate?: Date]) is an [option];
    - a MongoDB collection is a finite map from the document [_id] to the
      document ([gmap string _]); the ledger and the achievement catalog,
      whose storage order is observable, are lists;
    - an [async] method that may throw is a function into [result]; every
      [throw] of the methods modelled here precedes their first write, so
      an [Err] carries no database: the stored state is the one before
      the call;
    - [new Date()] is an explicit argument of the method that reads the
      clock, one argument per read;
    - ids are taken to be well-formed ObjectId strings, and the text
      fields to be ASCII, so that [String.length] is the JavaScript
      [length]. *)

From Stdlib Require Import ZArith Lia.
From stdpp Require Import gmap strings list fin_maps sorting.

Local Open Scope string_scope.
Local Open Scope Z_scope.

(** ** Errors (core/middlewares/errorHandler) *)

Inductive Error : Type :=
| AppError (statusCode : Z) (code : string)
    (* class AppError and its subclasses *)
| MongooseValidationError (path : string)
    (* thrown by Model.create / doc.save when a schema validator fails *)
| MongoDuplicateKey (index : string)
    (* E11000, a unique index is violated *)
| TypeError.
    (* property access on null *)

Definition NotFoundError : Error := AppError 404 "NOT_FOUND".
Definition UnauthorizedError : Error := AppError 401 "UNAUTHORIZED".
Definition ForbiddenError : Error := AppError 403 "FORBIDDEN".

(** The error kind "Conflict" of the specification is HTTP status 409. *)
Definition isConflict (e : Error) : bool :=
  match e with
  | AppError 409 _ => true
  | _ => false
  end.

Inductive result (A : Type) : Type :=
| Ok (a : A)
| Err (e : Error).
Arguments Ok {A} a.
Arguments Err {A} e.

Definition bind {A B : Type} (r : result A) (k : A -> result B) : result B :=
  match r with
  | Ok a => k a
  | Err e => Err e
  end.

Notation "x <- r ;; k" := (bind r (fun x => k))
  (at level 65, r at next level, right associativity).
Notation "'check' b 'else' e ;; k" := (if b then k else Err e)
  (at level 65, b at next level, e at next level, right associativity).

(** ** Data model *)

(** users/user.model.ts *)

Inductive UserRole := CLIENT | FREELANCER | ADMIN.
Inductive AccountStatus := ACC_PENDING | ACC_ACTIVE | ACC_SUSPENDED | ACC_DELETED.

Record Gamification : Type := mkGamification {
  currentStreak : Z;
  longestStreak : Z;
  lastActivityDate : option Z;
  totalPoints : Z;
  level : Z;
  achievements : list string
}.

Record UserStats : Type := mkUserStats {
  jobsPosted : Z;
  jobsCompleted : Z
}.

Record User : Type := mkUser {
  email : string;
  password : string;
  role : UserRole;
  accountStatus : AccountStatus;
  gamification : Gamification;
  stats : UserStats;
  refreshTokens : list string;
  lastLoginAt : option Z
}.

(** The schema defaults of a freshly created user document. *)
Definition defaultGamification : Gamification :=
  {| currentStreak := 0; longestStreak := 0; lastActivityDate := None;
     totalPoints := 0; level := 1; achievements := [] |}.

Definition setGamification (g : Gamification) (u : User) : User :=
  {| email := email u; password := password u; role := role u;
     accountStatus := accountStatus u; gamification := g; stats := stats u;
     refreshTokens := refreshTokens u; lastLoginAt := lastLoginAt u |}.

(** The [min] validators of the user schema on the gamification fields. *)
Definition gamificationSchemaOk (g : Gamification) : Prop :=
  0 <= currentStreak g /\ 0 <= longestStreak g /\
  0 <= totalPoints g /\ 1 <= level g.

(** achievements/achievement.model.ts *)

Record Achievement : Type := mkAchievement {
  ach_id : string;                 (* _id *)
  ach_name : string;
  criteria_type : string;          (* criteria.type *)
  criteria_target : Z;             (* criteria.target *)
  ach_points : Z;                  (* points *)
  isActive : bool
}.

(** The validators of the achievement schema: [criteria.target] has
    [min: 1] and [points] has [min: 0]. *)
Definition achievementSchemaOk (a : Achievement) : Prop :=
  1 <= criteria_target a /\ 0 <= ach_points a.

(** streaks/streak.model.ts *)

Definition LOGIN := "login".
Definition JOB_POSTED := "job_posted".
Definition APPLICATION_SENT := "application_sent".
Definition APPLICATION_ACCEPTED := "application_accepted".
Definition JOB_COMPLETED := "job_completed".
Definition PROFILE_UPDATED := "profile_updated".

(** [Object.values(ActivityType)] *)
Definition ActivityType_values : list string :=
  [LOGIN; JOB_POSTED; APPLICATION_SENT; APPLICATION_ACCEPTED;
   JOB_COMPLETED; PROFILE_UPDATED].

Record ActivityEvent : Type := mkActivityEvent {
  ev_userId : string;
  ev_type : string;
  ev_points : Z;
  ev_metadata : option string;
  ev_date : Z
}.

(** What an expression of the service may evaluate to where a number is
    expected: a number, or a member inherited from [Object.prototype]
    (a function or an object, which is truthy and is not a number). *)
Inductive JsValue : Type :=
| JNum (n : Z)
| JInherited (name : string).

Definition truthy (v : JsValue) : bool :=
  match v with
  | JNum n => negb (n =? 0)
  | JInherited _ => true
  end.

(** jobs/job.model.ts *)

Inductive JobStatus := DRAFT | OPEN | IN_PROGRESS | COMPLETED | CANCELLED.

Record JobStats : Type := mkJobStats {
  views : Z;
  applicationsCount : Z;
  savedCount : Z
}.

Inductive JobType := FIXED_PRICE | HOURLY.

(** The paths of the job schema, beside the title, that carry a
    validator a document can fail: [description], [category], [budget],
    [hourlyRate.min] and [hourlyRate.max], [skillsRequired]; with them
    the [type] and the [deadline]. Amounts are taken to be whole
    numbers. The paths [subcategory], [experienceLevel],
    [estimatedDuration], [attachments] and [isUrgent] are stored as
    given and read by no operation modelled here. *)
Record JobDetails : Type := mkJobDetails {
  description : string;
  category : string;
  job_type : JobType;
  budget : option Z;
  hourlyRate : option (Z * Z);       (* hourlyRate.min, hourlyRate.max *)
  skillsRequired : list string;
  deadline : option Z
}.

Record Job : Type := mkJob {
  job_title : string;
  clientId : string;
  job_status : JobStatus;
  assignedFreelancerId : option string;
  job_stats : JobStats;
  job_details : JobDetails
}.

(** A [Date] made of a string by [new Date(str)]: a time, or the
    Invalid Date. *)
Inductive JsDate := DateOf (ms : Z) | InvalidDate.

(** The values of the enum [JobStatus]. *)
Definition JobStatus_ofString (s : string) : option JobStatus :=
  if String.eqb s "draft" then Some DRAFT
  else if String.eqb s "open" then Some OPEN
  else if String.eqb s "in_progress" then Some IN_PROGRESS
  else if String.eqb s "completed" then Some COMPLETED
  else if String.eqb s "cancelled" then Some CANCELLED
  else None.

(** [String.prototype.trim], the setter of [trim: true], on ASCII
    strings: the white space is the tab, the line feed, the vertical
    tab, the form feed, the carriage return and the space. *)
Definition trimmed (c : Ascii.ascii) : bool :=
  let n := Ascii.nat_of_ascii c in
  ((9 <=? n)%nat && (n <=? 13)%nat) || (n =? 32)%nat.

Fixpoint trimStart (l : list Ascii.ascii) : list Ascii.ascii :=
  match l with
  | [] => []
  | c :: r => if trimmed c then trimStart r else l
  end.

Definition trim (s : string) : string :=
  String.string_of_list_ascii
    (rev (trimStart (rev (trimStart (String.list_ascii_of_string s))))).

(** The validators of the job schema. [required] on a string refuses the
    empty string, which the [minlength] of the title and of the
    description refuse as well. *)
Definition lengthWithin (lo hi : Z) (s : string) : bool :=
  (lo <=? Z.of_nat (String.length s)) && (Z.of_nat (String.length s) <=? hi).

Definition notNegative (r : option Z) : bool :=
  match r with
  | Some n => 0 <=? n
  | None => true
  end.

(** The validation of a job document by [Job.create] and [job.save()],
    which runs the validators of every path, modified or not: of the
    paths that fail, the error names the first in the order of the
    schema. [status] is the string an assignment has put under
    [status], if any, which the validator [enum] checks; [date] is the
    [Date] an assignment has put under [deadline], if any, which the
    cast to a date refuses when it is the Invalid Date. *)
Definition validateDocument (status : option string) (date : option JsDate)
    (j : Job) : result unit :=
  check lengthWithin 10 100 (job_title j)
    else MongooseValidationError "title" ;;
  check lengthWithin 50 5000 (description (job_details j))
    else MongooseValidationError "description" ;;
  check negb (String.eqb (category (job_details j)) "")
    else MongooseValidationError "category" ;;
  check notNegative (budget (job_details j))
    else MongooseValidationError "budget" ;;
  check notNegative (fst <$> hourlyRate (job_details j))
    else MongooseValidationError "hourlyRate.min" ;;
  check notNegative (snd <$> hourlyRate (job_details j))
    else MongooseValidationError "hourlyRate.max" ;;
  check negb (Nat.eqb (length (skillsRequired (job_details j))) 0)
    else MongooseValidationError "skillsRequired" ;;
  check match status with
        | Some s => bool_decide (is_Some (JobStatus_ofString s))
        | None => true
        end
    else MongooseValidationError "status" ;;
  check (0 <=? views (job_stats j))
    else MongooseValidationError "stats.views" ;;
  check (0 <=? applicationsCount (job_stats j))
    else MongooseValidationError "stats.applicationsCount" ;;
  check (0 <=? savedCount (job_stats j))
    else MongooseValidationError "stats.savedCount" ;;
  check match date with
        | Some InvalidDate => false
        | _ => true
        end
    else MongooseValidationError "deadline" ;;
  Ok tt.

(** The validation of a document as it was loaded or built, with no
    string under [status] and no [Date] under [deadline] to check. *)
Definition Job_validate (j : Job) : result unit :=
  validateDocument None None j.

(** applications/application.model.ts *)

Inductive ApplicationStatus := PENDING | ACCEPTED | REJECTED | WITHDRAWN.

Record Application : Type := mkApplication {
  jobId : string;
  freelancerId : string;
  coverLetter : string;
  proposedRate : option Z;
  app_status : ApplicationStatus;
  appliedAt : Z;
  respondedAt : option Z
}.

#[global] Instance JobStatus_eq_dec : EqDecision JobStatus.
Proof. solve_decision. Defined.
#[global] Instance ApplicationStatus_eq_dec : EqDecision ApplicationStatus.
Proof. solve_decision. Defined.
#[global] Instance AccountStatus_eq_dec : EqDecision AccountStatus.
Proof. solve_decision. Defined.

(** The database: one entry per Mongoose model. *)
Record Db : Type := mkDb {
  users : gmap string User;
  jobs : gmap string Job;
  applications : gmap string Application;
  activityEvents : list ActivityEvent;   (* the ledger, oldest first *)
  achievementCatalog : list Achievement  (* in storage order *)
}.

Definition setUsers (us : gmap string User) (db : Db) : Db :=
  {| users := us; jobs := jobs db; applications := applications db;
     activityEvents := activityEvents db;
     achievementCatalog := achievementCatalog db |}.

Definition setJobs (js : gmap string Job) (db : Db) : Db :=
  {| users := users db; jobs := js; applications := applications db;
     activityEvents := activityEvents db;
     achievementCatalog := achievementCatalog db |}.

Definition setApplications (aps : gmap string Application) (db : Db) : Db :=
  {| users := users db; jobs := jobs db; applications := aps;
     activityEvents := activityEvents db;
     achievementCatalog := achievementCatalog db |}.

Definition setActivityEvents (evs : list ActivityEvent) (db : Db) : Db :=
  {| users := users db; jobs := jobs db; applications := applications db;
     activityEvents := evs;
     achievementCatalog := achievementCatalog db |}.

(** ** gamification/gamification.service.ts *)

Module GamificationService.

(** The own properties of the object literal [pointsMap]. *)
Definition pointsMap : list (string * Z) :=
  [(LOGIN, 5); (JOB_POSTED, 10); (APPLICATION_SENT, 15);
   (APPLICATION_ACCEPTED, 25); (JOB_COMPLETED, 50); (PROFILE_UPDATED, 5)].

(** The property names every object literal inherits from
    [Object.prototype]. *)
Definition objectPrototypeKeys : list string :=
  ["constructor"; "__proto__"; "hasOwnProperty"; "isPrototypeOf";
   "propertyIsEnumerable"; "toLocaleString"; "toString"; "valueOf";
   "__defineGetter__"; "__defineSetter__"; "__lookupGetter__";
   "__lookupSetter__"].

Fixpoint assoc (k : string) (l : list (string * Z)) : option Z :=
  match l with
  | [] => None
  | (k', v) :: l' => if String.eqb k k' then Some v else assoc k l'
  end.

(** [pointsMap[type]]: an own property, else an inherited one, else
    [undefined] ([None]). *)
Definition pointsMap_get (type : string) : option JsValue :=
  match assoc type pointsMap with
  | Some n => Some (JNum n)
  | None =>
      if bool_decide (type ∈ objectPrototypeKeys)
      then Some (JInherited type) else None
  end.

(** [return pointsMap[type] || 0] *)
Definition getPointsForActivity (type : string) : JsValue :=
  match pointsMap_get type with
  | Some v => if truthy v then v else JNum 0
  | None => JNum 0
  end.

(** [ActivityEvent.create({userId, type, points, metadata, date})]: the
    schema validators run before the document is inserted; [type] must
    be one of [Object.values(ActivityType)], [points] must be a number
    that is at least 0. *)
Definition ActivityEvent_create (userId type : string) (points : JsValue)
    (metadata : option string) (date : Z) (ledger : list ActivityEvent)
    : result (list ActivityEvent) :=
  check bool_decide (type ∈ ActivityType_values)
    else MongooseValidationError "type" ;;
  match points with
  | JInherited _ => Err (MongooseValidationError "points")
  | JNum p =>
      check (0 <=? p) else MongooseValidationError "points" ;;
      Ok (ledger ++ [mkActivityEvent userId type p metadata date])%list
  end.

(** [a += b] where [a] is a number: numeric addition when [b] is a
    number; otherwise the result is not a number ([None]). *)
Definition jsAdd (a : Z) (b : JsValue) : option Z :=
  match b with
  | JNum n => Some (a + n)
  | JInherited _ => None
  end.

Definition getDaysDifference (date1 date2 : Z) : Z :=
  let diffTime := Z.abs (date2 - date1) in
  let diffDays := diffTime / (1000 * 60 * 60 * 24) in
  diffDays.

Definition setStreak (cur longest : Z) (last : option Z) (g : Gamification)
    : Gamification :=
  {| currentStreak := cur; longestStreak := longest;
     lastActivityDate := last; totalPoints := totalPoints g;
     level := level g; achievements := achievements g |}.

(** [updateStreak(user)], with [now] the value of [new Date()]. *)
Definition updateStreak (now : Z) (user : User) : User :=
  let g := gamification user in
  match lastActivityDate g with
  | None =>
      (* Primera actividad *)
      setGamification (setStreak 1 1 (Some now) g) user
  | Some lastActivity =>
      let daysSinceLastActivity := getDaysDifference lastActivity now in
      if daysSinceLastActivity =? 0 then
        (* Misma día, no hacer nada *)
        user
      else if daysSinceLastActivity =? 1 then
        (* Día consecutivo *)
        let cur := currentStreak g + 1 in
        let longest :=
          if longestStreak g <? cur then cur else longestStreak g in
        setGamification (setStreak cur longest (Some now) g) user
      else
        (* Se rompió el streak *)
        setGamification (setStreak 1 (longestStreak g) (Some now) g) user
  end.

Definition setTotalPoints (p : Z) (g : Gamification) : Gamification :=
  {| currentStreak := currentStreak g; longestStreak := longestStreak g;
     lastActivityDate := lastActivityDate g; totalPoints := p;
     level := level g; achievements := achievements g |}.

(** The two writes of an unlock: [achievements.push(id)] and
    [totalPoints += points]. *)
Definition grant (a : Achievement) (g : Gamification) : Gamification :=
  {| currentStreak := currentStreak g; longestStreak := longestStreak g;
     lastActivityDate := lastActivityDate g;
     totalPoints := totalPoints g + ach_points a;
     level := level g;
     achievements := (achievements g ++ [ach_id a])%list |}.

(** The [switch] on [achievement.criteria.type]. *)
Definition achieved (user : User) (a : Achievement) : bool :=
  let g := gamification user in
  if String.eqb (criteria_type a) "streak_days" then
    criteria_target a <=? currentStreak g
  else if String.eqb (criteria_type a) "jobs_completed" then
    criteria_target a <=? jobsCompleted (stats user)
  else if String.eqb (criteria_type a) "total_points" then
    criteria_target a <=? totalPoints g
  else false.

(** [user.gamification.achievements.includes(id)]: on a Mongoose array of
    ObjectIds the comparison is by value. *)
Definition includes (l : list string) (id : string) : bool :=
  bool_decide (id ∈ l).

(** One iteration of the [for ... of] loop of [checkAchievements]. *)
Definition checkAchievement (user : User) (a : Achievement) : User :=
  if includes (achievements (gamification user)) (ach_id a) then user
  else if achieved user a
       then setGamification (grant a (gamification user)) user
       else user.

(** [Achievement.find({ isActive: true })] *)
Definition activeAchievements (catalog : list Achievement) : list Achievement :=
  filter (fun a => isActive a = true) catalog.

(** The loop over an already fetched list of achievements. *)
Definition evaluate (achs : list Achievement) (user : User) : User :=
  fold_left checkAchievement achs user.

Definition checkAchievements (catalog : list Achievement) (user : User) : User :=
  evaluate (activeAchievements catalog) user.

(** [recordActivity(userId, type, metadata)]; [date] is the clock value
    read for the ledger entry and [now] the one read by [updateStreak]. *)
Definition recordActivity (userId type : string) (metadata : option string)
    (date now : Z) (db : Db) : result Db :=
  match users db !! userId with
  | None => Err NotFoundError
  | Some user =>
      let points := getPointsForActivity type in
      ledger <- ActivityEvent_create userId type points metadata date
                  (activityEvents db) ;;
      match jsAdd (totalPoints (gamification user)) points with
      | None =>
          (* not reached: [create] has rejected a [points] that is not a
             number *)
          Err (MongooseValidationError "gamification.totalPoints")
      | Some total =>
          let user := setGamification
                        (setTotalPoints total (gamification user)) user in
          let user := updateStreak now user in
          let user := checkAchievements (achievementCatalog db) user in
          (* user.save() *)
          Ok (setUsers (<[userId := user]> (users db))
                (setActivityEvents ledger db))
      end
  end.

Definition calculateLevel (totalPoints : Z) : Z :=
  totalPoints / 100 + 1.

Record GamificationStats : Type := mkGamificationStats {
  gs_level : Z;
  gs_totalPoints : Z;
  gs_currentStreak : Z;
  gs_longestStreak : Z;
  gs_achievements : list string;
  gs_recentActivities : list ActivityEvent
}.

(** Insertion of an event into a list sorted by date, newest first
    (MongoDB leaves the order among equal dates open; here the event
    stored first comes first). *)
Fixpoint insertByDateDesc (e : ActivityEvent) (l : list ActivityEvent)
    : list ActivityEvent :=
  match l with
  | [] => [e]
  | e' :: l' =>
      if ev_date e' <=? ev_date e then e :: l
      else e' :: insertByDateDesc e l'
  end.

(** [ActivityEvent.find({ userId }).sort({ date: -1 }).limit(10)] *)
Definition recentActivities (userId : string) (ledger : list ActivityEvent)
    : list ActivityEvent :=
  take 10 (foldr insertByDateDesc []
             (filter (fun e => ev_userId e = userId) ledger)).

Definition getUserGamificationStats (userId : string) (db : Db)
    : result GamificationStats :=
  match users db !! userId with
  | None => Err NotFoundError
  | Some user =>
      let level := calculateLevel (totalPoints (gamification user)) in
      Ok {| gs_level := level;
            gs_totalPoints := totalPoints (gamification user);
            gs_currentStreak := currentStreak (gamification user);
            gs_longestStreak := longestStreak (gamification user);
            gs_achievements := achievements (gamification user);
            gs_recentActivities :=
              recentActivities userId (activityEvents db) |}
  end.

End GamificationService.

(** ** applications/application.service.ts *)

Module ApplicationService.

(** The fields of [CreateApplicationInput] that reach the model. *)
Record CreateApplicationInput : Type := mkCreateApplicationInput {
  in_jobId : string;
  in_coverLetter : string;
  in_proposedRate : option Z
}.

Definition samePair (job freelancer : string) (a : Application) : bool :=
  bool_decide (jobId a = job) && bool_decide (freelancerId a = freelancer).

(** [Application.findOne({ jobId, freelancerId })] *)
Definition Application_findOne (job freelancer : string)
    (apps : gmap string Application) : option (string * Application) :=
  find (fun d => samePair job freelancer d.2) (map_to_list apps).

(** The validators of the application schema that [create] runs. *)
Definition validCoverLetter (s : string) : bool :=
  (50 <=? Z.of_nat (String.length s)) && (Z.of_nat (String.length s) <=? 2000).

Definition validProposedRate (r : option Z) : bool :=
  match r with
  | Some n => 0 <=? n
  | None => true
  end.

(** [Application.create(doc)]: validation, then insertion under the
    unique indexes on [_id] and on [(jobId, freelancerId)]. [id] is the
    ObjectId generated for the new document. *)
Definition Application_create (id : string) (doc : Application)
    (apps : gmap string Application) : result (gmap string Application) :=
  check validCoverLetter (coverLetter doc)
    else MongooseValidationError "coverLetter" ;;
  check validProposedRate (proposedRate doc)
    else MongooseValidationError "proposedRate" ;;
  match apps !! id with
  | Some _ => Err (MongoDuplicateKey "_id")
  | None =>
      match Application_findOne (jobId doc) (freelancerId doc) apps with
      | Some _ => Err (MongoDuplicateKey "jobId_1_freelancerId_1")
      | None => Ok (<[id := doc]> apps)
      end
  end.

Definition incApplicationsCount (d : Z) (j : Job) : Job :=
  {| job_title := job_title j; clientId := clientId j;
     job_status := job_status j;
     assignedFreelancerId := assignedFreelancerId j;
     job_stats := {| views := views (job_stats j);
                     applicationsCount := applicationsCount (job_stats j) + d;
                     savedCount := savedCount (job_stats j) |};
     job_details := job_details j |}.

(** [Job.findByIdAndUpdate(id, { $inc: { 'stats.applicationsCount': d } })]:
    no document, no update; update validators are not run. *)
Definition Job_incApplicationsCount (id : string) (d : Z)
    (js : gmap string Job) : gmap string Job :=
  alter (incApplicationsCount d) id js.

Definition createApplication (freelancer : string)
    (data : CreateApplicationInput) (newId : string) (now : Z) (db : Db)
    : result (Application * Db) :=
  (* Verificar que el job exista y esté abierto *)
  match jobs db !! in_jobId data with
  | None => Err NotFoundError
  | Some job =>
      check bool_decide (job_status job = OPEN)
        else AppError 400 "JOB_NOT_OPEN" ;;
      (* Verificar que el freelancer no sea el cliente del job *)
      check negb (String.eqb (clientId job) freelancer)
        else AppError 400 "CANNOT_APPLY_OWN_JOB" ;;
      (* Verificar que no haya postulado ya *)
      match Application_findOne (in_jobId data) freelancer (applications db) with
      | Some _ => Err (AppError 409 "ALREADY_APPLIED")
      | None =>
          let application :=
            {| jobId := in_jobId data; freelancerId := freelancer;
               coverLetter := in_coverLetter data;
               proposedRate := in_proposedRate data;
               app_status := PENDING; appliedAt := now;
               respondedAt := None |} in
          apps <- Application_create newId application (applications db) ;;
          (* Incrementar contador de aplicaciones del job *)
          let js := Job_incApplicationsCount (in_jobId data) 1 (jobs db) in
          Ok (application, setJobs js (setApplications apps db))
      end
  end.

Definition respond (s : ApplicationStatus) (at_ : Z) (a : Application)
    : Application :=
  {| jobId := jobId a; freelancerId := freelancerId a;
     coverLetter := coverLetter a; proposedRate := proposedRate a;
     app_status := s; appliedAt := appliedAt a; respondedAt := Some at_ |}.

Definition setStatus (s : ApplicationStatus) (a : Application) : Application :=
  {| jobId := jobId a; freelancerId := freelancerId a;
     coverLetter := coverLetter a; proposedRate := proposedRate a;
     app_status := s; appliedAt := appliedAt a;
     respondedAt := respondedAt a |}.

(** The filter of the [updateMany] of [acceptApplication]:
    [{ jobId, _id: { $ne: applicationId }, status: PENDING }]. *)
Definition competitor (job applicationId : string) (id : string)
    (a : Application) : bool :=
  bool_decide (jobId a = job) && negb (String.eqb id applicationId)
  && bool_decide (app_status a = PENDING).

(** [Application.updateMany(filter, { $set: { status: REJECTED,
    respondedAt } })] *)
Definition rejectCompetitors (job applicationId : string) (at_ : Z)
    (apps : gmap string Application) : gmap string Application :=
  map_imap (fun id a =>
              Some (if competitor job applicationId id a
                    then respond REJECTED at_ a else a)) apps.

(** [acceptApplication(applicationId, userId)]; [t1] and [t2] are the two
    values of [new Date()], in program order. A job that no longer exists
    is populated as [null], on which [job.clientId] throws. *)
Definition acceptApplication (applicationId userId : string) (t1 t2 : Z)
    (db : Db) : result (Application * Db) :=
  match applications db !! applicationId with
  | None => Err NotFoundError
  | Some application =>
      match jobs db !! jobId application with
      | None => Err TypeError
      | Some job =>
          (* Verificar que el usuario sea el cliente del job *)
          check String.eqb (clientId job) userId else ForbiddenError ;;
          (* Verificar que el job esté abierto *)
          check bool_decide (job_status job = OPEN)
            else AppError 400 "JOB_NOT_OPEN" ;;
          (* Verificar que la aplicación esté pendiente *)
          check bool_decide (app_status application = PENDING)
            else AppError 400 "APPLICATION_NOT_PENDING" ;;
          (* Aceptar application *)
          let application := respond ACCEPTED t1 application in
          let apps := <[applicationId := application]> (applications db) in
          (* Rechazar todas las demás applications del job *)
          let apps :=
            rejectCompetitors (jobId application) applicationId t2 apps in
          Ok (application, setApplications apps db)
      end
  end.

Definition rejectApplication (applicationId userId : string) (now : Z)
    (db : Db) : result (Application * Db) :=
  match applications db !! applicationId with
  | None => Err NotFoundError
  | Some application =>
      match jobs db !! jobId application with
      | None => Err TypeError
      | Some job =>
          check String.eqb (clientId job) userId else ForbiddenError ;;
          check bool_decide (app_status application = PENDING)
            else AppError 400 "APPLICATION_NOT_PENDING" ;;
          let application := respond REJECTED now application in
          Ok (application,
              setApplications
                (<[applicationId := application]> (applications db)) db)
      end
  end.

Definition withdrawApplication (applicationId userId : string) (db : Db)
    : result (Application * Db) :=
  match applications db !! applicationId with
  | None => Err NotFoundError
  | Some application =>
      (* Verificar que el usuario sea el freelancer de la application *)
      check String.eqb (freelancerId application) userId
        else ForbiddenError ;;
      (* Solo permitir retirar si está pendiente *)
      check bool_decide (app_status application = PENDING)
        else AppError 400 "CANNOT_WITHDRAW_APPLICATION" ;;
      let application := setStatus WITHDRAWN application in
      let apps := <[applicationId := application]> (applications db) in
      (* Decrementar contador de aplicaciones del job *)
      let js := Job_incApplicationsCount (jobId application) (-1) (jobs db) in
      Ok (application, setJobs js (setApplications apps db))
  end.

Definition deleteApplication (applicationId userId : string) (db : Db)
    : result Db :=
  match applications db !! applicationId with
  | None => Err NotFoundError
  | Some application =>
      (* Solo el freelancer puede eliminar su propia application *)
      check String.eqb (freelancerId application) userId
        else ForbiddenError ;;
      let apps := delete applicationId (applications db) in
      (* Decrementar contador de aplicaciones del job *)
      let js := Job_incApplicationsCount (jobId application) (-1) (jobs db) in
      Ok (setJobs js (setApplications apps db))
  end.

End ApplicationService.

(** ** jobs/job.service.ts *)

Module JobService.

(** The fields of [CreateJobInput] kept by the model of [Job]. The
    [deadline] is the [Date] the DTO makes of the string it receives. *)
Record CreateJobInput : Type := mkCreateJobInput {
  in_title : string;
  in_description : string;
  in_category : string;
  in_type : JobType;
  in_budget : option Z;
  in_hourlyRate : option (Z * Z);
  in_skillsRequired : list string;
  in_deadline : option JsDate
}.

(** The time of a [Date] that the cast accepts. *)
Definition castDate (d : option JsDate) : option Z :=
  match d with
  | Some (DateOf ms) => Some ms
  | _ => None
  end.

(** The document [Job.create] builds of [{ ...data, clientId, status:
    DRAFT }]: the title goes through the setter [trim], the stats take
    their defaults. *)
Definition Job_new (client : string) (data : CreateJobInput) : Job :=
  {| job_title := trim (in_title data); clientId := client;
     job_status := DRAFT; assignedFreelancerId := None;
     job_stats := {| views := 0; applicationsCount := 0;
                     savedCount := 0 |};
     job_details :=
       {| description := in_description data;
          category := in_category data;
          job_type := in_type data;
          budget := in_budget data;
          hourlyRate := in_hourlyRate data;
          skillsRequired := in_skillsRequired data;
          deadline := castDate (in_deadline data) |} |}.

Definition incJobsPosted (d : Z) (u : User) : User :=
  {| email := email u; password := password u; role := role u;
     accountStatus := accountStatus u; gamification := gamification u;
     stats := {| jobsPosted := jobsPosted (stats u) + d;
                 jobsCompleted := jobsCompleted (stats u) |};
     refreshTokens := refreshTokens u; lastLoginAt := lastLoginAt u |}.

(** [createJob(clientId, data)]; [newId] is the ObjectId generated for
    the job. [Job.create] validates the document before it inserts
    it. *)
Definition createJob (client : string) (data : CreateJobInput)
    (newId : string) (db : Db) : result (Job * Db) :=
  let job := Job_new client data in
  _ <- validateDocument None (in_deadline data) job ;;
  match jobs db !! newId with
  | Some _ => Err (MongoDuplicateKey "_id")
  | None =>
      (* Incrementar contador de jobs posteados del cliente *)
      let us := alter (incJobsPosted 1) client (users db) in
      Ok (job, setUsers us (setJobs (<[newId := job]> (jobs db)) db))
  end.

End JobService.

(** ** auth/auth.service.ts *)

Module AuthService.

Record LoginInput : Type := mkLoginInput {
  li_email : string;
  li_password : string
}.

Record LoginResult : Type := mkLoginResult {
  lr_user : User;
  lr_accessToken : string;
  lr_refreshToken : string
}.

Section Login.

(** [bcrypt.compare(candidate, hash)] and [generateTokens(payload)] of
    core/utils/jwt.utils are opaque to the service. *)
Variable bcrypt_compare : string -> string -> bool.
Variable generateTokens : string -> string -> UserRole -> string * string.

(** [User.findOne({ email })] *)
Definition User_findOne_email (e : string) (us : gmap string User)
    : option (string * User) :=
  find (fun d => String.eqb (email d.2) e) (map_to_list us).

Definition recordLogin (refreshToken : string) (now : Z) (u : User) : User :=
  {| email := email u; password := password u; role := role u;
     accountStatus := accountStatus u; gamification := gamification u;
     stats := stats u;
     refreshTokens := (refreshTokens u ++ [refreshToken])%list;
     lastLoginAt := Some now |}.

Definition login (data : LoginInput) (now : Z) (db : Db)
    : result (LoginResult * Db) :=
  match User_findOne_email (li_email data) (users db) with
  | None => Err UnauthorizedError
  | Some (id, user) =>
      (* Verificar contraseña *)
      check bcrypt_compare (li_password data) (password user)
        else UnauthorizedError ;;
      (* Verificar que la cuenta no esté suspendida o eliminada *)
      check negb (bool_decide (accountStatus user = ACC_SUSPENDED))
        else UnauthorizedError ;;
      check negb (bool_decide (accountStatus user = ACC_DELETED))
        else UnauthorizedError ;;
      (* Generar tokens JWT *)
      let tokens := generateTokens id (email user) (role user) in
      (* Guardar refresh token *)
      let user := recordLogin tokens.2 now user in
      Ok ({| lr_user := user; lr_accessToken := tokens.1;
             lr_refreshToken := tokens.2 |},
          setUsers (<[id := user]> (users db)) db)
  end.

End Login.

End AuthService.

(** ** jobs/job.service.ts: the lifecycle operations *)

(** The two date fields of a job document that the lifecycle writes.
    [Db] keeps the other fields of the jobs; the dates are kept beside
    it, under the same [_id]. A job without an entry has neither date. *)
Record JobDates : Type := mkJobDates {
  startDate : option Z;
  completionDate : option Z
}.

Record Store : Type := mkStore {
  st_db : Db;
  st_jobDates : gmap string JobDates
}.

Module JobLifecycle.

Record AssignFreelancerInput : Type := mkAssignFreelancerInput {
  in_freelancerId : string
}.

Definition setJobStatus (s : JobStatus) (j : Job) : Job :=
  {| job_title := job_title j; clientId := clientId j; job_status := s;
     assignedFreelancerId := assignedFreelancerId j;
     job_stats := job_stats j; job_details := job_details j |}.

Definition setAssigned (f : string) (j : Job) : Job :=
  {| job_title := job_title j; clientId := clientId j;
     job_status := job_status j; assignedFreelancerId := Some f;
     job_stats := job_stats j; job_details := job_details j |}.

Definition incViews (j : Job) : Job :=
  {| job_title := job_title j; clientId := clientId j;
     job_status := job_status j;
     assignedFreelancerId := assignedFreelancerId j;
     job_stats := {| views := views (job_stats j) + 1;
                     applicationsCount := applicationsCount (job_stats j);
                     savedCount := savedCount (job_stats j) |};
     job_details := job_details j |}.

Definition incJobsCompleted (d : Z) (u : User) : User :=
  {| email := email u; password := password u; role := role u;
     accountStatus := accountStatus u; gamification := gamification u;
     stats := {| jobsPosted := jobsPosted (stats u);
                 jobsCompleted := jobsCompleted (stats u) + d |};
     refreshTokens := refreshTokens u; lastLoginAt := lastLoginAt u |}.

Definition datesOf (id : string) (st : Store) : JobDates :=
  default {| startDate := None; completionDate := None |}
          (st_jobDates st !! id).

(** [job.save()]: the document is validated, then written. *)
Definition saveJob (id : string) (job : Job) (st : Store) : result Store :=
  _ <- Job_validate job ;;
  Ok {| st_db := setJobs (<[id := job]> (jobs (st_db st))) (st_db st);
        st_jobDates := st_jobDates st |}.

Definition setDates (id : string) (d : JobDates) (st : Store) : Store :=
  {| st_db := st_db st; st_jobDates := <[id := d]> (st_jobDates st) |}.

(** [getJobById(jobId, incrementView)] *)
Definition getJobById (jobId : string) (incrementView : bool) (st : Store)
    : result (Job * Store) :=
  match jobs (st_db st) !! jobId with
  | None => Err NotFoundError
  | Some job =>
      (* Incrementar vistas si se solicita *)
      if incrementView
      then let job := incViews job in
           st <- saveJob jobId job st ;; Ok (job, st)
      else Ok (job, st)
  end.

(** The fields of [UpdateJobInput] kept by the model of [Job]; an absent
    key is [None]. The DTO types [status] as a string. *)
Record UpdateJobInput : Type := mkUpdateJobInput {
  uj_title : option string;
  uj_description : option string;
  uj_category : option string;
  uj_type : option JobType;
  uj_budget : option Z;
  uj_hourlyRate : option (Z * Z);
  uj_skillsRequired : option (list string);
  uj_deadline : option JsDate;
  uj_status : option string
}.

Definition orGiven {A : Type} (given : option A) (stored : option A)
    : option A :=
  match given with
  | Some a => Some a
  | None => stored
  end.

(** [Object.assign(job, data)]: each key of [data] is assigned to the
    document, the title through the setter [trim]. A [status] outside
    the enum and an Invalid Date are refused when the document is
    validated; the fields of the result are then not read. *)
Definition assignJobFields (data : UpdateJobInput) (j : Job) : Job :=
  {| job_title := default (job_title j) (trim <$> uj_title data);
     clientId := clientId j;
     job_status :=
       default (job_status j) (uj_status data ≫= JobStatus_ofString);
     assignedFreelancerId := assignedFreelancerId j;
     job_stats := job_stats j;
     job_details :=
       {| description :=
            default (description (job_details j)) (uj_description data);
          category := default (category (job_details j)) (uj_category data);
          job_type := default (job_type (job_details j)) (uj_type data);
          budget := orGiven (uj_budget data) (budget (job_details j));
          hourlyRate :=
            orGiven (uj_hourlyRate data) (hourlyRate (job_details j));
          skillsRequired :=
            default (skillsRequired (job_details j))
                    (uj_skillsRequired data);
          deadline :=
            match uj_deadline data with
            | Some d => JobService.castDate (Some d)
            | None => deadline (job_details j)
            end |} |}.

(** [updateJob(jobId, userId, data)] *)
Definition updateJob (jobId userId : string) (data : UpdateJobInput)
    (st : Store) : result (Job * Store) :=
  match jobs (st_db st) !! jobId with
  | None => Err NotFoundError
  | Some job =>
      (* Verificar que el usuario sea el cliente del job *)
      check String.eqb (clientId job) userId else ForbiddenError ;;
      (* No permitir actualizar si el job ya está completado o
         cancelado *)
      check negb (bool_decide (job_status job = COMPLETED)
                  || bool_decide (job_status job = CANCELLED))
        else AppError 400 "CANNOT_UPDATE_JOB" ;;
      (* Actualizar campos *)
      let job := assignJobFields data job in
      (* job.save() *)
      _ <- validateDocument (uj_status data) (uj_deadline data) job ;;
      Ok (job,
          {| st_db := setJobs (<[jobId := job]> (jobs (st_db st))) (st_db st);
             st_jobDates := st_jobDates st |})
  end.

(** [publishJob(jobId, userId)] *)
Definition publishJob (jobId userId : string) (st : Store)
    : result (Job * Store) :=
  match jobs (st_db st) !! jobId with
  | None => Err NotFoundError
  | Some job =>
      check String.eqb (clientId job) userId else ForbiddenError ;;
      check bool_decide (job_status job = DRAFT)
        else AppError 400 "CANNOT_PUBLISH_JOB" ;;
      let job := setJobStatus OPEN job in
      st <- saveJob jobId job st ;;
      Ok (job, st)
  end.

(** [assignFreelancer(jobId, userId, data)], with [now] the value of
    [new Date()]. *)
Definition assignFreelancer (jobId userId : string)
    (data : AssignFreelancerInput) (now : Z) (st : Store)
    : result (Job * Store) :=
  match jobs (st_db st) !! jobId with
  | None => Err NotFoundError
  | Some job =>
      check String.eqb (clientId job) userId else ForbiddenError ;;
      check bool_decide (job_status job = OPEN)
        else AppError 400 "CANNOT_ASSIGN_JOB" ;;
      (* Verificar que el freelancer exista *)
      match users (st_db st) !! in_freelancerId data with
      | None => Err (AppError 400 "INVALID_FREELANCER")
      | Some freelancer =>
          match role freelancer with
          | FREELANCER =>
              let job := setAssigned (in_freelancerId data) job in
              let job := setJobStatus IN_PROGRESS job in
              let dates :=
                {| startDate := Some now;
                   completionDate := completionDate (datesOf jobId st) |} in
              st <- saveJob jobId job st ;;
              Ok (job, setDates jobId dates st)
          | _ => Err (AppError 400 "INVALID_FREELANCER")
          end
      end
  end.

(** [User.findByIdAndUpdate(id, { $inc: { 'stats.jobsCompleted': 1 } })]
    for the user that the filter on [id] matches, if any. *)
Definition User_incJobsCompleted (id : option string)
    (us : gmap string User) : gmap string User :=
  match id with
  | Some i => alter (incJobsCompleted 1) i us
  | None => us
  end.

(** [completeJob(jobId, userId)], with [now] the value of [new Date()].
    On a job with no freelancer assigned, the second update is made with
    an [undefined] id; [matched] is the user that Mongoose and the
    driver match for it, if any (the filter may reach the database
    without its [_id], and then matches a user of its choice, or with
    [_id: null], and then matches none). *)
Definition completeJob (jobId userId : string) (now : Z)
    (matched : option string) (st : Store) : result (Job * Store) :=
  match jobs (st_db st) !! jobId with
  | None => Err NotFoundError
  | Some job =>
      check String.eqb (clientId job) userId else ForbiddenError ;;
      check bool_decide (job_status job = IN_PROGRESS)
        else AppError 400 "CANNOT_COMPLETE_JOB" ;;
      let job := setJobStatus COMPLETED job in
      let dates :=
        {| startDate := startDate (datesOf jobId st);
           completionDate := Some now |} in
      st <- saveJob jobId job st ;;
      let st := setDates jobId dates st in
      (* Incrementar contador de jobs completados para cliente y
         freelancer *)
      let us := User_incJobsCompleted (Some (clientId job))
                  (users (st_db st)) in
      let us := User_incJobsCompleted
                  (orGiven (assignedFreelancerId job) matched) us in
      Ok (job, {| st_db := setUsers us (st_db st);
                  st_jobDates := st_jobDates st |})
  end.

(** [cancelJob(jobId, userId)] *)
Definition cancelJob (jobId userId : string) (st : Store)
    : result (Job * Store) :=
  match jobs (st_db st) !! jobId with
  | None => Err NotFoundError
  | Some job =>
      check String.eqb (clientId job) userId else ForbiddenError ;;
      check negb (bool_decide (job_status job = COMPLETED))
        else AppError 400 "CANNOT_CANCEL_JOB" ;;
      let job := setJobStatus CANCELLED job in
      st <- saveJob jobId job st ;;
      Ok (job, st)
  end.

(** [deleteJob(jobId, userId)] *)
Definition deleteJob (jobId userId : string) (st : Store) : result Store :=
  match jobs (st_db st) !! jobId with
  | None => Err NotFoundError
  | Some job =>
      check String.eqb (clientId job) userId else ForbiddenError ;;
      (* Solo permitir eliminar drafts *)
      check bool_decide (job_status job = DRAFT)
        else AppError 400 "CANNOT_DELETE_JOB" ;;
      Ok {| st_db := setJobs (delete jobId (jobs (st_db st))) (st_db st);
            st_jobDates := delete jobId (st_jobDates st) |}
  end.

End JobLifecycle.

(** ** applications/application.service.ts: [updateApplication] *)

Module ApplicationEdits.
Import ApplicationService.

(** The fields of [UpdateApplicationInput] that the model of
    [Application] carries; an absent key is [None]. *)
Record UpdateApplicationInput : Type := mkUpdateApplicationInput {
  up_coverLetter : option string;
  up_proposedRate : option Z
}.

(** [Object.assign(application, data)] *)
Definition assignFields (data : UpdateApplicationInput) (a : Application)
    : Application :=
  {| jobId := jobId a; freelancerId := freelancerId a;
     coverLetter := default (coverLetter a) (up_coverLetter data);
     proposedRate :=
       match up_proposedRate data with
       | Some r => Some r
       | None => proposedRate a
       end;
     app_status := app_status a; appliedAt := appliedAt a;
     respondedAt := respondedAt a |}.

(** [application.save()] after the assignment: the validators run on the
    paths that are required or modified; [coverLetter] is required,
    [proposedRate] is validated when its value has changed. *)
Definition Application_save (id : string) (old new : Application)
    (apps : gmap string Application) : result (gmap string Application) :=
  check validCoverLetter (coverLetter new)
    else MongooseValidationError "coverLetter" ;;
  check bool_decide (proposedRate new = proposedRate old)
        || validProposedRate (proposedRate new)
    else MongooseValidationError "proposedRate" ;;
  Ok (<[id := new]> apps).

(** [updateApplication(applicationId, userId, data)] *)
Definition updateApplication (applicationId userId : string)
    (data : UpdateApplicationInput) (db : Db) : result (Application * Db) :=
  match applications db !! applicationId with
  | None => Err NotFoundError
  | Some application =>
      (* Verificar que el usuario sea el freelancer de la application *)
      check String.eqb (freelancerId application) userId
        else ForbiddenError ;;
      (* Solo permitir actualizar si está pendiente *)
      check bool_decide (app_status application = PENDING)
        else AppError 400 "CANNOT_UPDATE_APPLICATION" ;;
      (* Actualizar campos *)
      let updated := assignFields data application in
      apps <- Application_save applicationId application updated
                (applications db) ;;
      Ok (updated, setApplications apps db)
  end.

End ApplicationEdits.

(** ** auth/auth.service.ts: registration, sessions, password *)

(** core/utils/jwt.utils.ts *)
Inductive TokenType := ACCESS | REFRESH.

Record JWTPayload : Type := mkJWTPayload {
  jwt_userId : string;
  jwt_email : string;
  jwt_role : UserRole
}.

Module AuthSessions.
Import AuthService.

Record RegisterInput : Type := mkRegisterInput {
  ri_email : string;
  ri_password : string;
  ri_firstName : string;
  ri_lastName : string;
  ri_role : UserRole
}.

Record ChangePasswordInput : Type := mkChangePasswordInput {
  cp_currentPassword : string;
  cp_newPassword : string
}.

(** The white space of [String.prototype.trim] and of [\s], among the
    ASCII characters. *)
Definition isWhitespace (c : Ascii.ascii) : bool :=
  let n := Ascii.nat_of_ascii c in
  ((9 <=? n)%nat && (n <=? 13)%nat) || (n =? 32)%nat.

(** A string that [trim] empties, which [required] then refuses. *)
Definition isBlank (s : string) : bool :=
  forallb isWhitespace (String.list_ascii_of_string s).

(** The characters [.] and [@]. *)
Definition isDot (c : Ascii.ascii) : bool := (Ascii.nat_of_ascii c =? 46)%nat.
Definition isAt (c : Ascii.ascii) : bool := (Ascii.nat_of_ascii c =? 64)%nat.

Fixpoint hasDotThenMore (l : list Ascii.ascii) : bool :=
  match l with
  | [] => false
  | c :: r => (isDot c && negb (Nat.eqb (length r) 0)) || hasDotThenMore r
  end.

Definition afterAt (l : list Ascii.ascii) : bool :=
  match l with
  | [] => false
  | _ :: r => hasDotThenMore r
  end.

Fixpoint hasAt (l : list Ascii.ascii) : bool :=
  match l with
  | [] => false
  | c :: r => (isAt c && afterAt r) || hasAt r
  end.

(** The validator [match: /^\S+@\S+\.\S+$/] of the e-mail: no white
    space, and an [@] after at least one character, then at least one
    character, a dot, and at least one character. *)
Definition emailMatches (s : string) : bool :=
  let chars := String.list_ascii_of_string s in
  forallb (fun c => negb (isWhitespace c)) chars
  && match chars with
     | [] => false
     | _ :: r => hasAt r
     end.

Definition setRefreshTokens (tokens : list string) (u : User) : User :=
  {| email := email u; password := password u; role := role u;
     accountStatus := accountStatus u; gamification := gamification u;
     stats := stats u; refreshTokens := tokens;
     lastLoginAt := lastLoginAt u |}.

Definition setPassword (p : string) (u : User) : User :=
  {| email := email u; password := p; role := role u;
     accountStatus := accountStatus u; gamification := gamification u;
     stats := stats u; refreshTokens := refreshTokens u;
     lastLoginAt := lastLoginAt u |}.

(** [tokens.filter((token) => token !== refreshToken)] *)
Definition withoutToken (refreshToken : string) (tokens : list string)
    : list string :=
  filter (fun token => token <> refreshToken) tokens.

Section Sessions.

(** [bcrypt.compare], [bcrypt.hash] with the salt drawn by
    [bcrypt.genSalt(12)], [generateTokens] and [verifyToken] are opaque
    to the service; [verifyToken] answers [None] where it throws. *)
Variable bcrypt_compare : string -> string -> bool.
Variable bcrypt_hash : string -> string -> string.
Variable generateTokens : string -> string -> UserRole -> string * string.
Variable verifyToken : string -> TokenType -> option JWTPayload.

(** [register(data)]; [newId] is the ObjectId of the new user and [salt]
    the salt of the pre-save hook. [User.create] validates before it
    inserts: the e-mail against its pattern, the password against
    [minlength: 8] (before it is hashed), the two names against
    [required] after [trim]; the error names the first failing path.
    E-mail addresses reach the service lowercased and trimmed. *)
Definition register (data : RegisterInput) (newId salt : string) (db : Db)
    : result (LoginResult * Db) :=
  (* Verificar si el email ya existe *)
  match User_findOne_email (ri_email data) (users db) with
  | Some _ => Err (AppError 409 "CONFLICT")
  | None =>
      (* Crear usuario *)
      check emailMatches (ri_email data)
        else MongooseValidationError "email" ;;
      check (8 <=? Z.of_nat (String.length (ri_password data)))
        else MongooseValidationError "password" ;;
      check negb (isBlank (ri_firstName data))
        else MongooseValidationError "profile.firstName" ;;
      check negb (isBlank (ri_lastName data))
        else MongooseValidationError "profile.lastName" ;;
      match users db !! newId with
      | Some _ => Err (MongoDuplicateKey "_id")
      | None =>
          let user :=
            {| email := ri_email data;
               password := bcrypt_hash (ri_password data) salt;
               role := ri_role data; accountStatus := ACC_PENDING;
               gamification := defaultGamification;
               stats := {| jobsPosted := 0; jobsCompleted := 0 |};
               refreshTokens := []; lastLoginAt := None |} in
          (* Generar tokens JWT *)
          let tokens := generateTokens newId (email user) (role user) in
          (* Guardar refresh token en el usuario *)
          let user :=
            setRefreshTokens (refreshTokens user ++ [tokens.2])%list user in
          Ok ({| lr_user := user; lr_accessToken := tokens.1;
                 lr_refreshToken := tokens.2 |},
              setUsers (<[newId := user]> (users db)) db)
      end
  end.

(** [logout(userId, refreshToken)] *)
Definition logout (userId refreshToken : string) (db : Db) : result Db :=
  match users db !! userId with
  | None => Err NotFoundError
  | Some user =>
      (* Remover refresh token *)
      let user :=
        setRefreshTokens (withoutToken refreshToken (refreshTokens user))
          user in
      Ok (setUsers (<[userId := user]> (users db)) db)
  end.

(** [refreshAccessToken(refreshToken)] *)
Definition refreshAccessToken (refreshToken : string) (db : Db)
    : result ((string * string) * Db) :=
  (* Verificar refresh token *)
  match verifyToken refreshToken REFRESH with
  | None => Err UnauthorizedError
  | Some decoded =>
      (* Buscar usuario *)
      match users db !! jwt_userId decoded with
      | None => Err NotFoundError
      | Some user =>
          (* Verificar que el refresh token esté en la lista del usuario *)
          check bool_decide (refreshToken ∈ refreshTokens user)
            else UnauthorizedError ;;
          (* Generar nuevos tokens *)
          let tokens :=
            generateTokens (jwt_userId decoded) (email user) (role user) in
          (* Reemplazar refresh token viejo con el nuevo *)
          let user :=
            setRefreshTokens
              (withoutToken refreshToken (refreshTokens user) ++ [tokens.2])%list
              user in
          Ok (tokens,
              setUsers (<[jwt_userId decoded := user]> (users db)) db)
      end
  end.

(** [changePassword(userId, data)]; [salt] is the salt of the pre-save
    hook, which hashes the password when its value has changed. The
    validator [minlength: 8] sees the value before it is hashed. *)
Definition changePassword (userId : string) (data : ChangePasswordInput)
    (salt : string) (db : Db) : result Db :=
  match users db !! userId with
  | None => Err NotFoundError
  | Some user =>
      (* Verificar contraseña actual *)
      check bcrypt_compare (cp_currentPassword data) (password user)
        else UnauthorizedError ;;
      check (8 <=? Z.of_nat (String.length (cp_newPassword data)))
        else MongooseValidationError "password" ;;
      (* Actualizar contraseña *)
      let stored :=
        if String.eqb (cp_newPassword data) (password user)
        then password user
        else bcrypt_hash (cp_newPassword data) salt in
      (* Invalidar todos los refresh tokens *)
      let user := setRefreshTokens [] (setPassword stored user) in
      Ok (setUsers (<[userId := user]> (users db)) db)
  end.

(** [getMe(userId)] *)
Definition getMe (userId : string) (db : Db) : result User :=
  match users db !! userId with
  | None => Err NotFoundError
  | Some user => Ok user
  end.

End Sessions.

End AuthSessions.

(** ** gamification/gamification.service.ts: the leaderboard *)

Module Leaderboard.

(** An entry of the leaderboard. Of the [user] object of an entry, the
    [id] and the [email] are carried; [name] and [avatar] are read from
    the profile, which the [User] record above does not carry. *)
Record LeaderboardEntry : Type := mkLeaderboardEntry {
  lb_rank : Z;
  lb_id : string;
  lb_email : string;
  lb_totalPoints : Z;
  lb_currentStreak : Z
}.

(** [.sort({ 'gamification.totalPoints': -1 })]: a user comes before the
    users that have no more points (MongoDB leaves the order among equal
    points open; here it is the one the merge sort gives). *)
Definition byPointsDesc (x y : string * User) : Prop :=
  totalPoints (gamification y.2) <= totalPoints (gamification x.2).

#[global] Instance byPointsDesc_dec : RelDecision byPointsDesc.
Proof. intros x y. unfold byPointsDesc. apply _. Defined.

Definition User_find_sorted (us : gmap string User) : list (string * User) :=
  merge_sort byPointsDesc (map_to_list us).

(** [.limit(n)] for a count [n]; MongoDB reads the limit 0 as no limit. *)
Definition cursor_limit {A : Type} (limit : N) (l : list A) : list A :=
  if (limit =? 0)%N then l else take (N.to_nat limit) l.

(** [getLeaderboard(limit = 10)] *)
Definition getLeaderboard (limit : option N) (db : Db)
    : list LeaderboardEntry :=
  let limit := default 10%N limit in
  let topUsers := cursor_limit limit (User_find_sorted (users db)) in
  imap (fun index (d : string * User) =>
          {| lb_rank := Z.of_nat index + 1;
             lb_id := d.1;
             lb_email := email d.2;
             lb_totalPoints := totalPoints (gamification d.2);
             lb_currentStreak := currentStreak (gamification d.2) |})
       topUsers.

End Leaderboard.

(** * Specification vocabulary *)

Section Vocabulary.
Import GamificationService.

(** The part of a user an evaluation pass never writes. *)
Definition sameButAchievements (u u' : User) : Prop :=
  currentStreak (gamification u') = currentStreak (gamification u) /\
  longestStreak (gamification u') = longestStreak (gamification u) /\
  lastActivityDate (gamification u') = lastActivityDate (gamification u) /\
  level (gamification u') = level (gamification u) /\
  stats u' = stats u.

(** Steps 4 to 6 of [recordActivity] on the loaded user: add the points,
    update the streak, evaluate the achievements. *)
Definition applyActivity (points now : Z) (catalog : list Achievement)
    (user : User) : User :=
  checkAchievements catalog
    (updateStreak now
       (setGamification
          (setTotalPoints (totalPoints (gamification user) + points)
             (gamification user)) user)).

(** The streak invariant of the user aggregate, and the fact about
    states with a recorded activity that makes it inductive. *)
Definition streakOrdered (g : Gamification) : Prop :=
  currentStreak g <= longestStreak g.

Definition streakStarted (g : Gamification) : Prop :=
  is_Some (lastActivityDate g) -> 1 <= longestStreak g.

(** The type-to-points table as the specification words it. *)
Definition specPointsTable : list (string * Z) :=
  [("login", 5); ("job_posted", 10); ("application_sent", 15);
   ("application_accepted", 25); ("job_completed", 50);
   ("profile_updated", 5)].

(** The effect of unlocking the achievements of [unlocked], in order. *)
Definition grantAll (unlocked : list Achievement) (g : Gamification)
    : Gamification :=
  fold_left (fun g a => grant a g) unlocked g.

Definition sumPoints (l : list Achievement) : Z :=
  foldr (fun a s => ach_points a + s) 0 l.

Definition isTotalPoints (a : Achievement) : Prop :=
  criteria_type a = "total_points".

(** Example catalog: a points threshold iterated before the streak badge
    whose bonus reaches it. *)
Definition centurion : Achievement :=
  {| ach_id := "a-centurion"; ach_name := "Centurion";
     criteria_type := "total_points"; criteria_target := 100;
     ach_points := 10; isActive := true |}.

Definition firstStep : Achievement :=
  {| ach_id := "a-first-step"; ach_name := "First step";
     criteria_type := "streak_days"; criteria_target := 1;
     ach_points := 100; isActive := true |}.

(** Example data: one user, known under the id [u1]. *)
Definition day : Z := 86400000.

Definition exampleUser (g : Gamification) : User :=
  {| email := "ana@example.com"; password := "$2a$12$hash";
     role := FREELANCER; accountStatus := ACC_ACTIVE;
     gamification := g; stats := {| jobsPosted := 0; jobsCompleted := 0 |};
     refreshTokens := []; lastLoginAt := None |}.

Definition exampleDb (g : Gamification) (catalog : list Achievement) : Db :=
  {| users := {[ "u1" := exampleUser g ]}; jobs := ∅; applications := ∅;
     activityEvents := []; achievementCatalog := catalog |}.

(** Example data: a marketplace with two jobs of client [c1] and the
    applications of three freelancers. *)
Definition exampleLetter : string :=
  "I have built three marketplaces of this kind and can start on Monday.".

Definition exampleBrief : string :=
  "A landing page for a bakery, with a menu, a map and an order form.".

Definition exampleDetails : JobDetails :=
  {| description := exampleBrief; category := "web";
     job_type := FIXED_PRICE; budget := Some 800; hourlyRate := None;
     skillsRequired := ["html"; "css"]; deadline := None |}.

Definition exampleJob (s : JobStatus) (count : Z) : Job :=
  {| job_title := "Landing page"; clientId := "c1"; job_status := s;
     assignedFreelancerId := None;
     job_stats := {| views := 0; applicationsCount := count;
                     savedCount := 0 |};
     job_details := exampleDetails |}.

Definition exampleApplication (job freelancer : string)
    (s : ApplicationStatus) (responded : option Z) : Application :=
  {| jobId := job; freelancerId := freelancer; coverLetter := exampleLetter;
     proposedRate := Some 40; app_status := s; appliedAt := 100;
     respondedAt := responded |}.

Definition marketDb (s : JobStatus) : Db :=
  {| users := {[ "c1" := exampleUser defaultGamification ]};
     jobs := {[ "j1" := exampleJob s 3; "j2" := exampleJob OPEN 1 ]};
     applications :=
       {[ "a1" := exampleApplication "j1" "f1" PENDING None;
          "a2" := exampleApplication "j1" "f2" PENDING None;
          "a3" := exampleApplication "j1" "f3" WITHDRAWN None;
          "a4" := exampleApplication "j2" "f2" PENDING None ]};
     activityEvents := []; achievementCatalog := [] |}.

(** Example stand-ins for the opaque collaborators of [login]: a
    password matches the hash that ends with it, and the tokens are
    derived from the user id. *)
Definition exampleCompare (candidate hash : string) : bool :=
  String.eqb ("$2a$12$" ++ candidate)%string hash.

Definition exampleTokens (id mail : string) (r : UserRole) : string * string :=
  (("access." ++ id)%string, ("refresh." ++ id)%string).

(** The gamification state of a stored user. *)
Definition gamificationOf (id : string) (db : Db) : option Gamification :=
  gamification <$> users db !! id.

Definition applicationsCountOf (job : string) (db : Db) : option Z :=
  (fun j => applicationsCount (job_stats j)) <$> jobs db !! job.

End Vocabulary.

(** ** Vocabulary of the job lifecycle *)

Section LifecycleVocabulary.
Import JobLifecycle.

(** The operations of the job state machine, and their dispatch. *)
Inductive JobOp : Type :=
| OpPublish
| OpAssign (data : AssignFreelancerInput) (now : Z)
| OpComplete (now : Z) (matched : option string)
| OpCancel
| OpDelete
| OpUpdate (data : UpdateJobInput).

Definition runJobOp (op : JobOp) (jobId userId : string) (st : Store)
    : result Store :=
  match op with
  | OpPublish => r <- publishJob jobId userId st ;; Ok r.2
  | OpAssign data now => r <- assignFreelancer jobId userId data now st ;; Ok r.2
  | OpComplete now matched =>
      r <- completeJob jobId userId now matched st ;; Ok r.2
  | OpCancel => r <- cancelJob jobId userId st ;; Ok r.2
  | OpDelete => deleteJob jobId userId st
  | OpUpdate data => r <- updateJob jobId userId data st ;; Ok r.2
  end.

(** The status of a stored job; [None] when the job is not stored. *)
Definition statusOf (jobId : string) (st : Store) : option JobStatus :=
  job_status <$> jobs (st_db st) !! jobId.

(** The transitions of the state machine: the status before, the
    operation, the status after ([None]: the job is removed). *)
Definition jobTransition (before : JobStatus) (op : JobOp)
    (after : option JobStatus) : Prop :=
  match op with
  | OpPublish => before = DRAFT /\ after = Some OPEN
  | OpAssign _ _ => before = OPEN /\ after = Some IN_PROGRESS
  | OpComplete _ _ => before = IN_PROGRESS /\ after = Some COMPLETED
  | OpCancel => before <> COMPLETED /\ after = Some CANCELLED
  | OpDelete => before = DRAFT /\ after = None
  | OpUpdate data =>
      before <> COMPLETED /\ before <> CANCELLED /\
      after = Some (default before (uj_status data ≫= JobStatus_ofString))
  end.

(** The update that names a status and nothing else. *)
Definition statusOnly (s : string) : UpdateJobInput :=
  {| uj_title := None; uj_description := None; uj_category := None;
     uj_type := None; uj_budget := None; uj_hourlyRate := None;
     uj_skillsRequired := None; uj_deadline := None;
     uj_status := Some s |}.

Definition JobStatus_toString (s : JobStatus) : string :=
  match s with
  | DRAFT => "draft"
  | OPEN => "open"
  | IN_PROGRESS => "in_progress"
  | COMPLETED => "completed"
  | CANCELLED => "cancelled"
  end.

(** What the validators of [Job.create] ask of the input. *)
Definition validJobInput (data : JobService.CreateJobInput) : Prop :=
  (10 <= String.length (trim (JobService.in_title data)) <= 100)%nat /\
  (50 <= String.length (JobService.in_description data) <= 5000)%nat /\
  JobService.in_category data <> "" /\
  (forall b, JobService.in_budget data = Some b -> 0 <= b) /\
  (forall lo hi, JobService.in_hourlyRate data = Some (lo, hi) ->
                 0 <= lo /\ 0 <= hi) /\
  JobService.in_skillsRequired data <> [] /\
  JobService.in_deadline data <> Some InvalidDate.

(** A job is final when it is completed or cancelled. *)
Definition isFinal (s : JobStatus) : Prop := s = COMPLETED \/ s = CANCELLED.

(** Two job documents that differ in their stats at most. *)
Definition sameButStats (j j' : Job) : Prop :=
  job_title j' = job_title j /\ clientId j' = clientId j /\
  job_status j' = job_status j /\
  assignedFreelancerId j' = assignedFreelancerId j /\
  job_details j' = job_details j.

Definition exampleJobInput : JobService.CreateJobInput :=
  {| JobService.in_title := "  Logo for a bakery ";
     JobService.in_description := exampleBrief;
     JobService.in_category := "design";
     JobService.in_type := FIXED_PRICE;
     JobService.in_budget := Some 300;
     JobService.in_hourlyRate := None;
     JobService.in_skillsRequired := ["illustrator"];
     JobService.in_deadline := Some (DateOf 2000000) |}.

Definition jobsPostedOf (id : string) (db : Db) : option Z :=
  (fun u => jobsPosted (stats u)) <$> users db !! id.

Definition jobsCompletedOf (id : string) (db : Db) : option Z :=
  (fun u => jobsCompleted (stats u)) <$> users db !! id.

(** Example data: the marketplace with a freelancer [f1] registered. *)
Definition exampleStore (s : JobStatus) : Store :=
  {| st_db :=
       setUsers
         {[ "f1" := exampleUser defaultGamification;
            "c1" := mkUser "carla@example.com" "$2a$12$hash" CLIENT
                      ACC_ACTIVE defaultGamification (mkUserStats 2 0)
                      [] None ]}
         (marketDb s);
     st_jobDates := ∅ |}.

(** The same with the job [j1] in progress, assigned to [f]. *)
Definition assignedStore (f : string) : Store :=
  {| st_db :=
       setJobs
         (<["j1" := setAssigned f (exampleJob IN_PROGRESS 3)]>
            (jobs (st_db (exampleStore IN_PROGRESS))))
         (st_db (exampleStore IN_PROGRESS));
     st_jobDates := ∅ |}.

End LifecycleVocabulary.

(** ** Vocabulary of the application lifecycle *)

Section ApplicationVocabulary.
Import ApplicationService ApplicationEdits.

(** The operations of the application manager, each with its caller and
    arguments, and their dispatch. *)
Inductive ApplicationOp : Type :=
| AOpCreate (freelancer : string) (data : CreateApplicationInput)
    (newId : string) (now : Z)
| AOpUpdate (id userId : string) (data : UpdateApplicationInput)
| AOpAccept (id userId : string) (t1 t2 : Z)
| AOpReject (id userId : string) (now : Z)
| AOpWithdraw (id userId : string)
| AOpDelete (id userId : string).

Definition runApplicationOp (op : ApplicationOp) (db : Db) : result Db :=
  match op with
  | AOpCreate freelancer data newId now =>
      r <- createApplication freelancer data newId now db ;; Ok r.2
  | AOpUpdate id userId data =>
      r <- updateApplication id userId data db ;; Ok r.2
  | AOpAccept id userId t1 t2 =>
      r <- acceptApplication id userId t1 t2 db ;; Ok r.2
  | AOpReject id userId now =>
      r <- rejectApplication id userId now db ;; Ok r.2
  | AOpWithdraw id userId =>
      r <- withdrawApplication id userId db ;; Ok r.2
  | AOpDelete id userId => deleteApplication id userId db
  end.

(** What a successful operation has checked and what it has stored. *)
Definition applicationEffect (op : ApplicationOp) (db db' : Db) : Prop :=
  let apps := applications db in
  match op with
  | AOpCreate freelancer data newId now =>
      exists job,
        jobs db !! in_jobId data = Some job /\ job_status job = OPEN /\
        clientId job <> freelancer /\
        apps !! newId = None /\
        Application_findOne (in_jobId data) freelancer apps = None /\
        applications db'
        = <[newId := mkApplication (in_jobId data) freelancer
                       (in_coverLetter data) (in_proposedRate data)
                       PENDING now None]> apps
  | AOpUpdate id userId data =>
      exists a,
        apps !! id = Some a /\ freelancerId a = userId /\
        app_status a = PENDING /\
        applications db' = <[id := assignFields data a]> apps
  | AOpAccept id userId t1 t2 =>
      exists a job,
        apps !! id = Some a /\ jobs db !! jobId a = Some job /\
        clientId job = userId /\ job_status job = OPEN /\
        app_status a = PENDING /\
        applications db'
        = rejectCompetitors (jobId a) id t2
            (<[id := respond ACCEPTED t1 a]> apps)
  | AOpReject id userId now =>
      exists a job,
        apps !! id = Some a /\ jobs db !! jobId a = Some job /\
        clientId job = userId /\ app_status a = PENDING /\
        applications db' = <[id := respond REJECTED now a]> apps
  | AOpWithdraw id userId =>
      exists a,
        apps !! id = Some a /\ freelancerId a = userId /\
        app_status a = PENDING /\
        applications db' = <[id := setStatus WITHDRAWN a]> apps
  | AOpDelete id userId =>
      exists a,
        apps !! id = Some a /\ freelancerId a = userId /\
        applications db' = delete id apps
  end.

(** The uniqueness constraint of the index on (jobId, freelancerId). *)
Definition uniquePairs (apps : gmap string Application) : Prop :=
  forall id1 id2 a1 a2,
    apps !! id1 = Some a1 -> apps !! id2 = Some a2 ->
    jobId a1 = jobId a2 -> freelancerId a1 = freelancerId a2 ->
    id1 = id2.

(** The applications the counter of a job is meant to count: those of
    the job that are not withdrawn. *)
Definition countsAsLive (job : string) (a : Application) : Prop :=
  jobId a = job /\ app_status a <> WITHDRAWN.

Definition liveIds (job : string) (apps : gmap string Application)
    : gset string :=
  dom (filter (fun kv => countsAsLive job kv.2) apps).

(** [stats.applicationsCount] of the job, when it is stored, is the
    number of its applications that are not withdrawn. *)
Definition counterExact (job : string) (db : Db) : Prop :=
  forall j,
    jobs db !! job = Some j ->
    applicationsCount (job_stats j)
    = Z.of_nat (size (liveIds job (applications db))).

End ApplicationVocabulary.

(** ** Vocabulary of the services together *)

Section ServiceVocabulary.
Import JobService JobLifecycle.

(** The operations of the job service and of the application manager,
    which are the ones that write jobs, and their dispatch. *)
Inductive ServiceOp : Type :=
| SJob (op : JobOp) (jobId userId : string)
| SView (jobId : string) (incrementView : bool)
| SCreateJob (client : string) (data : CreateJobInput) (newId : string)
| SApplication (op : ApplicationOp).

Definition withDb (db : Db) (st : Store) : Store :=
  {| st_db := db; st_jobDates := st_jobDates st |}.

Definition runServiceOp (op : ServiceOp) (st : Store) : result Store :=
  match op with
  | SJob op jobId userId => runJobOp op jobId userId st
  | SView jobId incrementView =>
      r <- getJobById jobId incrementView st ;; Ok r.2
  | SCreateJob client data newId =>
      r <- createJob client data newId (st_db st) ;; Ok (withDb r.2 st)
  | SApplication op =>
      db <- runApplicationOp op (st_db st) ;; Ok (withDb db st)
  end.

End ServiceVocabulary.

(** ** Vocabulary of the sessions *)

Section SessionVocabulary.

(** The uniqueness constraint of the index on the e-mail. *)
Definition uniqueEmails (us : gmap string User) : Prop :=
  forall id1 id2 u1 u2,
    us !! id1 = Some u1 -> us !! id2 = Some u2 ->
    email u1 = email u2 -> id1 = id2.

Definition refreshTokensOf (id : string) (db : Db) : option (list string) :=
  refreshTokens <$> users db !! id.

(** Example stand-ins for the opaque collaborators: the hash prefixes the
    password, as [exampleCompare] expects; a refresh token is valid when
    it is "refresh." followed by the id of its user, here [u1]. *)
Definition exampleHash (plain salt : string) : string :=
  ("$2a$12$" ++ plain)%string.

Definition exampleVerify (token : string) (t : TokenType)
    : option JWTPayload :=
  match t with
  | REFRESH =>
      if String.eqb token "refresh.u1"
      then Some (mkJWTPayload "u1" "ana@example.com" FREELANCER)
      else None
  | ACCESS => None
  end.

(** Tokens that differ from one issue to the next. *)
Definition exampleFreshTokens (id mail : string) (r : UserRole)
    : string * string :=
  (("access2." ++ id)%string, ("refresh2." ++ id)%string).

Definition sessionDb (tokens : list string) : Db :=
  {| users := {[ "u1" := AuthSessions.setRefreshTokens tokens
                           (exampleUser defaultGamification) ]};
     jobs := ∅; applications := ∅; activityEvents := [];
     achievementCatalog := [] |}.

Definition exampleRegistration : AuthSessions.RegisterInput :=
  AuthSessions.mkRegisterInput "bea@example.com" "s3cret-pass" "Bea" "Ruiz"
    CLIENT.

Definition examplePasswordChange : AuthSessions.ChangePasswordInput :=
  AuthSessions.mkChangePasswordInput "hash" "another-pass".

(** The operations of the authentication service that write users, and
    their dispatch. *)
Inductive SessionOp : Type :=
| SOpRegister (data : AuthSessions.RegisterInput) (newId salt : string)
| SOpLogin (data : AuthService.LoginInput) (now : Z)
| SOpLogout (userId refreshToken : string)
| SOpRefresh (refreshToken : string)
| SOpChangePassword (userId : string)
    (data : AuthSessions.ChangePasswordInput) (salt : string).

Section Dispatch.

Variable bcrypt_compare : string -> string -> bool.
Variable bcrypt_hash : string -> string -> string.
Variable generateTokens : string -> string -> UserRole -> string * string.
Variable verifyToken : string -> TokenType -> option JWTPayload.

Definition runSessionOp (op : SessionOp) (db : Db) : result Db :=
  match op with
  | SOpRegister data newId salt =>
      r <- AuthSessions.register bcrypt_hash generateTokens data newId salt db ;;
      Ok r.2
  | SOpLogin data now =>
      r <- AuthService.login bcrypt_compare generateTokens data now db ;;
      Ok r.2
  | SOpLogout userId refreshToken =>
      AuthSessions.logout userId refreshToken db
  | SOpRefresh refreshToken =>
      r <- AuthSessions.refreshAccessToken generateTokens verifyToken
             refreshToken db ;;
      Ok r.2
  | SOpChangePassword userId data salt =>
      AuthSessions.changePassword bcrypt_compare bcrypt_hash userId data
        salt db
  end.

End Dispatch.

End SessionVocabulary.

(** ** Vocabulary of the gamification reads *)

Section GamificationVocabulary.

(** The three streak fields of a gamification state. *)
Definition streakFields (g : Gamification) : Z * Z * option Z :=
  (currentStreak g, longestStreak g, lastActivityDate g).

(** The order of [.sort({ date: -1 })]. *)
Definition newestFirst (e e' : ActivityEvent) : Prop :=
  ev_date e' <= ev_date e.

Definition withPoints (mail : string) (points streak : Z) : User :=
  {| email := mail; password := "$2a$12$hash";
     role := FREELANCER; accountStatus := ACC_ACTIVE;
     gamification :=
       {| currentStreak := streak; longestStreak := streak;
          lastActivityDate := Some 0; totalPoints := points; level := 1;
          achievements := [] |};
     stats := {| jobsPosted := 0; jobsCompleted := 0 |};
     refreshTokens := []; lastLoginAt := None |}.

(** Example data: three users with 40, 250 and 120 points. *)
Definition boardDb : Db :=
  {| users := {[ "u1" := withPoints "ana@example.com" 40 1;
                 "u2" := withPoints "bea@example.com" 250 7;
                 "u3" := withPoints "cruz@example.com" 120 3 ]};
     jobs := ∅; applications := ∅; activityEvents := [];
     achievementCatalog := [] |}.

(** Example data: a ledger with two events of [u1] and one of another
    user. *)
Definition ledgerDb : Db :=
  setActivityEvents
    [mkActivityEvent "u1" LOGIN 5 None 1000;
     mkActivityEvent "u2" JOB_POSTED 10 None 2000;
     mkActivityEvent "u1" JOB_COMPLETED 50 None 3000]
    (exampleDb (mkGamification 1 1 (Some 3000) 55 1 [])
       [firstStep; centurion]).

End GamificationVocabulary.

(** * Properties *)

(** ** The streak calculator *)

Section Streak.
Import GamificationService.

Lemma getDaysDifference_nonneg (d1 d2 : Z) : 0 <= getDaysDifference d1 d2.
Proof. unfold getDaysDifference. apply Z.div_pos; lia. Qed.

Lemma getDaysDifference_ms (d1 d2 : Z) :
  getDaysDifference d1 d2 = Z.abs (d2 - d1) / 86400000.
Proof. reflexivity. Qed.

(** What [updateStreak] writes, branch by branch. *)
Lemma updateStreak_first (now : Z) (user : User) :
  lastActivityDate (gamification user) = None ->
  gamification (updateStreak now user)
  = setStreak 1 1 (Some now) (gamification user).
Proof. intros H. unfold updateStreak. rewrite H. reflexivity. Qed.

Lemma updateStreak_same_day (now last : Z) (user : User) :
  lastActivityDate (gamification user) = Some last ->
  getDaysDifference last now = 0 ->
  updateStreak now user = user.
Proof. intros H Hd. unfold updateStreak. rewrite H. simpl. rewrite Hd. reflexivity. Qed.

Lemma updateStreak_next_day (now last : Z) (user : User) :
  lastActivityDate (gamification user) = Some last ->
  getDaysDifference last now = 1 ->
  gamification (updateStreak now user)
  = setStreak (currentStreak (gamification user) + 1)
      (Z.max (longestStreak (gamification user))
             (currentStreak (gamification user) + 1))
      (Some now) (gamification user).
Proof.
  intros H Hd. unfold updateStreak. rewrite H. simpl. rewrite Hd. simpl.
  destruct (Z.ltb_spec (longestStreak (gamification user))
              (currentStreak (gamification user) + 1)) as [Hlt|Hge].
  - rewrite Z.max_r by lia. reflexivity.
  - rewrite Z.max_l by lia. reflexivity.
Qed.

Lemma updateStreak_broken (now last : Z) (user : User) :
  lastActivityDate (gamification user) = Some last ->
  2 <= getDaysDifference last now ->
  gamification (updateStreak now user)
  = setStreak 1 (longestStreak (gamification user)) (Some now)
      (gamification user).
Proof.
  intros H Hd. unfold updateStreak. rewrite H. simpl.
  destruct (Z.eqb_spec (getDaysDifference last now) 0) as [E|_]; [lia|].
  destruct (Z.eqb_spec (getDaysDifference last now) 1) as [E|_]; [lia|].
  reflexivity.
Qed.

(** [updateStreak] touches the three streak fields only. *)
Lemma updateStreak_frame (now : Z) (user : User) :
  let user' := updateStreak now user in
  totalPoints (gamification user') = totalPoints (gamification user) /\
  level (gamification user') = level (gamification user) /\
  achievements (gamification user') = achievements (gamification user) /\
  stats user' = stats user.
Proof.
  unfold updateStreak.
  destruct (lastActivityDate (gamification user)) as [last|]; simpl; [|tauto].
  destruct (getDaysDifference last now =? 0); [tauto|].
  destruct (getDaysDifference last now =? 1); simpl; tauto.
Qed.

End Streak.

(** ** The achievement evaluator: what a pass leaves alone *)

Section EvaluatorFrame.
Import GamificationService.

Lemma sameButAchievements_refl (u : User) : sameButAchievements u u.
Proof. unfold sameButAchievements. tauto. Qed.

Lemma sameButAchievements_trans (u v w : User) :
  sameButAchievements u v -> sameButAchievements v w ->
  sameButAchievements u w.
Proof.
  unfold sameButAchievements.
  intros (a1 & a2 & a3 & a4 & a5) (b1 & b2 & b3 & b4 & b5).
  repeat split; congruence.
Qed.

Lemma checkAchievement_frame (u : User) (a : Achievement) :
  sameButAchievements u (checkAchievement u a).
Proof.
  unfold checkAchievement.
  destruct (includes _ _); [apply sameButAchievements_refl|].
  destruct (achieved u a); [|apply sameButAchievements_refl].
  unfold sameButAchievements. simpl. tauto.
Qed.

Lemma evaluate_frame (achs : list Achievement) (u : User) :
  sameButAchievements u (evaluate achs u).
Proof.
  revert u. induction achs as [|a achs IH]; intros u; simpl.
  - apply sameButAchievements_refl.
  - eapply sameButAchievements_trans; [apply checkAchievement_frame|].
    apply IH.
Qed.

Lemma checkAchievements_frame (catalog : list Achievement) (u : User) :
  sameButAchievements u (checkAchievements catalog u).
Proof. apply evaluate_frame. Qed.

End EvaluatorFrame.

(** ** The orchestrator: [recordActivity] step by step *)

Section RecordActivity.
Import GamificationService.

Lemma getPointsForActivity_known (type : string) :
  type ∈ ActivityType_values ->
  exists p, assoc type specPointsTable = Some p /\
            getPointsForActivity type = JNum p /\ 0 < p.
Proof.
  intros H. unfold ActivityType_values in H.
  repeat (apply elem_of_cons in H as [->|H]);
    try (eexists; split; [|split]; [reflexivity | reflexivity | lia]).
  apply elem_of_nil in H. destruct H.
Qed.

(** A type the ledger accepts never yields a non-number: the addition of
    [recordActivity] after a successful [create] is numeric. *)
Lemma ActivityEvent_create_Ok_inv userId type points md date ledger ledger' :
  ActivityEvent_create userId type points md date ledger = Ok ledger' ->
  type ∈ ActivityType_values /\
  exists p, points = JNum p /\ 0 <= p /\
            ledger' = (ledger ++ [mkActivityEvent userId type p md date])%list.
Proof.
  unfold ActivityEvent_create. case_bool_decide as Hin; [|discriminate].
  destruct points as [p|name]; [|discriminate].
  destruct (Z.leb_spec 0 p); [|discriminate].
  intros [= <-]. split; [exact Hin|]. exists p. auto.
Qed.

Lemma recordActivity_Ok_inv userId type md date now db db' :
  recordActivity userId type md date now db = Ok db' ->
  exists user p,
    users db !! userId = Some user /\
    type ∈ ActivityType_values /\
    getPointsForActivity type = JNum p /\ 0 <= p /\
    db' = setUsers
            (<[userId := applyActivity p now (achievementCatalog db) user]>
               (users db))
            (setActivityEvents
               (activityEvents db ++ [mkActivityEvent userId type p md date])%list
               db).
Proof.
  unfold recordActivity. destruct (users db !! userId) as [user|]; [|discriminate].
  destruct (ActivityEvent_create _ _ _ _ _ _) as [ledger|e] eqn:Hc; [|discriminate].
  apply ActivityEvent_create_Ok_inv in Hc as (Hin & p & Hp & Hp0 & ->).
  simpl. rewrite Hp. simpl. intros [= <-].
  exists user, p. auto.
Qed.

(** [recordActivity] succeeds for an existing user and a known type. *)
Lemma recordActivity_Ok userId type md date now db user :
  users db !! userId = Some user ->
  type ∈ ActivityType_values ->
  exists db', recordActivity userId type md date now db = Ok db'.
Proof.
  intros Hu Hin. unfold recordActivity. rewrite Hu.
  destruct (getPointsForActivity_known type Hin) as (p & _ & Hp & Hpos).
  rewrite Hp. unfold ActivityEvent_create.
  rewrite bool_decide_eq_true_2 by exact Hin.
  destruct (Z.leb_spec 0 p); [|lia]. simpl. eauto.
Qed.

Lemma recordActivity_user userId type md date now db db' :
  recordActivity userId type md date now db = Ok db' ->
  exists user p,
    users db !! userId = Some user /\
    getPointsForActivity type = JNum p /\ 0 <= p /\
    users db' !! userId
    = Some (applyActivity p now (achievementCatalog db) user).
Proof.
  intros H. apply recordActivity_Ok_inv in H as (user & p & Hu & _ & Hp & Hp0 & ->).
  exists user, p. repeat split; try assumption.
  simpl. apply lookup_insert_eq.
Qed.

(** The streak fields after [applyActivity] are those [updateStreak]
    computes from the streak fields before. *)
Lemma applyActivity_streak (p now : Z) catalog (user : User) :
  let g' := gamification (applyActivity p now catalog user) in
  let g1 := gamification (updateStreak now user) in
  currentStreak g' = currentStreak g1 /\
  longestStreak g' = longestStreak g1 /\
  lastActivityDate g' = lastActivityDate g1.
Proof.
  unfold applyActivity.
  destruct (checkAchievements_frame catalog
              (updateStreak now
                 (setGamification
                    (setTotalPoints (totalPoints (gamification user) + p)
                       (gamification user)) user)))
    as (-> & -> & -> & _).
  unfold updateStreak. simpl.
  destruct (lastActivityDate (gamification user)) as [last|]; simpl; [|tauto].
  destruct (getDaysDifference last now =? 0); simpl; [tauto|].
  destruct (getDaysDifference last now =? 1); simpl; tauto.
Qed.

End RecordActivity.

(** ** Streak update through [recordActivity] *)

Section StreakClaims.
Import GamificationService.

(** C1. For an existing user and a known activity type, [recordActivity]
    succeeds and the streak fields of the stored user follow the case
    analysis of the specification: first activity gives 1, 1, now;
    otherwise, with daysSince = floor(|now - lastActivityDate| / 86400000),
    daysSince = 0 changes none of the three fields, daysSince = 1 gives
    currentStreak + 1, max(longestStreak, currentStreak + 1), now, and
    daysSince >= 2 gives 1, longestStreak unchanged, now. *)
Theorem recordActivity_streak_cases
    (userId type : string) (md : option string) (date now : Z)
    (db : Db) (user : User) :
  users db !! userId = Some user ->
  type ∈ ActivityType_values ->
  exists db' user',
    recordActivity userId type md date now db = Ok db' /\
    users db' !! userId = Some user' /\
    let g := gamification user in
    let g' := gamification user' in
    match lastActivityDate g with
    | None =>
        currentStreak g' = 1 /\ longestStreak g' = 1 /\
        lastActivityDate g' = Some now
    | Some last =>
        let daysSince := Z.abs (now - last) / 86400000 in
        0 <= daysSince /\
        (daysSince = 0 ->
         currentStreak g' = currentStreak g /\
         longestStreak g' = longestStreak g /\
         lastActivityDate g' = Some last) /\
        (daysSince = 1 ->
         currentStreak g' = currentStreak g + 1 /\
         longestStreak g' = Z.max (longestStreak g) (currentStreak g + 1) /\
         lastActivityDate g' = Some now) /\
        (2 <= daysSince ->
         currentStreak g' = 1 /\
         longestStreak g' = longestStreak g /\
         lastActivityDate g' = Some now)
    end.
Proof.
  intros Hu Hin.
  destruct (recordActivity_Ok userId type md date now db user Hu Hin)
    as [db' Hrec].
  destruct (recordActivity_user _ _ _ _ _ _ _ Hrec)
    as (user0 & p & Hu0 & _ & _ & Hu').
  assert (user0 = user) as -> by congruence.
  exists db', (applyActivity p now (achievementCatalog db) user).
  split; [exact Hrec|]. split; [exact Hu'|].
  cbv zeta.
  destruct (applyActivity_streak p now (achievementCatalog db) user)
    as (-> & -> & ->).
  destruct (lastActivityDate (gamification user)) as [last|] eqn:Hlast.
  - rewrite <- getDaysDifference_ms.
    split; [apply getDaysDifference_nonneg|].
    split; [|split]; intros Hd.
    + rewrite (updateStreak_same_day now last user Hlast Hd). auto.
    + rewrite (updateStreak_next_day now last user Hlast Hd). auto.
    + rewrite (updateStreak_broken now last user Hlast Hd). auto.
  - rewrite (updateStreak_first now user Hlast). auto.
Qed.

(** A user on a three-day streak who is active again one day and one
    hour later. *)
Lemma recordActivity_streak_cases_witness :
  exists db' user',
    recordActivity "u1" JOB_POSTED None (day + 3600000) (day + 3600001)
      (exampleDb (mkGamification 3 3 (Some 0) 40 1 []) []) = Ok db' /\
    users db' !! "u1" = Some user' /\
    currentStreak (gamification user') = 4 /\
    longestStreak (gamification user') = 4 /\
    lastActivityDate (gamification user') = Some (day + 3600001).
Proof.
  destruct (recordActivity_streak_cases "u1" JOB_POSTED None
              (day + 3600000) (day + 3600001)
              (exampleDb (mkGamification 3 3 (Some 0) 40 1 []) [])
              (exampleUser (mkGamification 3 3 (Some 0) 40 1 [])))
    as (db' & user' & Hrec & Hu' & Hcases).
  - reflexivity.
  - apply (bool_decide_unpack _). vm_compute. exact I.
  - exists db', user'. split; [exact Hrec|]. split; [exact Hu'|].
    simpl in Hcases. destruct Hcases as (_ & _ & Hnext & _).
    apply Hnext. reflexivity.
Defined.

(** The two conjuncts of the streak invariant are preserved together. *)
Lemma updateStreak_invariant (now : Z) (user : User) :
  streakOrdered (gamification user) ->
  streakStarted (gamification user) ->
  streakOrdered (gamification (updateStreak now user)) /\
  streakStarted (gamification (updateStreak now user)) /\
  is_Some (lastActivityDate (gamification (updateStreak now user))).
Proof.
  unfold streakOrdered, streakStarted. intros Hord Hstart.
  destruct (lastActivityDate (gamification user)) as [last|] eqn:Hlast.
  - assert (1 <= longestStreak (gamification user)) as H1 by (apply Hstart; eauto).
    destruct (Z.eq_dec (getDaysDifference last now) 0) as [H0|H0].
    { rewrite (updateStreak_same_day now last user Hlast H0).
      rewrite Hlast. eauto. }
    destruct (Z.eq_dec (getDaysDifference last now) 1) as [E1|E1].
    { rewrite (updateStreak_next_day now last user Hlast E1). simpl.
      repeat split; [lia | intros _; lia | eauto]. }
    pose proof (getDaysDifference_nonneg last now).
    rewrite (updateStreak_broken now last user Hlast) by lia. simpl.
    repeat split; [lia | intros _; lia | eauto].
  - rewrite (updateStreak_first now user Hlast). simpl.
    repeat split; [lia | intros _; lia | eauto].
Qed.

Lemma streakInvariant_default :
  streakOrdered defaultGamification /\ streakStarted defaultGamification.
Proof.
  split; [unfold streakOrdered; simpl; lia|].
  intros [x Hx]. discriminate Hx.
Qed.

(** C2, as stated, fails: a stored state with both counters at 0 and a
    last activity more than two days old satisfies
    longestStreak >= currentStreak, and the reset branch then writes
    currentStreak = 1 next to longestStreak = 0. *)
Lemma recordActivity_streak_order_counterexample :
  let g := mkGamification 0 0 (Some 0) 0 1 [] in
  longestStreak g >= currentStreak g /\
  exists db' user',
    recordActivity "u1" LOGIN None (3 * day) (3 * day) (exampleDb g [])
    = Ok db' /\
    users db' !! "u1" = Some user' /\
    ~ longestStreak (gamification user') >= currentStreak (gamification user').
Proof.
  split; [simpl; lia|].
  eexists. eexists. split; [vm_compute; reflexivity|].
  split; [vm_compute; reflexivity|]. simpl. lia.
Qed.

(** C2, amended. When longestStreak >= currentStreak holds and
    longestStreak >= 1 whenever a last activity date is stored (both hold
    of a new user), every successful [recordActivity] establishes both
    again, so longestStreak >= currentStreak holds in every state the
    orchestrator reaches from a new user. *)
Theorem recordActivity_streak_invariant
    (userId type : string) (md : option string) (date now : Z)
    (db db' : Db) (user : User) :
  users db !! userId = Some user ->
  longestStreak (gamification user) >= currentStreak (gamification user) ->
  (is_Some (lastActivityDate (gamification user)) ->
   longestStreak (gamification user) >= 1) ->
  recordActivity userId type md date now db = Ok db' ->
  exists user',
    users db' !! userId = Some user' /\
    longestStreak (gamification user') >= currentStreak (gamification user') /\
    longestStreak (gamification user') >= 1 /\
    is_Some (lastActivityDate (gamification user')).
Proof.
  intros Hu Hord Hstart Hrec.
  destruct (recordActivity_user _ _ _ _ _ _ _ Hrec)
    as (user0 & p & Hu0 & _ & _ & Hu').
  assert (user0 = user) as -> by congruence.
  exists (applyActivity p now (achievementCatalog db) user).
  split; [exact Hu'|].
  destruct (applyActivity_streak p now (achievementCatalog db) user)
    as (-> & -> & ->).
  destruct (updateStreak_invariant now user) as (H1 & H2 & H3).
  - unfold streakOrdered. lia.
  - intros Hs. specialize (Hstart Hs). lia.
  - unfold streakOrdered in H1. specialize (H2 H3).
    repeat split; [lia | lia | exact H3].
Qed.

Lemma recordActivity_streak_invariant_witness :
  exists user',
    users (setUsers
             {[ "u1" := exampleUser (mkGamification 1 3 (Some (4 * day)) 45 1 []) ]}
             (setActivityEvents
                [mkActivityEvent "u1" LOGIN 5 None (4 * day)]
                (exampleDb (mkGamification 3 3 (Some 0) 40 1 []) [])))
      !! "u1" = Some user' /\
    longestStreak (gamification user') >= currentStreak (gamification user') /\
    longestStreak (gamification user') >= 1 /\
    is_Some (lastActivityDate (gamification user')).
Proof.
  apply (recordActivity_streak_invariant "u1" LOGIN None (4 * day) (4 * day)
           (exampleDb (mkGamification 3 3 (Some 0) 40 1 []) [])
           _ (exampleUser (mkGamification 3 3 (Some 0) 40 1 []))).
  - reflexivity.
  - simpl. lia.
  - intros _. simpl. lia.
  - vm_compute. reflexivity.
Defined.

End StreakClaims.

(** ** The activity ledger and the points table *)

Section LedgerClaims.
Import GamificationService.

(** Case analysis on the next comparison of [s] with a string literal. *)
Ltac case_eqb s :=
  match goal with
  | |- context [String.eqb s ?k] =>
      destruct (String.eqb_spec s k) as [->|_]
  end.

Lemma assoc_specPointsTable_known (type : string) (p : Z) :
  assoc type specPointsTable = Some p ->
  type ∈ ActivityType_values /\ getPointsForActivity type = JNum p.
Proof.
  unfold specPointsTable, ActivityType_values. simpl.
  repeat (case_eqb type;
          [intros [= <-]; split; [compute_done | reflexivity]|]).
  discriminate.
Qed.

Lemma getPointsForActivity_unknown (type : string) :
  type ∉ ActivityType_values ->
  type ∉ objectPrototypeKeys ->
  getPointsForActivity type = JNum 0.
Proof.
  intros Hun Hproto. unfold getPointsForActivity, pointsMap_get.
  assert (assoc type pointsMap = None) as ->.
  { unfold pointsMap. simpl.
    repeat (case_eqb type; [exfalso; apply Hun; compute_done|]).
    reflexivity. }
  rewrite bool_decide_eq_false_2 by exact Hproto. reflexivity.
Qed.

(** An unknown type that names a member of [Object.prototype] does not
    even get 0 points. *)
Lemma getPointsForActivity_inherited :
  getPointsForActivity "toString" = JInherited "toString".
Proof. reflexivity. Qed.

Lemma recordActivity_unknown_type userId type md date now db user :
  users db !! userId = Some user ->
  type ∉ ActivityType_values ->
  recordActivity userId type md date now db
  = Err (MongooseValidationError "type").
Proof.
  intros Hu Hun. unfold recordActivity, ActivityEvent_create. rewrite Hu.
  rewrite bool_decide_eq_false_2 by exact Hun. reflexivity.
Qed.

(** C8, as stated, fails: for a type outside the table
    [getPointsForActivity] does answer 0, but the ledger's schema
    restricts [type] to the six known values, so the event is rejected
    and [recordActivity] stores nothing. *)
Lemma recordActivity_unknown_type_counterexample :
  getPointsForActivity "daily_bonus" = JNum 0 /\
  recordActivity "u1" "daily_bonus" None 1000 1000
    (exampleDb defaultGamification [])
  = Err (MongooseValidationError "type").
Proof. split; reflexivity. Qed.

(** C8, amended. [getPointsForActivity] maps every known type to its
    fixed value and every other type that is not a property name
    inherited from Object.prototype to 0; [recordActivity] appends the
    event with these points for a known type, and for a type outside
    the table it is rejected by the validation of the ledger entry:
    no event is appended and no user is updated. *)
Theorem recordActivity_points_table :
  (forall type p,
     assoc type specPointsTable = Some p ->
     getPointsForActivity type = JNum p) /\
  (forall type,
     assoc type specPointsTable = None ->
     type ∉ objectPrototypeKeys ->
     getPointsForActivity type = JNum 0) /\
  (forall userId type md date now db user p,
     users db !! userId = Some user ->
     assoc type specPointsTable = Some p ->
     exists db',
       recordActivity userId type md date now db = Ok db' /\
       activityEvents db'
       = (activityEvents db ++ [mkActivityEvent userId type p md date])%list) /\
  (forall userId type md date now db user,
     users db !! userId = Some user ->
     assoc type specPointsTable = None ->
     recordActivity userId type md date now db
     = Err (MongooseValidationError "type")).
Proof.
  assert (Hnone : forall type, assoc type specPointsTable = None ->
                               type ∉ ActivityType_values).
  { intros type Hn Hin.
    destruct (getPointsForActivity_known type Hin) as (p & Hp & _).
    congruence. }
  split; [|split; [|split]].
  - intros type p H. apply assoc_specPointsTable_known in H. tauto.
  - intros type Hn Hproto. apply getPointsForActivity_unknown; auto.
  - intros userId type md date now db user p Hu Hp.
    apply assoc_specPointsTable_known in Hp as (Hin & Hpts).
    destruct (recordActivity_Ok userId type md date now db user Hu Hin)
      as [db' Hrec].
    exists db'. split; [exact Hrec|].
    apply recordActivity_Ok_inv in Hrec
      as (user0 & p0 & _ & _ & Hp0 & _ & ->).
    simpl. congruence.
  - intros userId type md date now db user Hu Hn.
    eapply recordActivity_unknown_type; eauto.
Qed.

Lemma recordActivity_points_table_witness :
  getPointsForActivity JOB_COMPLETED = JNum 50 /\
  getPointsForActivity "daily_bonus" = JNum 0 /\
  (exists db',
     recordActivity "u1" APPLICATION_SENT None 1000 1001
       (exampleDb defaultGamification []) = Ok db' /\
     activityEvents db'
     = [mkActivityEvent "u1" APPLICATION_SENT 15 None 1000]) /\
  recordActivity "u1" "daily_bonus" None 1000 1001
    (exampleDb defaultGamification [])
  = Err (MongooseValidationError "type").
Proof.
  destruct recordActivity_points_table as (Hknown & Hzero & Happend & Hreject).
  split; [|split; [|split]].
  - apply Hknown. reflexivity.
  - apply Hzero; [reflexivity|]. apply (bool_decide_unpack _). vm_compute. exact I.
  - apply (Happend "u1" APPLICATION_SENT None 1000 1001
             (exampleDb defaultGamification [])
             (exampleUser defaultGamification) 15); reflexivity.
  - apply (Hreject "u1" "daily_bonus" None 1000 1001
             (exampleDb defaultGamification [])
             (exampleUser defaultGamification)); reflexivity.
Defined.

End LedgerClaims.

(** ** The level *)

Section LevelClaims.
Import GamificationService.

(** The stats read derives the level from the points. *)
Lemma getUserGamificationStats_level userId db st :
  getUserGamificationStats userId db = Ok st ->
  gs_level st = gs_totalPoints st / 100 + 1.
Proof.
  unfold getUserGamificationStats.
  destruct (users db !! userId); [|discriminate].
  intros [= <-]. reflexivity.
Qed.

(** No step of [recordActivity] writes [gamification.level]. *)
Lemma applyActivity_level (p now : Z) catalog (user : User) :
  level (gamification (applyActivity p now catalog user))
  = level (gamification user).
Proof.
  unfold applyActivity.
  destruct (checkAchievements_frame catalog
              (updateStreak now
                 (setGamification
                    (setTotalPoints (totalPoints (gamification user) + p)
                       (gamification user)) user)))
    as (_ & _ & _ & -> & _).
  destruct (updateStreak_frame now
              (setGamification
                 (setTotalPoints (totalPoints (gamification user) + p)
                    (gamification user)) user))
    as (_ & -> & _).
  reflexivity.
Qed.

Lemma recordActivity_level_unchanged userId type md date now db db' :
  recordActivity userId type md date now db = Ok db' ->
  level <$> (gamification <$> users db' !! userId)
  = level <$> (gamification <$> users db !! userId).
Proof.
  intros H. apply recordActivity_user in H as (user & p & -> & _ & _ & ->).
  simpl. f_equal. apply applyActivity_level.
Qed.

(** C7. The scenario of the specification on a new user: two
    [job_completed] activities one day apart bring [totalPoints] to 100
    and the streak to 2; the stats read reports level 2, while the stored
    [gamification.level] is still its default 1. *)
Theorem recordActivity_stored_level_stale :
  exists db1 db2 user2 st,
    recordActivity "u1" JOB_COMPLETED None 0 0
      (exampleDb defaultGamification []) = Ok db1 /\
    recordActivity "u1" JOB_COMPLETED None day day db1 = Ok db2 /\
    users db2 !! "u1" = Some user2 /\
    totalPoints (gamification user2) = 100 /\
    currentStreak (gamification user2) = 2 /\
    calculateLevel (totalPoints (gamification user2)) = 2 /\
    level (gamification user2) = 1 /\
    getUserGamificationStats "u1" db2 = Ok st /\
    gs_level st = 2.
Proof.
  do 4 eexists.
  split; [vm_compute; reflexivity|].
  split; [vm_compute; reflexivity|].
  split; [vm_compute; reflexivity|].
  split; [reflexivity|]. split; [reflexivity|]. split; [reflexivity|].
  split; [reflexivity|].
  split; [vm_compute; reflexivity|]. reflexivity.
Qed.

End LevelClaims.

(** ** The achievement evaluator: what a pass unlocks *)

Section Evaluator.
Import GamificationService.

Lemma setGamification_id (u : User) : setGamification (gamification u) u = u.
Proof. destruct u. reflexivity. Qed.

Lemma includes_true (l : list string) (id : string) :
  includes l id = true <-> id ∈ l.
Proof. unfold includes. apply bool_decide_eq_true. Qed.

Lemma includes_false (l : list string) (id : string) :
  includes l id = false <-> id ∉ l.
Proof. unfold includes. apply bool_decide_eq_false. Qed.

(** The two outcomes of one iteration. *)
Lemma checkAchievement_cases (u : User) (a : Achievement) :
  checkAchievement u a = u \/
  ((ach_id a ∉ achievements (gamification u)) /\ achieved u a = true /\
   checkAchievement u a = setGamification (grant a (gamification u)) u).
Proof.
  unfold checkAchievement.
  destruct (includes _ _) eqn:Hinc; [left; reflexivity|].
  destruct (achieved u a) eqn:Hach; [|left; reflexivity].
  right. apply includes_false in Hinc. auto.
Qed.

Lemma grantAll_achievements (l : list Achievement) (g : Gamification) :
  achievements (grantAll l g) = (achievements g ++ map ach_id l)%list.
Proof.
  revert g. induction l as [|a l IH]; intros g; simpl.
  - symmetry. apply app_nil_r.
  - unfold grantAll in *. rewrite IH. simpl. rewrite <- app_assoc. reflexivity.
Qed.

Lemma grantAll_totalPoints (l : list Achievement) (g : Gamification) :
  totalPoints (grantAll l g) = totalPoints g + sumPoints l.
Proof.
  revert g. induction l as [|a l IH]; intros g; simpl.
  - lia.
  - unfold grantAll in *. rewrite IH. simpl. lia.
Qed.

(** A pass is a sequence of unlocks: the achievements it grants are
    distinct, none was held before, and each satisfies any property [P]
    that holds of whatever can be granted from a state the pass may
    reach. *)
Lemma evaluate_unlocked (P : Achievement -> Prop) (achs : list Achievement)
    (u : User) :
  (forall a u',
     a ∈ achs -> sameButAchievements u u' ->
     achievements (gamification u) ⊆ achievements (gamification u') ->
     ach_id a ∉ achievements (gamification u') ->
     achieved u' a = true -> P a) ->
  exists unlocked,
    evaluate achs u = setGamification (grantAll unlocked (gamification u)) u /\
    Forall (fun a => a ∈ achs /\ P a /\
                     ach_id a ∉ achievements (gamification u)) unlocked /\
    NoDup (map ach_id unlocked).
Proof.
  revert u. induction achs as [|a achs IH]; intros u HP.
  - exists []. simpl. rewrite setGamification_id.
    split; [reflexivity|]. split; constructor.
  - simpl. destruct (checkAchievement_cases u a) as [->|(Hnew & Hach & ->)].
    + destruct (IH u) as (unlocked & Hev & Hall & Hnd).
      { intros a' u' Hin. apply HP. right. exact Hin. }
      exists unlocked. split; [exact Hev|]. split; [|exact Hnd].
      eapply Forall_impl; [exact Hall|]. simpl.
      intros a' (Hin & HPa & Hno). split; [right; exact Hin|auto].
    + set (u1 := setGamification (grant a (gamification u)) u).
      assert (Hsame : sameButAchievements u u1)
        by (unfold sameButAchievements; simpl; tauto).
      assert (Hsub : achievements (gamification u)
                     ⊆ achievements (gamification u1)).
      { simpl. intros x Hx. apply elem_of_app. left. exact Hx. }
      destruct (IH u1) as (unlocked & Hev & Hall & Hnd).
      { intros a' u' Hin Hs Hsub' Hno Hach'.
        apply (HP a' u'); try assumption.
        - right. exact Hin.
        - etransitivity; eassumption. }
      exists (a :: unlocked). split; [|split].
      * rewrite Hev. destruct u. reflexivity.
      * constructor.
        -- split; [left|]. split; [|exact Hnew].
           apply (HP a u); try assumption; [left|reflexivity].
        -- eapply Forall_impl; [exact Hall|]. simpl.
           intros a' (Hin & HPa & Hno). split; [right; exact Hin|].
           split; [exact HPa|]. intros Hx. apply Hno.
           apply elem_of_app. left. exact Hx.
      * simpl. constructor; [|exact Hnd].
        intros Hx. apply list_elem_of_fmap in Hx as (a' & Heq & Hin').
        rewrite Forall_forall in Hall.
        destruct (Hall a' Hin') as (_ & _ & Hno). apply Hno.
        simpl. apply elem_of_app. right. rewrite Heq. left.
Qed.

Lemma evaluate_achievements_mono (achs : list Achievement) (u : User) :
  achievements (gamification u)
  ⊆ achievements (gamification (evaluate achs u)).
Proof.
  destruct (evaluate_unlocked (fun _ => True) achs u) as (unl & -> & _); [auto|].
  simpl. rewrite grantAll_achievements. intros x Hx.
  apply elem_of_app. left. exact Hx.
Qed.

(** Criteria other than [total_points] read fields a pass never writes. *)
Lemma achieved_frame (u u' : User) (a : Achievement) :
  sameButAchievements u u' ->
  ~ isTotalPoints a ->
  achieved u' a = achieved u a.
Proof.
  intros (Hc & _ & _ & _ & Hs) Hn. unfold achieved. rewrite Hc, Hs.
  destruct (String.eqb (criteria_type a) "streak_days"); [reflexivity|].
  destruct (String.eqb (criteria_type a) "jobs_completed"); [reflexivity|].
  destruct (String.eqb_spec (criteria_type a) "total_points") as [E|_];
    [contradiction|reflexivity].
Qed.

(** After a pass, an achievement with another criterion than
    [total_points] is held or its criterion is not met. *)
Lemma evaluate_settled (achs : list Achievement) (u : User) (a : Achievement) :
  a ∈ achs -> ~ isTotalPoints a ->
  ach_id a ∈ achievements (gamification (evaluate achs u)) \/
  achieved u a = false.
Proof.
  revert u. induction achs as [|a0 achs IH]; intros u Hin Hn.
  - apply elem_of_nil in Hin. destruct Hin.
  - simpl. apply elem_of_cons in Hin as [->|Hin].
    + unfold checkAchievement.
      destruct (includes _ _) eqn:Hinc.
      { left. apply evaluate_achievements_mono. apply includes_true. exact Hinc. }
      destruct (achieved u a0) eqn:Hach; [|right; reflexivity].
      left. apply evaluate_achievements_mono. simpl.
      apply elem_of_app. right. left.
    + destruct (IH (checkAchievement u a0) Hin Hn) as [H|H]; [left; exact H|].
      right. rewrite <- H. symmetry.
      apply achieved_frame; [apply checkAchievement_frame|exact Hn].
Qed.

Lemma evaluate_app (l1 l2 : list Achievement) (u : User) :
  evaluate (l1 ++ l2) u = evaluate l2 (evaluate l1 u).
Proof. unfold evaluate. apply fold_left_app. Qed.

Lemma sumPoints_nonneg (l : list Achievement) :
  Forall achievementSchemaOk l -> 0 <= sumPoints l.
Proof.
  induction 1 as [|a l [_ Ha] _ IH]; simpl; lia.
Qed.

(** With bonus points that are not negative, a pass never lowers
    [totalPoints]. *)
Lemma evaluate_totalPoints_mono (achs : list Achievement) (u : User) :
  Forall achievementSchemaOk achs ->
  totalPoints (gamification u) <= totalPoints (gamification (evaluate achs u)).
Proof.
  intros Hok.
  destruct (evaluate_unlocked (fun _ => True) achs u) as (unl & -> & Hall & _);
    [auto|].
  simpl. rewrite grantAll_totalPoints.
  assert (0 <= sumPoints unl); [|lia].
  apply sumPoints_nonneg. rewrite Forall_forall in *.
  intros a Ha. apply Hok. apply (Hall a Ha).
Qed.

End Evaluator.

(** ** The validators of [user.save()] *)

Section SaveValidators.
Import GamificationService.

(** What [recordActivity] writes into a user that satisfies the [min]
    validators of the schema satisfies them again, the catalog satisfying
    its own: the validation run by [user.save()] cannot fail, which is
    why [recordActivity] has no failure after the ledger entry is
    written. *)
Lemma applyActivity_schema (p now : Z) (catalog : list Achievement)
    (user : User) :
  gamificationSchemaOk (gamification user) ->
  0 <= p ->
  Forall achievementSchemaOk catalog ->
  gamificationSchemaOk (gamification (applyActivity p now catalog user)).
Proof.
  intros (Hc & Hl & Ht & Hlv) Hp Hcat.
  unfold gamificationSchemaOk.
  rewrite applyActivity_level.
  destruct (applyActivity_streak p now catalog user) as (-> & -> & _).
  assert (Hstreak : 0 <= currentStreak (gamification (updateStreak now user))
                    /\ 0 <= longestStreak (gamification (updateStreak now user))).
  { unfold updateStreak.
    destruct (lastActivityDate (gamification user)) as [last|]; simpl; [|lia].
    destruct (getDaysDifference last now =? 0); [lia|].
    destruct (getDaysDifference last now =? 1); simpl; [|lia].
    destruct (longestStreak (gamification user)
              <? currentStreak (gamification user) + 1); lia. }
  destruct Hstreak as [H1 H2].
  repeat split; try assumption.
  unfold applyActivity, checkAchievements.
  set (u1 := updateStreak now _).
  assert (Hact : Forall achievementSchemaOk (activeAchievements catalog)).
  { rewrite Forall_forall in *. intros a Ha. apply Hcat.
    apply (list_elem_of_filter (fun a => isActive a = true)) in Ha. tauto. }
  pose proof (evaluate_totalPoints_mono _ u1 Hact) as Hmono.
  assert (totalPoints (gamification u1)
          = totalPoints (gamification user) + p) as Hu1.
  { unfold u1.
    destruct (updateStreak_frame now
                (setGamification
                   (setTotalPoints (totalPoints (gamification user) + p)
                      (gamification user)) user)) as (-> & _).
    reflexivity. }
  lia.
Qed.

End SaveValidators.

(** ** Evaluating twice, and live points within one pass *)

Section EvaluatorClaims.
Import GamificationService.

Lemma activeAchievements_elem (catalog : list Achievement) (a : Achievement) :
  a ∈ activeAchievements catalog <-> isActive a = true /\ a ∈ catalog.
Proof.
  unfold activeAchievements.
  apply (list_elem_of_filter (fun a => isActive a = true)).
Qed.

(** C5, as stated, fails: a [total_points] achievement iterated before
    the achievement whose bonus reaches its target is left locked by the
    first pass and unlocked by the second, with no other change to the
    user in between. *)
Lemma checkAchievements_twice_counterexample :
  let u := exampleUser (mkGamification 1 1 (Some 0) 50 1 []) in
  let catalog := [centurion; firstStep] in
  let u1 := checkAchievements catalog u in
  let u2 := checkAchievements catalog u1 in
  achievements (gamification u1) = ["a-first-step"] /\
  totalPoints (gamification u1) = 150 /\
  achievements (gamification u2) = ["a-first-step"; "a-centurion"] /\
  totalPoints (gamification u2) = 160 /\
  u2 <> u1.
Proof.
  cbv zeta. repeat split; try reflexivity. intros H.
  apply (f_equal (fun u => totalPoints (gamification u))) in H.
  vm_compute in H. discriminate H.
Qed.

(** C5, amended. A second pass never appends an id the user already
    holds and never adds its bonus again: what it appends are distinct
    achievements of the active catalog, with criterion [total_points],
    that the first pass left locked, and it adds exactly their bonus
    points. In particular a catalog without [total_points] criteria is
    evaluated idempotently. *)
Theorem checkAchievements_second_pass
    (catalog : list Achievement) (user : User) :
  let u1 := checkAchievements catalog user in
  let u2 := checkAchievements catalog u1 in
  exists unlocked : list Achievement,
    u2 = setGamification (grantAll unlocked (gamification u1)) u1 /\
    achievements (gamification u2)
    = (achievements (gamification u1) ++ map ach_id unlocked)%list /\
    totalPoints (gamification u2)
    = totalPoints (gamification u1) + sumPoints unlocked /\
    NoDup (map ach_id unlocked) /\
    Forall (fun a => a ∈ catalog /\ isActive a = true /\
                     criteria_type a = "total_points" /\
                     ach_id a ∉ achievements (gamification u1)) unlocked /\
    ((forall a, a ∈ catalog -> criteria_type a <> "total_points") ->
     u2 = u1).
Proof.
  cbv zeta. unfold checkAchievements.
  set (achs := activeAchievements catalog).
  set (u1 := evaluate achs user).
  destruct (evaluate_unlocked isTotalPoints achs u1)
    as (unlocked & Hev & Hall & Hnd).
  { intros a u' Hin Hsame Hsub Hno Hach.
    destruct (decide (criteria_type a = "total_points")) as [E|Hn]; [exact E|].
    exfalso.
    destruct (evaluate_settled achs user a Hin Hn) as [Hheld|Hfalse].
    - apply Hno. apply Hsub. exact Hheld.
    - rewrite (achieved_frame user u' a) in Hach; [congruence| |exact Hn].
      eapply sameButAchievements_trans; [apply evaluate_frame|exact Hsame]. }
  assert (Hall' : Forall (fun a => a ∈ catalog /\ isActive a = true /\
                            criteria_type a = "total_points" /\
                            ach_id a ∉ achievements (gamification u1))
                    unlocked).
  { eapply Forall_impl; [exact Hall|]. simpl.
    intros a (Hin & Htp & Hno).
    apply activeAchievements_elem in Hin as [Hact Hin]. auto. }
  exists unlocked. rewrite Hev. simpl.
  split; [reflexivity|]. split; [apply grantAll_achievements|].
  split; [apply grantAll_totalPoints|]. split; [exact Hnd|].
  split; [exact Hall'|].
  intros Hnone. destruct unlocked as [|a unlocked].
  - simpl. apply setGamification_id.
  - exfalso. apply Forall_cons in Hall' as [(Hin & _ & Htp & _) _].
    exact (Hnone a Hin Htp).
Qed.

Lemma checkAchievements_second_pass_witness :
  checkAchievements [firstStep]
    (checkAchievements [firstStep]
       (exampleUser (mkGamification 1 1 (Some 0) 50 1 [])))
  = checkAchievements [firstStep]
      (exampleUser (mkGamification 1 1 (Some 0) 50 1 [])).
Proof.
  destruct (checkAchievements_second_pass [firstStep]
              (exampleUser (mkGamification 1 1 (Some 0) 50 1 [])))
    as (unlocked & _ & _ & _ & _ & _ & Hidem).
  apply Hidem. intros a Ha.
  apply list_elem_of_singleton in Ha. rewrite Ha. discriminate.
Defined.

(** C6. In one pass over the active achievements
    [pre ++ A :: mid ++ B :: post] of a catalog that satisfies its
    schema, if [A] is unlocked when its turn comes and its bonus brings
    [totalPoints] to at least the target of the [total_points]
    achievement [B], which the user does not hold, then [B] is among the
    ids this same pass appends. *)
Theorem checkAchievements_live_points
    (catalog pre mid post : list Achievement) (A B : Achievement)
    (user : User) :
  Forall achievementSchemaOk catalog ->
  activeAchievements catalog = (pre ++ A :: mid ++ B :: post)%list ->
  ach_id A ∉ achievements (gamification (evaluate pre user)) ->
  achieved (evaluate pre user) A = true ->
  criteria_type B = "total_points" ->
  criteria_target B
  <= totalPoints (gamification (evaluate pre user)) + ach_points A ->
  ach_id B ∉ achievements (gamification user) ->
  exists appended,
    achievements (gamification (checkAchievements catalog user))
    = (achievements (gamification user) ++ appended)%list /\
    ach_id B ∈ appended.
Proof.
  intros Hok Hact HnewA HachA HtypeB Htarget HnewB.
  unfold checkAchievements.
  destruct (evaluate_unlocked (fun _ => True) (activeAchievements catalog) user)
    as (unlocked & Hev & _ & _); [auto|].
  exists (map ach_id unlocked).
  assert (Hfinal : achievements
                     (gamification (evaluate (activeAchievements catalog) user))
                   = (achievements (gamification user) ++ map ach_id unlocked)%list).
  { rewrite Hev. simpl. apply grantAll_achievements. }
  split; [exact Hfinal|].
  assert (Hin : ach_id B ∈ achievements
                  (gamification (evaluate (activeAchievements catalog) user))).
  { rewrite Hact.
    rewrite evaluate_app. simpl.
    rewrite evaluate_app. simpl.
    apply evaluate_achievements_mono.
    set (uA := checkAchievement (evaluate pre user) A).
    assert (HuA : totalPoints (gamification uA)
                  = totalPoints (gamification (evaluate pre user)) + ach_points A).
    { unfold uA, checkAchievement.
      apply includes_false in HnewA. rewrite HnewA, HachA. reflexivity. }
    assert (Hmid : Forall achievementSchemaOk mid).
    { rewrite Forall_forall in *. intros a Ha. apply Hok.
      apply (activeAchievements_elem catalog a). rewrite Hact.
      apply elem_of_app. right. right. apply elem_of_app. left. exact Ha. }
    pose proof (evaluate_totalPoints_mono mid uA Hmid) as Hmono.
    unfold checkAchievement.
    destruct (includes _ _) eqn:Hinc; [apply includes_true; exact Hinc|].
    assert (achieved (evaluate mid uA) B = true) as ->.
    { unfold achieved. rewrite HtypeB. simpl. apply Z.leb_le. lia. }
    simpl. apply elem_of_app. right. left. }
  rewrite Hfinal in Hin. apply elem_of_app in Hin as [Hold|Hnew];
    [contradiction|exact Hnew].
Qed.

(** [firstStep] (bonus 100) is iterated before [centurion] (target 100):
    a user with 50 points unlocks both in one pass. *)
Lemma checkAchievements_live_points_witness :
  exists appended,
    achievements
      (gamification
         (checkAchievements [firstStep; centurion]
            (exampleUser (mkGamification 1 1 (Some 0) 50 1 []))))
    = (achievements (mkGamification 1 1 (Some 0) 50 1 []) ++ appended)%list /\
    "a-centurion" ∈ appended.
Proof.
  apply (checkAchievements_live_points [firstStep; centurion] [] [] []
           firstStep centurion
           (exampleUser (mkGamification 1 1 (Some 0) 50 1 []))).
  - repeat constructor; simpl; lia.
  - reflexivity.
  - apply (bool_decide_unpack _). vm_compute. exact I.
  - reflexivity.
  - reflexivity.
  - simpl. lia.
  - apply (bool_decide_unpack _). vm_compute. exact I.
Defined.

End EvaluatorClaims.

(** ** The application lifecycle *)

Section ApplicationClaims.
Import ApplicationService.

Lemma Application_findOne_Some job freelancer apps (d : string * Application) :
  Application_findOne job freelancer apps = Some d ->
  apps !! d.1 = Some d.2 /\ jobId d.2 = job /\ freelancerId d.2 = freelancer.
Proof.
  unfold Application_findOne. intros H. apply find_some in H as [Hin Hp].
  apply list_elem_of_In in Hin. destruct d as [id a].
  apply elem_of_map_to_list in Hin. split; [exact Hin|].
  unfold samePair in Hp. apply andb_true_iff in Hp as [H1 H2].
  apply bool_decide_eq_true in H1, H2. auto.
Qed.

Lemma Application_findOne_None job freelancer apps id a :
  Application_findOne job freelancer apps = None ->
  apps !! id = Some a ->
  ~ (jobId a = job /\ freelancerId a = freelancer).
Proof.
  unfold Application_findOne. intros H Hl [H1 H2].
  pose proof (find_none _ _ H (id, a)) as Hf.
  assert (samePair job freelancer a = false) as Hp.
  { apply Hf. apply list_elem_of_In. apply elem_of_map_to_list. exact Hl. }
  unfold samePair in Hp.
  rewrite !bool_decide_eq_true_2 in Hp by assumption. discriminate Hp.
Qed.

(** An application for the pair is found whenever one is stored. *)
Lemma Application_findOne_exists job freelancer apps id a :
  apps !! id = Some a -> jobId a = job -> freelancerId a = freelancer ->
  exists d, Application_findOne job freelancer apps = Some d.
Proof.
  intros Hl H1 H2.
  destruct (Application_findOne job freelancer apps) as [d|] eqn:Hf; [eauto|].
  exfalso. exact (Application_findOne_None _ _ _ _ _ Hf Hl (conj H1 H2)).
Qed.

Lemma rejectCompetitors_lookup job applicationId t apps id :
  rejectCompetitors job applicationId t apps !! id
  = (fun a => if competitor job applicationId id a
              then respond REJECTED t a else a) <$> apps !! id.
Proof.
  unfold rejectCompetitors. rewrite map_lookup_imap.
  destruct (apps !! id); reflexivity.
Qed.

(** C3. When the caller owns the open job of the pending application A,
    [acceptApplication] succeeds; A is stored accepted with respondedAt
    set; every other application of the same job that was pending is
    stored rejected with respondedAt set; those of the job that were
    accepted, rejected or withdrawn, and the applications of other jobs,
    are stored unchanged; the job itself is not written. *)
Theorem acceptApplication_rejects_competitors
    (applicationId userId : string) (t1 t2 : Z) (db : Db)
    (A : Application) (job : Job) :
  applications db !! applicationId = Some A ->
  jobs db !! jobId A = Some job ->
  clientId job = userId ->
  job_status job = OPEN ->
  app_status A = PENDING ->
  exists A' db',
    acceptApplication applicationId userId t1 t2 db = Ok (A', db') /\
    applications db' !! applicationId = Some A' /\
    app_status A' = ACCEPTED /\ respondedAt A' = Some t1 /\
    (forall id b,
       id <> applicationId -> applications db !! id = Some b ->
       jobId b = jobId A -> app_status b = PENDING ->
       exists b', applications db' !! id = Some b' /\
                  app_status b' = REJECTED /\ respondedAt b' = Some t2) /\
    (forall id b,
       id <> applicationId -> applications db !! id = Some b ->
       jobId b = jobId A ->
       app_status b = ACCEPTED \/ app_status b = REJECTED \/
       app_status b = WITHDRAWN ->
       applications db' !! id = Some b) /\
    (forall id b,
       applications db !! id = Some b -> jobId b <> jobId A ->
       applications db' !! id = Some b) /\
    jobs db' = jobs db.
Proof.
  intros HA Hjob Hown Hopen Hpend.
  unfold acceptApplication. rewrite HA, Hjob.
  rewrite Hown, String.eqb_refl.
  rewrite !bool_decide_eq_true_2 by assumption.
  eexists. eexists. split; [reflexivity|]. simpl.
  split; [|split; [reflexivity|split; [reflexivity|]]].
  - rewrite rejectCompetitors_lookup, lookup_insert_eq. simpl.
    unfold competitor. rewrite String.eqb_refl, andb_false_r. reflexivity.
  - split; [|split; [|split; [|reflexivity]]].
    + intros id b Hne Hb Hsame Hp.
      exists (respond REJECTED t2 b).
      rewrite rejectCompetitors_lookup, lookup_insert_ne, Hb by congruence.
      simpl. unfold competitor.
      rewrite !bool_decide_eq_true_2 by assumption.
      destruct (String.eqb_spec id applicationId); [contradiction|].
      simpl. auto.
    + intros id b Hne Hb Hsame Hst.
      rewrite rejectCompetitors_lookup, lookup_insert_ne, Hb by congruence.
      simpl. unfold competitor.
      rewrite (bool_decide_eq_false_2 (app_status b = PENDING)).
      * rewrite andb_false_r. reflexivity.
      * intros E. rewrite E in Hst. destruct Hst as [?|[?|?]]; discriminate.
    + intros id b Hb Hother.
      assert (id <> applicationId) as Hne by (intros ->; congruence).
      rewrite rejectCompetitors_lookup, lookup_insert_ne, Hb by congruence.
      simpl. unfold competitor.
      rewrite (bool_decide_eq_false_2 (jobId b = jobId A)) by exact Hother.
      reflexivity.
Qed.

Lemma acceptApplication_rejects_competitors_witness :
  exists A' db',
    acceptApplication "a1" "c1" 500 501 (marketDb OPEN) = Ok (A', db') /\
    applications db' !! "a1"
    = Some (exampleApplication "j1" "f1" ACCEPTED (Some 500)) /\
    applications db' !! "a2"
    = Some (exampleApplication "j1" "f2" REJECTED (Some 501)) /\
    applications db' !! "a3"
    = Some (exampleApplication "j1" "f3" WITHDRAWN None) /\
    applications db' !! "a4"
    = Some (exampleApplication "j2" "f2" PENDING None).
Proof.
  destruct (acceptApplication_rejects_competitors "a1" "c1" 500 501
              (marketDb OPEN)
              (exampleApplication "j1" "f1" PENDING None)
              (exampleJob OPEN 3))
    as (A' & db' & Hacc & HA' & _);
    [reflexivity | reflexivity | reflexivity | reflexivity | reflexivity |].
  exists A', db'. split; [exact Hacc|].
  vm_compute in Hacc. injection Hacc as <- <-.
  repeat split; vm_compute; reflexivity.
Defined.

(** Every failure of [createApplication] but the last two precedes the
    uniqueness check. *)
Lemma createApplication_existing_fails
    (freelancer : string) (data : CreateApplicationInput) (newId : string)
    (now : Z) (db : Db) (id : string) (a : Application) :
  applications db !! id = Some a ->
  jobId a = in_jobId data -> freelancerId a = freelancer ->
  exists e, createApplication freelancer data newId now db = Err e.
Proof.
  intros Ha Hj Hf. unfold createApplication.
  destruct (jobs db !! in_jobId data) as [job|]; [|eauto].
  destruct (bool_decide (job_status job = OPEN)); [|eauto].
  destruct (negb (String.eqb (clientId job) freelancer)); [|eauto].
  destruct (Application_findOne_exists _ _ _ _ _ Ha Hj Hf) as [d ->]. eauto.
Qed.

(** With the job present, open and owned by someone else, the uniqueness
    check is reached and answers [ALREADY_APPLIED]. *)
Lemma createApplication_conflict
    (freelancer : string) (data : CreateApplicationInput) (newId : string)
    (now : Z) (db : Db) (id : string) (a : Application) (job : Job) :
  applications db !! id = Some a ->
  jobId a = in_jobId data -> freelancerId a = freelancer ->
  jobs db !! in_jobId data = Some job ->
  job_status job = OPEN -> clientId job <> freelancer ->
  createApplication freelancer data newId now db
  = Err (AppError 409 "ALREADY_APPLIED").
Proof.
  intros Ha Hj Hf Hjob Hopen Hne. unfold createApplication. rewrite Hjob.
  rewrite bool_decide_eq_true_2 by exact Hopen.
  destruct (String.eqb_spec (clientId job) freelancer); [contradiction|].
  simpl.
  destruct (Application_findOne_exists _ _ _ _ _ Ha Hj Hf) as [d ->].
  reflexivity.
Qed.

(** C4, as stated, fails on the kind of the error: the job is looked up
    and its status checked before the uniqueness check, so a second
    application to a job that has meanwhile been assigned is refused
    with status 400, not 409. *)
Lemma createApplication_duplicate_counterexample :
  applications (marketDb IN_PROGRESS) !! "a1"
  = Some (exampleApplication "j1" "f1" PENDING None) /\
  createApplication "f1" (mkCreateApplicationInput "j1" exampleLetter None)
    "a5" 900 (marketDb IN_PROGRESS)
  = Err (AppError 400 "JOB_NOT_OPEN") /\
  isConflict (AppError 400 "JOB_NOT_OPEN") = false.
Proof. repeat split; vm_compute; reflexivity. Qed.

(** C4, amended. When an application for the pair (jobId, freelancerId)
    is stored, in any status, a further [createApplication] for the pair
    fails, so that nothing is stored and no counter is incremented; the
    error is the Conflict [ALREADY_APPLIED] (409) whenever the job still
    exists, is open and is not the caller's own, and is the error of the
    failing earlier check otherwise. *)
Theorem createApplication_duplicate
    (freelancer : string) (data : CreateApplicationInput) (newId : string)
    (now : Z) (db : Db) (id : string) (a : Application) :
  applications db !! id = Some a ->
  jobId a = in_jobId data -> freelancerId a = freelancer ->
  (exists e, createApplication freelancer data newId now db = Err e) /\
  (forall job,
     jobs db !! in_jobId data = Some job ->
     job_status job = OPEN -> clientId job <> freelancer ->
     createApplication freelancer data newId now db
     = Err (AppError 409 "ALREADY_APPLIED") /\
     isConflict (AppError 409 "ALREADY_APPLIED") = true) /\
  (jobs db !! in_jobId data = None ->
   createApplication freelancer data newId now db = Err NotFoundError) /\
  (forall job,
     jobs db !! in_jobId data = Some job -> job_status job <> OPEN ->
     createApplication freelancer data newId now db
     = Err (AppError 400 "JOB_NOT_OPEN")) /\
  (forall job,
     jobs db !! in_jobId data = Some job ->
     job_status job = OPEN -> clientId job = freelancer ->
     createApplication freelancer data newId now db
     = Err (AppError 400 "CANNOT_APPLY_OWN_JOB")).
Proof.
  intros Ha Hj Hf.
  split; [eapply createApplication_existing_fails; eassumption|].
  split; [|unfold createApplication; split; [|split]].
  - intros job Hjob Hopen Hne. split; [|reflexivity].
    eapply createApplication_conflict; eassumption.
  - intros ->. reflexivity.
  - intros job -> Hst. rewrite bool_decide_eq_false_2 by exact Hst. reflexivity.
  - intros job -> Hopen Hown.
    rewrite bool_decide_eq_true_2 by exact Hopen.
    rewrite Hown, String.eqb_refl. reflexivity.
Qed.

Lemma createApplication_duplicate_witness :
  createApplication "f1" (mkCreateApplicationInput "j1" exampleLetter None)
    "a5" 900 (marketDb OPEN)
  = Err (AppError 409 "ALREADY_APPLIED").
Proof.
  destruct (createApplication_duplicate "f1"
              (mkCreateApplicationInput "j1" exampleLetter None) "a5" 900
              (marketDb OPEN) "a1"
              (exampleApplication "j1" "f1" PENDING None))
    as (_ & Hconflict & _); [reflexivity | reflexivity | reflexivity |].
  apply (Hconflict (exampleJob OPEN 3)); [reflexivity|reflexivity|].
  simpl. discriminate.
Defined.

(** The sentence of the specification: of two successive creations for
    the same pair, the second fails with Conflict. *)
Lemma createApplication_twice
    (freelancer : string) (data data' : CreateApplicationInput)
    (newId newId' : string) (now now' : Z) (db db1 : Db) (a : Application) :
  createApplication freelancer data newId now db = Ok (a, db1) ->
  in_jobId data' = in_jobId data ->
  createApplication freelancer data' newId' now' db1
  = Err (AppError 409 "ALREADY_APPLIED").
Proof.
  intros H Hsame. unfold createApplication in H.
  destruct (jobs db !! in_jobId data) as [job|] eqn:Hjob; [|discriminate].
  case_bool_decide as Hopen; [|discriminate].
  destruct (String.eqb_spec (clientId job) freelancer) as [|Hne];
    [discriminate|]. simpl in H.
  destruct (Application_findOne _ _ _); [discriminate|].
  unfold Application_create in H.
  destruct (validCoverLetter _); [|discriminate].
  destruct (validProposedRate _); [|discriminate]. simpl in H.
  destruct (applications db !! newId); [discriminate|].
  destruct (Application_findOne _ _ _); [discriminate|].
  simpl in H. injection H as <- <-.
  eapply (createApplication_conflict freelancer data' newId' now' _ newId
            _ (incApplicationsCount 1 job)).
  - simpl. apply lookup_insert_eq.
  - simpl. congruence.
  - reflexivity.
  - simpl. rewrite Hsame. unfold Job_incApplicationsCount.
    rewrite lookup_alter_eq, Hjob. reflexivity.
  - exact Hopen.
  - exact Hne.
Qed.

(** C10. [deleteApplication] by the applying freelancer succeeds whatever
    the status of the application (only existence and ownership are
    checked), removes it and decrements the [applicationsCount] of its
    job; consequently, for a pending application, withdraw followed by
    delete both succeed and leave the counter 2 below its initial
    value. *)
Theorem deleteApplication_any_status
    (applicationId userId : string) (db : Db) (a : Application) :
  applications db !! applicationId = Some a ->
  freelancerId a = userId ->
  (exists db',
     deleteApplication applicationId userId db = Ok db' /\
     applications db' !! applicationId = None /\
     forall job,
       jobs db !! jobId a = Some job ->
       applicationsCountOf (jobId a) db'
       = Some (applicationsCount (job_stats job) - 1)) /\
  (app_status a = PENDING ->
   exists a1 db1 db2,
     withdrawApplication applicationId userId db = Ok (a1, db1) /\
     app_status a1 = WITHDRAWN /\
     deleteApplication applicationId userId db1 = Ok db2 /\
     applications db2 !! applicationId = None /\
     forall job,
       jobs db !! jobId a = Some job ->
       applicationsCountOf (jobId a) db1
       = Some (applicationsCount (job_stats job) - 1) /\
       applicationsCountOf (jobId a) db2
       = Some (applicationsCount (job_stats job) - 2)).
Proof.
  intros Ha Hown. split.
  - unfold deleteApplication. rewrite Ha, Hown, String.eqb_refl.
    eexists. split; [reflexivity|]. simpl.
    split; [apply lookup_delete_eq|]. intros job Hjob.
    unfold applicationsCountOf, Job_incApplicationsCount. simpl.
    rewrite lookup_alter_eq, Hjob. simpl. f_equal; lia.
  - intros Hpend.
    unfold withdrawApplication. rewrite Ha, Hown, String.eqb_refl.
    rewrite bool_decide_eq_true_2 by exact Hpend.
    eexists. eexists. eexists. split; [reflexivity|].
    split; [reflexivity|].
    unfold deleteApplication, applicationsCountOf, Job_incApplicationsCount.
    simpl. rewrite lookup_insert_eq. simpl. rewrite Hown, String.eqb_refl.
    split; [reflexivity|]. simpl.
    split; [apply lookup_delete_eq|]. intros job Hjob.
    rewrite !lookup_alter_eq, Hjob. simpl. split; f_equal; lia.
Qed.

(** The pending application [a1] of [f1] to the job [j1], whose
    counter is 3. *)
Lemma deleteApplication_any_status_witness :
  exists a1 db1 db2,
    withdrawApplication "a1" "f1" (marketDb OPEN) = Ok (a1, db1) /\
    deleteApplication "a1" "f1" db1 = Ok db2 /\
    applicationsCountOf "j1" (marketDb OPEN) = Some 3 /\
    applicationsCountOf "j1" db2 = Some 1.
Proof.
  destruct (deleteApplication_any_status "a1" "f1" (marketDb OPEN)
              (exampleApplication "j1" "f1" PENDING None))
    as (_ & Hchain); [reflexivity | reflexivity |].
  destruct (Hchain eq_refl) as (a1 & db1 & db2 & Hw & _ & Hd & _ & Hc).
  exists a1, db1, db2.
  split; [exact Hw|]. split; [exact Hd|]. split; [reflexivity|].
  apply (Hc (exampleJob OPEN 3)). reflexivity.
Defined.

(** One application is counted when [f3] applies to the job [j2], whose
    counter is 1; withdrawing and then deleting it leaves the counter
    at 0, one below its value before the application existed. *)
Example application_counted_once_removed_twice :
  exists a0 db0 a1 db1 db2,
    createApplication "f3" (mkCreateApplicationInput "j2" exampleLetter None)
      "a5" 900 (marketDb OPEN) = Ok (a0, db0) /\
    withdrawApplication "a5" "f3" db0 = Ok (a1, db1) /\
    deleteApplication "a5" "f3" db1 = Ok db2 /\
    applicationsCountOf "j2" (marketDb OPEN) = Some 1 /\
    applicationsCountOf "j2" db0 = Some 2 /\
    applicationsCountOf "j2" db2 = Some 0.
Proof.
  do 5 eexists.
  split; [vm_compute; reflexivity|].
  split; [vm_compute; reflexivity|].
  split; [vm_compute; reflexivity|].
  repeat split; vm_compute; reflexivity.
Qed.

End ApplicationClaims.

(** ** Who calls the orchestrator *)

Section Callers.
Import GamificationService ApplicationService JobService AuthService.

Variable bcrypt_compare : string -> string -> bool.
Variable generateTokens : string -> string -> UserRole -> string * string.

Lemma User_findOne_email_Some (e : string) (us : gmap string User)
    (id : string) (user : User) :
  User_findOne_email e us = Some (id, user) -> us !! id = Some user.
Proof.
  unfold User_findOne_email. intros H. apply find_some in H as [Hin _].
  apply list_elem_of_In in Hin. apply elem_of_map_to_list in Hin. exact Hin.
Qed.

Lemma login_ledger (data : LoginInput) (now : Z) (db db' : Db)
    (r : LoginResult) :
  login bcrypt_compare generateTokens data now db = Ok (r, db') ->
  activityEvents db' = activityEvents db /\
  forall id, gamificationOf id db' = gamificationOf id db.
Proof.
  unfold login.
  destruct (User_findOne_email _ _) as [[uid user]|] eqn:Hfind; [|discriminate].
  apply User_findOne_email_Some in Hfind.
  destruct (bcrypt_compare _ _); [|discriminate].
  destruct (negb (bool_decide (accountStatus user = ACC_SUSPENDED)));
    [|discriminate].
  destruct (negb (bool_decide (accountStatus user = ACC_DELETED)));
    [|discriminate].
  intros [= <- <-]. split; [reflexivity|].
  intros id. unfold gamificationOf. simpl.
  destruct (decide (uid = id)) as [->|Hne].
  - rewrite lookup_insert_eq, Hfind. reflexivity.
  - rewrite lookup_insert_ne by exact Hne. reflexivity.
Qed.

Lemma createJob_ledger (client : string) (data : CreateJobInput)
    (newId : string) (db db' : Db) (job : Job) :
  createJob client data newId db = Ok (job, db') ->
  activityEvents db' = activityEvents db /\
  forall id, gamificationOf id db' = gamificationOf id db.
Proof.
  unfold createJob.
  destruct (validateDocument _ _ _); [|discriminate]. simpl.
  destruct (jobs db !! newId); [discriminate|].
  intros [= <- <-]. split; [reflexivity|].
  intros id. unfold gamificationOf. simpl.
  destruct (decide (client = id)) as [->|Hne].
  - rewrite lookup_alter_eq. destruct (users db !! id); reflexivity.
  - rewrite lookup_alter_ne by exact Hne. reflexivity.
Qed.

Lemma createApplication_ledger (freelancer : string)
    (data : CreateApplicationInput) (newId : string) (now : Z)
    (db db' : Db) (a : Application) :
  createApplication freelancer data newId now db = Ok (a, db') ->
  activityEvents db' = activityEvents db /\
  forall id, gamificationOf id db' = gamificationOf id db.
Proof.
  unfold createApplication.
  destruct (jobs db !! in_jobId data) as [job|]; [|discriminate].
  destruct (bool_decide (job_status job = OPEN)); [|discriminate].
  destruct (negb (String.eqb (clientId job) freelancer)); [|discriminate].
  destruct (Application_findOne _ _ _); [discriminate|].
  destruct (Application_create _ _ _) as [apps|e]; [|discriminate].
  simpl. intros [= <- <-]. split; reflexivity.
Qed.

Lemma acceptApplication_ledger (applicationId userId : string) (t1 t2 : Z)
    (db db' : Db) (a : Application) :
  acceptApplication applicationId userId t1 t2 db = Ok (a, db') ->
  activityEvents db' = activityEvents db /\
  forall id, gamificationOf id db' = gamificationOf id db.
Proof.
  unfold acceptApplication.
  destruct (applications db !! applicationId) as [app|]; [|discriminate].
  destruct (jobs db !! jobId app) as [job|]; [|discriminate].
  destruct (String.eqb (clientId job) userId); [|discriminate].
  destruct (bool_decide (job_status job = OPEN)); [|discriminate].
  destruct (bool_decide (app_status app = PENDING)); [|discriminate].
  intros [= <- <-]. split; reflexivity.
Qed.

(** C9, as stated, fails: no service calls [recordActivity]. A
    successful login, a successful job creation and a successful
    application acceptance each leave the ledger empty and the acting
    user's gamification state at its defaults. *)
Lemma services_record_no_activity_counterexample :
  (exists r db',
     login exampleCompare exampleTokens
       (mkLoginInput "ana@example.com" "hash") 700
       (exampleDb defaultGamification []) = Ok (r, db') /\
     activityEvents db' = [] /\
     gamificationOf "u1" db' = Some defaultGamification) /\
  (exists job db',
     createJob "c1" exampleJobInput "j3" (st_db (exampleStore OPEN))
     = Ok (job, db') /\
     activityEvents db' = [] /\
     gamificationOf "c1" db' = Some defaultGamification) /\
  (exists a db',
     acceptApplication "a1" "c1" 500 501 (marketDb OPEN) = Ok (a, db') /\
     activityEvents db' = [] /\
     gamificationOf "c1" db' = Some defaultGamification).
Proof.
  split; [|split]; do 2 eexists;
    (split; [vm_compute; reflexivity|split; vm_compute; reflexivity]).
Qed.

(** C9, amended. [recordActivity], when it is called and succeeds,
    appends one ledger event for the acting user, with the points of the
    table, and stores that user with points, streak and achievements
    updated; but none of login, job creation, application creation and
    application acceptance calls it: when they succeed, the ledger and
    the gamification state of every user are as before. *)
Theorem recordActivity_only_when_called :
  (forall userId type md date now db db',
     recordActivity userId type md date now db = Ok db' ->
     exists p user,
       assoc type specPointsTable = Some p /\
       activityEvents db'
       = (activityEvents db ++ [mkActivityEvent userId type p md date])%list /\
       users db !! userId = Some user /\
       users db' !! userId
       = Some (applyActivity p now (achievementCatalog db) user)) /\
  (forall data now db r db',
     login bcrypt_compare generateTokens data now db = Ok (r, db') ->
     activityEvents db' = activityEvents db /\
     forall id, gamificationOf id db' = gamificationOf id db) /\
  (forall client data newId db job db',
     createJob client data newId db = Ok (job, db') ->
     activityEvents db' = activityEvents db /\
     forall id, gamificationOf id db' = gamificationOf id db) /\
  (forall freelancer data newId now db a db',
     createApplication freelancer data newId now db = Ok (a, db') ->
     activityEvents db' = activityEvents db /\
     forall id, gamificationOf id db' = gamificationOf id db) /\
  (forall applicationId userId t1 t2 db a db',
     acceptApplication applicationId userId t1 t2 db = Ok (a, db') ->
     activityEvents db' = activityEvents db /\
     forall id, gamificationOf id db' = gamificationOf id db).
Proof.
  split; [|split; [|split; [|split]]].
  - intros userId type md date now db db' H.
    apply recordActivity_Ok_inv in H as (user & p & Hu & Hin & Hp & _ & ->).
    destruct (getPointsForActivity_known type Hin) as (p' & Hassoc & Hp' & _).
    assert (p' = p) as -> by congruence.
    exists p, user. simpl. rewrite lookup_insert_eq. auto.
  - intros data now db r db'. apply login_ledger.
  - intros client data newId db job db'. apply createJob_ledger.
  - intros freelancer data newId now db a db'. apply createApplication_ledger.
  - intros applicationId userId t1 t2 db a db'. apply acceptApplication_ledger.
Qed.

End Callers.

Lemma recordActivity_only_when_called_witness :
  activityEvents
    (setUsers
       {[ "u1" := AuthService.recordLogin "refresh.u1" 700
                    (exampleUser defaultGamification) ]}
       (exampleDb defaultGamification []))
  = activityEvents (exampleDb defaultGamification []).
Proof.
  destruct (recordActivity_only_when_called exampleCompare exampleTokens)
    as (_ & Hlogin & _).
  apply (Hlogin (AuthService.mkLoginInput "ana@example.com" "hash") 700
           (exampleDb defaultGamification [])
           (AuthService.mkLoginResult
              (AuthService.recordLogin "refresh.u1" 700
                 (exampleUser defaultGamification))
              "access.u1" "refresh.u1")).
  vm_compute. reflexivity.
Defined.

(** * Further properties of the services *)

(** ** The job state machine *)

Section JobLifecycleProperties.
Import JobService JobLifecycle.

(** The validators read neither the status nor the assignment. *)
Lemma Job_validate_setJobStatus (s : JobStatus) (j : Job) :
  Job_validate (setJobStatus s j) = Job_validate j.
Proof. reflexivity. Qed.

Lemma Job_validate_setAssigned (f : string) (j : Job) :
  Job_validate (setAssigned f j) = Job_validate j.
Proof. reflexivity. Qed.

Lemma saveJob_Ok_inv (id : string) (job : Job) (st st' : Store) :
  saveJob id job st = Ok st' ->
  Job_validate job = Ok tt /\
  st' = {| st_db := setJobs (<[id := job]> (jobs (st_db st))) (st_db st);
           st_jobDates := st_jobDates st |}.
Proof.
  unfold saveJob. destruct (Job_validate job) as [[]|e]; simpl;
    [|discriminate]. intros [= <-]. auto.
Qed.

Lemma saveJob_Ok (id : string) (job : Job) (st : Store) :
  Job_validate job = Ok tt ->
  saveJob id job st
  = Ok {| st_db := setJobs (<[id := job]> (jobs (st_db st))) (st_db st);
          st_jobDates := st_jobDates st |}.
Proof. unfold saveJob. intros ->. reflexivity. Qed.

(** A document that passes with an assigned status and date passes
    without. *)
Lemma validateDocument_Ok_inv (status : option string)
    (date : option JsDate) (j : Job) :
  validateDocument status date j = Ok tt ->
  Job_validate j = Ok tt /\
  (forall s, status = Some s -> is_Some (JobStatus_ofString s)) /\
  date <> Some InvalidDate.
Proof.
  unfold Job_validate, validateDocument. intros H.
  destruct (lengthWithin 10 100 _); [|discriminate H].
  destruct (lengthWithin 50 5000 _); [|discriminate H].
  destruct (negb (String.eqb _ _)); [|discriminate H].
  destruct (notNegative (budget _)); [|discriminate H].
  destruct (notNegative (fst <$> _)); [|discriminate H].
  destruct (notNegative (snd <$> _)); [|discriminate H].
  destruct (negb (Nat.eqb _ _)); [|discriminate H].
  destruct status as [s|].
  - case_bool_decide as Hs; [|discriminate H].
    destruct (0 <=? views _); [|discriminate H].
    destruct (0 <=? applicationsCount _); [|discriminate H].
    destruct (0 <=? savedCount _); [|discriminate H].
    destruct date as [[ms|]|]; try discriminate H;
      (split; [reflexivity|]; split; [intros s' [= <-]; exact Hs|];
       discriminate).
  - destruct (0 <=? views _); [|discriminate H].
    destruct (0 <=? applicationsCount _); [|discriminate H].
    destruct (0 <=? savedCount _); [|discriminate H].
    destruct date as [[ms|]|]; try discriminate H;
      (split; [reflexivity|]; split; [intros s' Hs'; discriminate Hs'|];
       discriminate).
Qed.

Lemma validateDocument_Ok (status : option string) (date : option JsDate)
    (j : Job) :
  Job_validate j = Ok tt ->
  (forall s, status = Some s -> is_Some (JobStatus_ofString s)) ->
  date <> Some InvalidDate ->
  validateDocument status date j = Ok tt.
Proof.
  unfold Job_validate, validateDocument. intros H Hs Hd.
  destruct (lengthWithin 10 100 _); [|discriminate H].
  destruct (lengthWithin 50 5000 _); [|discriminate H].
  destruct (negb (String.eqb _ _)); [|discriminate H].
  destruct (notNegative (budget _)); [|discriminate H].
  destruct (notNegative (fst <$> _)); [|discriminate H].
  destruct (notNegative (snd <$> _)); [|discriminate H].
  destruct (negb (Nat.eqb _ _)); [|discriminate H].
  destruct (0 <=? views _); [|discriminate H].
  destruct (0 <=? applicationsCount _); [|discriminate H].
  destruct (0 <=? savedCount _); [|discriminate H].
  destruct status as [s|];
    [rewrite bool_decide_eq_true_2 by (apply Hs; reflexivity)|];
    destruct date as [[ms|]|]; try reflexivity; contradiction.
Qed.

Lemma check_Ok (b : bool) (e : Error) (k : result unit) :
  (check b else e ;; k) = Ok tt <-> b = true /\ k = Ok tt.
Proof. destruct b; split; try tauto; try discriminate. intros [H _]. discriminate H. Qed.

Lemma lengthWithin_spec (lo hi : Z) (s : string) :
  lengthWithin lo hi s = true <-> lo <= Z.of_nat (String.length s) <= hi.
Proof. unfold lengthWithin. rewrite andb_true_iff, !Z.leb_le. tauto. Qed.

Lemma notNegative_spec (r : option Z) :
  notNegative r = true <-> forall n, r = Some n -> 0 <= n.
Proof.
  destruct r as [n|]; simpl.
  - rewrite Z.leb_le. split; [intros H n' [= <-]; exact H|].
    intros H. apply H. reflexivity.
  - split; [intros _ n H; discriminate H|reflexivity].
Qed.

(** The validation of [Job.create], spelled out on the input. *)
Lemma createJob_validation (client : string) (data : CreateJobInput) :
  validateDocument None (in_deadline data) (Job_new client data) = Ok tt
  <-> validJobInput data.
Proof.
  unfold validateDocument, validJobInput. rewrite !check_Ok. simpl.
  rewrite !lengthWithin_spec, !notNegative_spec, !negb_true_iff.
  rewrite String.eqb_neq, Nat.eqb_neq.
  assert (Hskills : length (in_skillsRequired data) <> 0%nat
                    <-> in_skillsRequired data <> [])
    by (destruct (in_skillsRequired data); simpl; split; congruence).
  assert (Hdate : match in_deadline data with
                  | Some InvalidDate => false
                  | _ => true
                  end = true <-> in_deadline data <> Some InvalidDate)
    by (destruct (in_deadline data) as [[ms|]|]; split; congruence).
  assert (Hrate : ((forall n, fst <$> in_hourlyRate data = Some n -> 0 <= n)
                   /\ (forall n, snd <$> in_hourlyRate data = Some n -> 0 <= n))
                  <-> forall lo hi, in_hourlyRate data = Some (lo, hi) ->
                                    0 <= lo /\ 0 <= hi).
  { destruct (in_hourlyRate data) as [[lo hi]|]; simpl.
    - split.
      + intros [H1 H2] lo' hi' [= <- <-]. split; [apply H1|apply H2]; reflexivity.
      + intros H. destruct (H lo hi eq_refl).
        split; intros n [= <-]; assumption.
    - split; [intros _ lo hi H; discriminate H|].
      intros _. split; intros n H; discriminate H. }
  rewrite Hskills, Hdate, <- Hrate. intuition lia.
Qed.

Ltac job_guards H job Hjob Hown :=
  match type of H with
  | context [jobs (st_db ?st) !! ?jobId] =>
      destruct (jobs (st_db st) !! jobId) as [job|] eqn:Hjob;
      [|discriminate H]
  end;
  match type of H with
  | context [String.eqb (clientId job) ?u] =>
      destruct (String.eqb_spec (clientId job) u) as [Hown|];
      [|discriminate H]
  end.

Ltac job_saved H Hvalid :=
  match type of H with
  | context [saveJob ?id ?j ?st] =>
      let st1 := fresh "st1" in
      let Hs := fresh "Hsave" in
      destruct (saveJob id j st) as [st1|?] eqn:Hs; [|discriminate H];
      apply saveJob_Ok_inv in Hs as [Hvalid ->]
  end.

Lemma runJobOp_Ok_inv (op : JobOp) (jobId userId : string) (st st' : Store) :
  runJobOp op jobId userId st = Ok st' ->
  exists job,
    jobs (st_db st) !! jobId = Some job /\ clientId job = userId /\
    jobTransition (job_status job) op (statusOf jobId st') /\
    (forall id, id <> jobId ->
       jobs (st_db st') !! id = jobs (st_db st) !! id) /\
    (forall id, id <> jobId -> datesOf id st' = datesOf id st) /\
    applications (st_db st') = applications (st_db st) /\
    activityEvents (st_db st') = activityEvents (st_db st).
Proof.
  intros H. unfold statusOf, datesOf.
  destruct op as [|data now|now matched| | |data]; simpl in H.
  - unfold publishJob in H. job_guards H job Hjob Hown.
    case_bool_decide as Hst; [|discriminate H].
    job_saved H Hvalid. simpl in H. injection H as <-. exists job. simpl.
    rewrite lookup_insert_eq. repeat split; auto.
    intros id Hne. apply lookup_insert_ne. congruence.
  - unfold assignFreelancer in H. job_guards H job Hjob Hown.
    case_bool_decide as Hst; [|discriminate H].
    destruct (users (st_db st) !! in_freelancerId data) as [f|]; [|discriminate H].
    destruct (role f); try discriminate H.
    job_saved H Hvalid. simpl in H. injection H as <-. exists job. simpl.
    rewrite lookup_insert_eq. repeat split; auto.
    + intros id Hne. apply lookup_insert_ne. congruence.
    + intros id Hne. rewrite lookup_insert_ne by congruence. reflexivity.
  - unfold completeJob in H. job_guards H job Hjob Hown.
    case_bool_decide as Hst; [|discriminate H].
    job_saved H Hvalid. simpl in H. injection H as <-. exists job. simpl.
    rewrite lookup_insert_eq. repeat split; auto.
    + intros id Hne. apply lookup_insert_ne. congruence.
    + intros id Hne. rewrite lookup_insert_ne by congruence. reflexivity.
  - unfold cancelJob in H. job_guards H job Hjob Hown.
    case_bool_decide as Hst; [discriminate H|].
    job_saved H Hvalid. simpl in H. injection H as <-. exists job. simpl.
    rewrite lookup_insert_eq. repeat split; auto.
    intros id Hne. apply lookup_insert_ne. congruence.
  - unfold deleteJob in H. job_guards H job Hjob Hown.
    case_bool_decide as Hst; [|discriminate H].
    simpl in H. injection H as <-. exists job. simpl.
    rewrite lookup_delete_eq. repeat split; auto.
    + intros id Hne. apply lookup_delete_ne. congruence.
    + intros id Hne. rewrite lookup_delete_ne by congruence. reflexivity.
  - unfold updateJob in H. job_guards H job Hjob Hown.
    case_bool_decide as Hc; [discriminate H|].
    case_bool_decide as Hx; [discriminate H|]. simpl in H.
    destruct (validateDocument _ _ _) as [[]|]; [|discriminate H].
    simpl in H. injection H as <-. exists job. simpl.
    rewrite lookup_insert_eq. repeat split; auto.
    intros id Hne. apply lookup_insert_ne. congruence.
Qed.

(** An update that names a status and nothing else assigns the
    status. *)
Lemma assignJobFields_statusOnly (s : JobStatus) (job : Job) :
  assignJobFields (statusOnly (JobStatus_toString s)) job
  = setJobStatus s job.
Proof. destruct job as [t c st a stats []]. destruct s; reflexivity. Qed.

(** X1. A successful publishJob, assignFreelancer, completeJob,
    cancelJob, deleteJob or updateJob is performed by the client who
    owns the job and changes the status as the method says: publish
    takes draft to open, assign open to in_progress, complete
    in_progress to completed, cancel any status but completed to
    cancelled, delete removes a draft, and update takes a job that is
    neither completed nor cancelled to the status its data names, if
    any. The other jobs, the applications and the ledger are not
    written. The order draft, open, in_progress, completed is not
    enforced against updateJob: on a job that passes the validators of
    the schema and is neither completed nor cancelled, its client can
    write any of the five statuses. *)
Theorem job_lifecycle_transitions (jobId userId : string) (st : Store) :
  (forall op st',
     runJobOp op jobId userId st = Ok st' ->
     exists job,
       jobs (st_db st) !! jobId = Some job /\ clientId job = userId /\
       jobTransition (job_status job) op (statusOf jobId st') /\
       (forall id, id <> jobId ->
          jobs (st_db st') !! id = jobs (st_db st) !! id) /\
       applications (st_db st') = applications (st_db st) /\
       activityEvents (st_db st') = activityEvents (st_db st)) /\
  (forall job s,
     jobs (st_db st) !! jobId = Some job -> clientId job = userId ->
     ~ isFinal (job_status job) -> Job_validate job = Ok tt ->
     exists st',
       runJobOp (OpUpdate (statusOnly (JobStatus_toString s))) jobId userId st
       = Ok st' /\
       statusOf jobId st' = Some s).
Proof.
  split.
  - intros op st' H.
    apply runJobOp_Ok_inv in H as (job & H1 & H2 & H3 & H4 & _ & H5 & H6).
    exists job. split; [exact H1|]. split; [exact H2|]. split; [exact H3|].
    split; [exact H4|]. split; assumption.
  - intros job s Hjob Hown Hfinal Hvalid. simpl. unfold updateJob, statusOf.
    rewrite Hjob, <- Hown, String.eqb_refl.
    rewrite !bool_decide_eq_false_2
      by (intros E; apply Hfinal; unfold isFinal; auto).
    simpl. rewrite assignJobFields_statusOnly.
    rewrite validateDocument_Ok.
    + eexists. split; [reflexivity|]. simpl.
      rewrite lookup_insert_eq. reflexivity.
    + rewrite Job_validate_setJobStatus. exact Hvalid.
    + intros s' [= <-]. destruct s; simpl; eauto.
    + discriminate.
Qed.

Lemma job_lifecycle_transitions_witness :
  exists st',
    runJobOp (OpUpdate (statusOnly "completed")) "j1" "c1" (exampleStore OPEN)
    = Ok st' /\
    statusOf "j1" st' = Some COMPLETED.
Proof.
  destruct (job_lifecycle_transitions "j1" "c1" (exampleStore OPEN))
    as [_ Hany].
  apply (Hany (exampleJob OPEN 3) COMPLETED).
  - reflexivity.
  - reflexivity.
  - unfold isFinal. simpl. intros [E|E]; discriminate E.
  - reflexivity.
Defined.

(** X3. Ownership: on a stored job, every lifecycle operation requested
    by a user who is not its client fails with Forbidden, whatever the
    status of the job; on a job that is not stored it fails with
    NotFound. *)
Theorem job_lifecycle_ownership
    (op : JobOp) (jobId userId : string) (st : Store) :
  (forall job,
     jobs (st_db st) !! jobId = Some job -> clientId job <> userId ->
     runJobOp op jobId userId st = Err ForbiddenError) /\
  (jobs (st_db st) !! jobId = None ->
   runJobOp op jobId userId st = Err NotFoundError).
Proof.
  split.
  - intros job Hjob Hne.
    destruct op; simpl;
      unfold publishJob, assignFreelancer, completeJob, cancelJob, deleteJob,
        updateJob;
      rewrite Hjob;
      (destruct (String.eqb_spec (clientId job) userId); [contradiction|]);
      reflexivity.
  - intros Hnone.
    destruct op; simpl;
      unfold publishJob, assignFreelancer, completeJob, cancelJob, deleteJob,
        updateJob;
      rewrite Hnone; reflexivity.
Qed.

Lemma job_lifecycle_ownership_witness :
  runJobOp OpCancel "j1" "f1" (exampleStore OPEN) = Err ForbiddenError.
Proof.
  destruct (job_lifecycle_ownership OpCancel "j1" "f1" (exampleStore OPEN))
    as [Hforbidden _].
  apply (Hforbidden (exampleJob OPEN 3)); [reflexivity|].
  simpl. discriminate.
Defined.

(** X4. [completeJob] succeeds exactly when the job is stored, the caller
    is its client, its status is in_progress and the document passes the
    validators of the schema, whether or not the accounts of the client
    and of the assigned freelancer exist. It then adds 1 to
    [stats.jobsCompleted] of the client and 1 to that of the assigned
    freelancer, and changes the counter of nobody else: a user who is
    both is counted twice, and an account that no longer exists is
    skipped. On a job with no freelancer assigned, the second update is
    made with an undefined id and counts for the user that is matched
    for it, if any. *)
Theorem completeJob_counters
    (jobId userId : string) (now : Z) (matched : option string)
    (st : Store) :
  ((exists r, completeJob jobId userId now matched st = Ok r) <->
   (exists job,
      jobs (st_db st) !! jobId = Some job /\ clientId job = userId /\
      job_status job = IN_PROGRESS /\ Job_validate job = Ok tt)) /\
  (forall job st',
     completeJob jobId userId now matched st = Ok (job, st') ->
     forall u,
       jobsCompletedOf u (st_db st')
       = (fun n => n + (if decide (clientId job = u) then 1 else 0)
                     + (if decide (orGiven (assignedFreelancerId job) matched
                                   = Some u)
                        then 1 else 0))
         <$> jobsCompletedOf u (st_db st)).
Proof.
  unfold completeJob. split; [split|].
  - intros [r H]. job_guards H job Hjob Hown.
    case_bool_decide as Hst; [|discriminate H].
    job_saved H Hvalid. exists job.
    repeat split; first [assumption|exact Hvalid].
  - intros (job & -> & <- & Hst & Hvalid).
    rewrite String.eqb_refl, bool_decide_eq_true_2 by exact Hst.
    rewrite saveJob_Ok by exact Hvalid. simpl. eauto.
  - intros job' st' H u. job_guards H job Hjob Hown.
    case_bool_decide as Hst; [|discriminate H].
    job_saved H Hvalid. simpl in H. injection H as <- <-.
    unfold jobsCompletedOf. simpl.
    destruct (orGiven (assignedFreelancerId job) matched) as [f|]; simpl;
      rewrite !lookup_alter;
      repeat case_decide; simplify_eq;
      destruct (users (st_db st) !! _); simpl; try reflexivity;
      f_equal; lia.
Qed.

(** A job in progress whose freelancer has no account any more is
    completed all the same, and counted for its client. *)
Lemma completeJob_counters_witness :
  exists job st',
    completeJob "j1" "c1" 900 None (assignedStore "ghost") = Ok (job, st') /\
    jobsCompletedOf "c1" (st_db st') = Some 1 /\
    jobsCompletedOf "ghost" (st_db st') = None.
Proof.
  destruct (completeJob_counters "j1" "c1" 900 None (assignedStore "ghost"))
    as [[_ Hok] Hcount].
  destruct Hok as [[job st'] H].
  - exists (setAssigned "ghost" (exampleJob IN_PROGRESS 3)).
    repeat split; reflexivity.
  - exists job, st'. split; [exact H|].
    rewrite (Hcount job st' H "c1"), (Hcount job st' H "ghost").
    vm_compute in H. injection H as <- _. split; reflexivity.
Defined.

(** X5. [assignFreelancer] succeeds exactly when the job is stored, the
    caller is its client, its status is open, the target user exists
    with the role freelancer and the document passes the validators of
    the schema; it then stores the job in_progress with that freelancer
    assigned and [startDate] set to the time of the call, leaving
    [completionDate] as it was. *)
Theorem assignFreelancer_spec
    (jobId userId : string) (data : AssignFreelancerInput) (now : Z)
    (st : Store) :
  ((exists r, assignFreelancer jobId userId data now st = Ok r) <->
   (exists job f,
      jobs (st_db st) !! jobId = Some job /\ clientId job = userId /\
      job_status job = OPEN /\
      users (st_db st) !! in_freelancerId data = Some f /\
      role f = FREELANCER /\
      Job_validate job = Ok tt)) /\
  (forall job' st',
     assignFreelancer jobId userId data now st = Ok (job', st') ->
     jobs (st_db st') !! jobId = Some job' /\
     job_status job' = IN_PROGRESS /\
     assignedFreelancerId job' = Some (in_freelancerId data) /\
     startDate (datesOf jobId st') = Some now /\
     completionDate (datesOf jobId st') = completionDate (datesOf jobId st) /\
     users (st_db st') = users (st_db st)).
Proof.
  unfold assignFreelancer. split; [split|].
  - intros [r H]. job_guards H job Hjob Hown.
    case_bool_decide; [|discriminate H].
    destruct (users (st_db st) !! in_freelancerId data) as [f|];
      [|discriminate H].
    destruct (role f) eqn:Hrole; try discriminate H.
    job_saved H Hvalid. exists job, f.
    repeat split; first [assumption|exact Hvalid].
  - intros (job & f & -> & <- & Hopen & -> & -> & Hvalid).
    rewrite String.eqb_refl, bool_decide_eq_true_2 by exact Hopen.
    rewrite saveJob_Ok by exact Hvalid. simpl. eauto.
  - intros job' st' H. job_guards H job Hjob Hown.
    destruct (bool_decide (job_status job = OPEN)); [|discriminate H].
    destruct (users (st_db st) !! in_freelancerId data) as [f|];
      [|discriminate H].
    destruct (role f); try discriminate H.
    job_saved H Hvalid. simpl in H. injection H as <- <-. simpl.
    unfold datesOf. simpl. rewrite !lookup_insert_eq. simpl.
    repeat split; reflexivity.
Qed.

Lemma assignFreelancer_spec_witness :
  exists r,
    assignFreelancer "j1" "c1" (mkAssignFreelancerInput "f1") 700
      (exampleStore OPEN) = Ok r.
Proof.
  destruct (assignFreelancer_spec "j1" "c1" (mkAssignFreelancerInput "f1") 700
              (exampleStore OPEN)) as [[_ Hok] _].
  apply Hok.
  exists (exampleJob OPEN 3), (exampleUser defaultGamification).
  repeat split; reflexivity.
Defined.

(** X6. The whole life of a job. [createJob] under a job id that is free
    succeeds exactly when the input passes the validators of
    [Job.create]: a title of 10 to 100 characters once trimmed, a
    description of 50 to 5000, a category, amounts that are not
    negative, at least one skill and no invalid deadline. For such an
    input, a stored client and a stored freelancer account distinct from
    it, create, publish, assign and complete succeed in this order; the
    job ends completed with the freelancer assigned and both dates set,
    the client has one more job posted and one more completed, and the
    freelancer one more completed. *)
Theorem job_full_lifecycle
    (client freelancer newId : string) (data : CreateJobInput) (t1 t2 : Z)
    (matched : option string) (db : Db) (dates : gmap string JobDates) :
  jobs db !! newId = None ->
  ((exists r, createJob client data newId db = Ok r) <-> validJobInput data) /\
  (forall c f,
     validJobInput data ->
     users db !! client = Some c ->
     users db !! freelancer = Some f ->
     role f = FREELANCER ->
     client <> freelancer ->
     exists j0 db0 j1 st1 j2 st2 j3 st3,
       createJob client data newId db = Ok (j0, db0) /\
       job_status j0 = DRAFT /\
       publishJob newId client (mkStore db0 dates) = Ok (j1, st1) /\
       assignFreelancer newId client (mkAssignFreelancerInput freelancer)
         t1 st1 = Ok (j2, st2) /\
       completeJob newId client t2 matched st2 = Ok (j3, st3) /\
       jobs (st_db st3) !! newId = Some j3 /\
       job_status j3 = COMPLETED /\
       assignedFreelancerId j3 = Some freelancer /\
       startDate (datesOf newId st3) = Some t1 /\
       completionDate (datesOf newId st3) = Some t2 /\
       jobsPostedOf client (st_db st3) = Some (jobsPosted (stats c) + 1) /\
       jobsCompletedOf client (st_db st3)
       = Some (jobsCompleted (stats c) + 1) /\
       jobsCompletedOf freelancer (st_db st3)
       = Some (jobsCompleted (stats f) + 1)).
Proof.
  intros Hfree. split.
  - rewrite <- (createJob_validation client). unfold createJob.
    destruct (validateDocument _ _ _) as [[]|e]; simpl; rewrite ?Hfree.
    + split; [reflexivity|eauto].
    + split; [intros [r H]; discriminate H|discriminate].
  - intros c f Hdata Hc Hf Hrole Hne.
    apply (createJob_validation client) in Hdata.
    pose proof (validateDocument_Ok_inv _ _ _ Hdata) as [Hvalid _].
    unfold createJob. rewrite Hdata. simpl. rewrite Hfree.
    do 2 eexists. eexists. eexists. eexists. eexists. eexists. eexists.
    split; [reflexivity|]. split; [reflexivity|].
    split.
    { unfold publishJob. simpl. rewrite lookup_insert_eq. simpl.
      rewrite String.eqb_refl. simpl.
      rewrite saveJob_Ok by exact Hvalid. reflexivity. }
    split.
    { unfold assignFreelancer. simpl. rewrite lookup_insert_eq. simpl.
      rewrite String.eqb_refl. simpl.
      rewrite lookup_alter_ne by exact Hne. rewrite Hf, Hrole.
      rewrite saveJob_Ok by exact Hvalid. reflexivity. }
    split.
    { unfold completeJob. simpl. rewrite lookup_insert_eq. simpl.
      rewrite String.eqb_refl. simpl.
      rewrite saveJob_Ok by exact Hvalid. reflexivity. }
    simpl. unfold datesOf, jobsPostedOf, jobsCompletedOf. simpl.
    rewrite !lookup_insert_eq. simpl.
    split; [reflexivity|]. split; [reflexivity|]. split; [reflexivity|].
    split; [reflexivity|]. split; [reflexivity|].
    repeat split; rewrite !lookup_alter; repeat case_decide; simplify_eq;
      rewrite ?Hc, ?Hf; reflexivity.
Qed.

Lemma job_full_lifecycle_witness :
  exists j3 st3,
    jobs (st_db st3) !! "j3" = Some j3 /\
    job_title j3 = "Logo for a bakery" /\
    job_status j3 = COMPLETED /\
    jobsPostedOf "c1" (st_db st3) = Some 3 /\
    jobsCompletedOf "f1" (st_db st3) = Some 1.
Proof.
  destruct (job_full_lifecycle "c1" "f1" "j3" exampleJobInput
              500 900 None (st_db (exampleStore OPEN)) ∅ eq_refl)
    as [_ Hlife].
  destruct (Hlife
              (mkUser "carla@example.com" "$2a$12$hash" CLIENT ACC_ACTIVE
                 defaultGamification (mkUserStats 2 0) [] None)
              (exampleUser defaultGamification))
    as (j0 & db0 & j1 & st1 & j2 & st2 & j3 & st3 & H0 & _ & Hp & Ha & Hd
        & H1 & H2 & _ & _ & _ & H3 & _ & H4).
  - unfold validJobInput. simpl.
    repeat split; try lia; try discriminate.
    intros b [= <-]. lia.
  - reflexivity.
  - reflexivity.
  - reflexivity.
  - discriminate.
  - exists j3, st3. repeat split; try assumption.
    vm_compute in H0. injection H0 as <- <-.
    vm_compute in Hp. injection Hp as <- <-.
    vm_compute in Ha. injection Ha as <- <-.
    vm_compute in Hd. injection Hd as <- _. reflexivity.
Defined.

Lemma Job_validate_counter (j : Job) :
  Job_validate j = Ok tt -> 0 <= applicationsCount (job_stats j).
Proof.
  unfold Job_validate, validateDocument. rewrite !check_Ok.
  intros (_ & _ & _ & _ & _ & _ & _ & _ & H & _).
  apply Z.leb_le. exact H.
Qed.

(** X30. A job whose stored [stats.applicationsCount] is below zero can
    no longer be saved: publishJob, assignFreelancer, completeJob,
    cancelJob and updateJob fail on it, and [getJobById], when it counts
    the view, fails with a validation error; of the operations on the
    job only deleteJob, which saves nothing, can still succeed. *)
Theorem negative_counter_blocks_saves
    (jobId : string) (st : Store) (job : Job) :
  jobs (st_db st) !! jobId = Some job ->
  applicationsCount (job_stats job) < 0 ->
  (forall op userId st',
     runJobOp op jobId userId st = Ok st' -> op = OpDelete) /\
  (exists path,
     getJobById jobId true st = Err (MongooseValidationError path)).
Proof.
  intros Hjob Hneg. split.
  - intros op userId st' H.
    destruct op as [|data now|now matched| | |data]; simpl in H;
      [..|reflexivity|];
      exfalso.
    + unfold publishJob in H. rewrite Hjob in H.
      destruct (String.eqb _ _); [|discriminate H].
      destruct (bool_decide _); [|discriminate H].
      job_saved H Hvalid. apply Job_validate_counter in Hvalid.
      simpl in Hvalid. lia.
    + unfold assignFreelancer in H. rewrite Hjob in H.
      destruct (String.eqb _ _); [|discriminate H].
      destruct (bool_decide _); [|discriminate H].
      destruct (users (st_db st) !! in_freelancerId data) as [f|];
        [|discriminate H].
      destruct (role f); try discriminate H.
      job_saved H Hvalid. apply Job_validate_counter in Hvalid.
      simpl in Hvalid. lia.
    + unfold completeJob in H. rewrite Hjob in H.
      destruct (String.eqb _ _); [|discriminate H].
      destruct (bool_decide _); [|discriminate H].
      job_saved H Hvalid. apply Job_validate_counter in Hvalid.
      simpl in Hvalid. lia.
    + unfold cancelJob in H. rewrite Hjob in H.
      destruct (String.eqb _ _); [|discriminate H].
      destruct (negb _); [|discriminate H].
      job_saved H Hvalid. apply Job_validate_counter in Hvalid.
      simpl in Hvalid. lia.
    + unfold updateJob in H. rewrite Hjob in H.
      destruct (String.eqb _ _); [|discriminate H].
      destruct (negb _); [|discriminate H].
      destruct (validateDocument _ _ _) as [[]|] eqn:Hv; [|discriminate H].
      apply validateDocument_Ok_inv in Hv as [Hvalid _].
      apply Job_validate_counter in Hvalid. simpl in Hvalid. lia.
  - unfold getJobById, saveJob. rewrite Hjob.
    destruct (Job_validate (incViews job)) as [[]|e] eqn:Hv.
    + apply Job_validate_counter in Hv. simpl in Hv. lia.
    + simpl. revert Hv. unfold Job_validate, validateDocument.
      repeat match goal with
             | |- context [if ?b then _ else _] => destruct b
             end; intros [= <-]; eauto.
Qed.

(** The counter goes below zero when a withdrawn application is
    deleted: the job [j2], with one application that is withdrawn and
    then deleted, has the counter -1 and cannot be viewed any more. *)
Lemma negative_counter_blocks_saves_witness :
  exists db1 db2,
    ApplicationService.withdrawApplication "a4" "f2"
      (st_db (exampleStore OPEN)) = Ok db1 /\
    ApplicationService.deleteApplication "a4" "f2" db1.2 = Ok db2 /\
    applicationsCountOf "j2" db2 = Some (-1) /\
    exists path,
      getJobById "j2" true (mkStore db2 ∅)
      = Err (MongooseValidationError path).
Proof.
  destruct (ApplicationService.withdrawApplication "a4" "f2"
              (st_db (exampleStore OPEN)))
    as [db1|e] eqn:H1; [|vm_compute in H1; discriminate H1].
  destruct (ApplicationService.deleteApplication "a4" "f2" db1.2)
    as [db2|e] eqn:H2;
    [|injection H1 as <-; vm_compute in H2; discriminate H2].
  exists db1, db2. split; [reflexivity|]. split; [exact H2|].
  destruct (jobs db2 !! "j2") as [job|] eqn:Hjob.
  2: { injection H1 as <-. vm_compute in H2. injection H2 as <-.
       vm_compute in Hjob. discriminate Hjob. }
  assert (Hcount : applicationsCount (job_stats job) = -1).
  { injection H1 as <-. vm_compute in H2. injection H2 as <-.
    vm_compute in Hjob. injection Hjob as <-. reflexivity. }
  split.
  - unfold applicationsCountOf. rewrite Hjob. simpl. rewrite Hcount.
    reflexivity.
  - apply (negative_counter_blocks_saves "j2" (mkStore db2 ∅) job Hjob).
    lia.
Defined.

End JobLifecycleProperties.

(** ** The application state machine *)

Section ApplicationLifecycleProperties.
Import ApplicationService ApplicationEdits.

Lemma runApplicationOp_effect (op : ApplicationOp) (db db' : Db) :
  runApplicationOp op db = Ok db' -> applicationEffect op db db'.
Proof.
  intros H. destruct op as [f data newId now|id u data|id u t1 t2|id u now
                            |id u|id u]; simpl in *.
  - unfold createApplication in H.
    destruct (jobs db !! in_jobId data) as [job|]; [|discriminate H].
    case_bool_decide as Hopen; [|discriminate H].
    destruct (String.eqb_spec (clientId job) f) as [|Hne]; [discriminate H|].
    simpl in H.
    destruct (Application_findOne _ _ _) eqn:Hfind; [discriminate H|].
    unfold Application_create in H.
    destruct (validCoverLetter _); [|discriminate H].
    destruct (validProposedRate _); [|discriminate H]. simpl in H.
    destruct (applications db !! newId) eqn:Hnew; [discriminate H|].
    rewrite Hfind in H. simpl in H. injection H as <-.
    exists job. repeat split; auto.
  - unfold updateApplication in H.
    destruct (applications db !! id) as [a|]; [|discriminate H].
    destruct (String.eqb_spec (freelancerId a) u); [|discriminate H].
    destruct (bool_decide (app_status a = PENDING)) eqn:Hp;
      [apply bool_decide_eq_true in Hp|discriminate H].
    unfold Application_save in H.
    destruct (validCoverLetter _); [|discriminate H].
    destruct (_ || _); [|discriminate H].
    simpl in H. injection H as <-. exists a. auto.
  - unfold acceptApplication in H.
    destruct (applications db !! id) as [a|]; [|discriminate H].
    destruct (jobs db !! jobId a) as [job|] eqn:Hjob; [|discriminate H].
    destruct (String.eqb_spec (clientId job) u); [|discriminate H].
    case_bool_decide; [|discriminate H].
    case_bool_decide; [|discriminate H].
    simpl in H. injection H as <-. exists a, job. repeat split; auto.
  - unfold rejectApplication in H.
    destruct (applications db !! id) as [a|]; [|discriminate H].
    destruct (jobs db !! jobId a) as [job|] eqn:Hjob; [|discriminate H].
    destruct (String.eqb_spec (clientId job) u); [|discriminate H].
    case_bool_decide; [|discriminate H].
    simpl in H. injection H as <-. exists a, job. repeat split; auto.
  - unfold withdrawApplication in H.
    destruct (applications db !! id) as [a|]; [|discriminate H].
    destruct (String.eqb_spec (freelancerId a) u); [|discriminate H].
    case_bool_decide; [|discriminate H].
    simpl in H. injection H as <-. exists a. auto.
  - unfold deleteApplication in H.
    destruct (applications db !! id) as [a|]; [|discriminate H].
    destruct (String.eqb_spec (freelancerId a) u); [|discriminate H].
    simpl in H. injection H as <-. exists a. auto.
Qed.

(** X7. A decided application is frozen: once its status is accepted,
    rejected or withdrawn, no successful operation of the application
    manager, on it or on any other application, changes any of its
    fields; the only thing that can still happen to it is its deletion
    by the applicant. *)
Theorem decided_applications_frozen
    (op : ApplicationOp) (db db' : Db) (id0 : string) (a0 : Application) :
  runApplicationOp op db = Ok db' ->
  applications db !! id0 = Some a0 ->
  app_status a0 <> PENDING ->
  applications db' !! id0 = Some a0 \/
  (op = AOpDelete id0 (freelancerId a0) /\ applications db' !! id0 = None).
Proof.
  intros H Ha0 Hst. apply runApplicationOp_effect in H.
  destruct op as [f data newId now|id u data|id u t1 t2|id u now
                  |id u|id u]; simpl in H.
  - destruct H as (job & _ & _ & _ & Hnew & _ & ->). left.
    rewrite lookup_insert_ne by congruence. exact Ha0.
  - destruct H as (a & Ha & _ & Hp & ->). left.
    rewrite lookup_insert_ne by congruence. exact Ha0.
  - destruct H as (a & job & Ha & _ & _ & _ & Hp & ->). left.
    rewrite rejectCompetitors_lookup, lookup_insert_ne, Ha0 by congruence.
    simpl. unfold competitor.
    rewrite (bool_decide_eq_false_2 (app_status a0 = PENDING)) by exact Hst.
    rewrite andb_false_r. reflexivity.
  - destruct H as (a & job & Ha & _ & _ & Hp & ->). left.
    rewrite lookup_insert_ne by congruence. exact Ha0.
  - destruct H as (a & Ha & _ & Hp & ->). left.
    rewrite lookup_insert_ne by congruence. exact Ha0.
  - destruct H as (a & Ha & Hown & ->).
    destruct (decide (id = id0)) as [->|Hne].
    + right. assert (a = a0) as -> by congruence. rewrite Hown.
      split; [reflexivity|apply lookup_delete_eq].
    + left. rewrite lookup_delete_ne by exact Hne. exact Ha0.
Qed.

(** The withdrawn application [a3] when the client accepts [a1]. *)
Lemma decided_applications_frozen_witness :
  exists db',
    runApplicationOp (AOpAccept "a1" "c1" 500 501) (marketDb OPEN) = Ok db' /\
    applications db' !! "a3"
    = Some (exampleApplication "j1" "f3" WITHDRAWN None).
Proof.
  destruct (runApplicationOp (AOpAccept "a1" "c1" 500 501) (marketDb OPEN))
    as [db'|e] eqn:H; [|vm_compute in H; discriminate H].
  exists db'. split; [reflexivity|].
  destruct (decided_applications_frozen _ _ _ "a3"
              (exampleApplication "j1" "f3" WITHDRAWN None) H)
    as [Hsame|[Hdel _]].
  - reflexivity.
  - simpl. discriminate.
  - exact Hsame.
  - discriminate Hdel.
Defined.

(** X8. Who may do what: an application is created only on an open job
    that is not the applicant's own; it is edited and withdrawn only by
    its applicant and only while pending, and deleted only by its
    applicant; it is accepted only by the client of its job, while the
    job is open and the application pending, and rejected only by that
    client while it is pending. *)
Theorem application_ops_authorised
    (op : ApplicationOp) (db db' : Db) :
  runApplicationOp op db = Ok db' ->
  match op with
  | AOpCreate freelancer data _ _ =>
      exists job,
        jobs db !! in_jobId data = Some job /\ job_status job = OPEN /\
        clientId job <> freelancer
  | AOpUpdate id userId _ | AOpWithdraw id userId =>
      exists a,
        applications db !! id = Some a /\ freelancerId a = userId /\
        app_status a = PENDING
  | AOpDelete id userId =>
      exists a, applications db !! id = Some a /\ freelancerId a = userId
  | AOpAccept id userId _ _ =>
      exists a job,
        applications db !! id = Some a /\ jobs db !! jobId a = Some job /\
        clientId job = userId /\ job_status job = OPEN /\
        app_status a = PENDING
  | AOpReject id userId _ =>
      exists a job,
        applications db !! id = Some a /\ jobs db !! jobId a = Some job /\
        clientId job = userId /\ app_status a = PENDING
  end.
Proof.
  intros H. apply runApplicationOp_effect in H.
  destruct op; simpl in H.
  - destruct H as (job & ? & ? & ? & _). eauto.
  - destruct H as (a & ? & ? & ? & _). eauto.
  - destruct H as (a & job & ? & ? & ? & ? & ? & _). eauto 10.
  - destruct H as (a & job & ? & ? & ? & ? & _). eauto 10.
  - destruct H as (a & ? & ? & ? & _). eauto.
  - destruct H as (a & ? & ? & _). eauto.
Qed.

Lemma application_ops_authorised_witness :
  exists a job,
    applications (marketDb OPEN) !! "a1" = Some a /\
    jobs (marketDb OPEN) !! jobId a = Some job /\
    clientId job = "c1" /\ app_status a = PENDING.
Proof.
  apply (application_ops_authorised (AOpReject "a1" "c1" 600) (marketDb OPEN)
           (setApplications
              (<["a1" := exampleApplication "j1" "f1" REJECTED (Some 600)]>
                 (applications (marketDb OPEN)))
              (marketDb OPEN))).
  vm_compute. reflexivity.
Defined.

(** Operations other than create keep the pair of every application and
    add none. *)
Lemma pairs_kept_uniquePairs (apps apps' : gmap string Application) :
  (forall id a', apps' !! id = Some a' ->
     exists a, apps !! id = Some a /\ jobId a = jobId a' /\
               freelancerId a = freelancerId a') ->
  uniquePairs apps -> uniquePairs apps'.
Proof.
  intros Hkept Huniq id1 id2 a1 a2 H1 H2 Hj Hf.
  destruct (Hkept _ _ H1) as (b1 & Hb1 & Hj1 & Hf1).
  destruct (Hkept _ _ H2) as (b2 & Hb2 & Hj2 & Hf2).
  apply (Huniq id1 id2 b1 b2); congruence.
Qed.

Lemma insert_same_pair_kept (apps : gmap string Application) (id : string)
    (a a' : Application) (id0 : string) (b' : Application) :
  apps !! id = Some a -> jobId a' = jobId a ->
  freelancerId a' = freelancerId a ->
  <[id := a']> apps !! id0 = Some b' ->
  exists b, apps !! id0 = Some b /\ jobId b = jobId b' /\
            freelancerId b = freelancerId b'.
Proof.
  intros Ha Hj Hf. rewrite lookup_insert. case_decide as Hid.
  - intros [= <-]. subst id0. exists a. auto.
  - intros Hb. exists b'. auto.
Qed.

(** X9. The uniqueness of the pair (jobId, freelancerId), which the
    unique index declares, is an invariant of the application manager:
    if no two stored applications share their pair, no successful
    operation makes two of them share it. *)
Theorem application_pairs_unique
    (op : ApplicationOp) (db db' : Db) :
  runApplicationOp op db = Ok db' ->
  uniquePairs (applications db) ->
  uniquePairs (applications db').
Proof.
  intros H Huniq. apply runApplicationOp_effect in H.
  destruct op as [f data newId now|id u data|id u t1 t2|id u now
                  |id u|id u]; simpl in H.
  - destruct H as (job & _ & _ & _ & Hnew & Hfind & ->).
    intros id1 id2 a1 a2. rewrite !lookup_insert.
    repeat case_decide; subst; intros H1 H2 Hj Hf; simplify_eq; simpl in *.
    + reflexivity.
    + exfalso. eapply Application_findOne_None; eauto.
    + exfalso. eapply Application_findOne_None; eauto.
    + eapply Huniq; eauto.
  - destruct H as (a & Ha & _ & _ & ->).
    eapply pairs_kept_uniquePairs; [|exact Huniq].
    intros id0 b'. eapply insert_same_pair_kept; eauto.
  - destruct H as (a & job & Ha & _ & _ & _ & _ & ->).
    eapply pairs_kept_uniquePairs; [|exact Huniq].
    intros id0 b'. rewrite rejectCompetitors_lookup.
    destruct (<[id := respond ACCEPTED t1 a]> (applications db) !! id0)
      as [b|] eqn:Hb; [|discriminate].
    simpl. intros [= <-].
    destruct (insert_same_pair_kept _ _ _ (respond ACCEPTED t1 a) _ _ Ha
                eq_refl eq_refl Hb)
      as (b0 & Hb0 & Hj & Hf).
    exists b0. destruct (competitor _ _ _ _); simpl; auto.
  - destruct H as (a & job & Ha & _ & _ & _ & ->).
    eapply pairs_kept_uniquePairs; [|exact Huniq].
    intros id0 b'. eapply insert_same_pair_kept; eauto.
  - destruct H as (a & Ha & _ & _ & ->).
    eapply pairs_kept_uniquePairs; [|exact Huniq].
    intros id0 b'. eapply insert_same_pair_kept; eauto.
  - destruct H as (a & Ha & _ & ->).
    eapply pairs_kept_uniquePairs; [|exact Huniq].
    intros id0 b'. rewrite lookup_delete. case_decide; [discriminate|].
    intros Hb. exists b'. auto.
Qed.

Lemma marketDb_uniquePairs (s : JobStatus) :
  uniquePairs (applications (marketDb s)).
Proof.
  intros id1 id2 a1 a2 H1 H2 Hj Hf.
  apply elem_of_map_to_list in H1, H2.
  vm_compute in H1, H2.
  repeat (apply elem_of_cons in H1 as [H1|H1]);
    try (apply elem_of_nil in H1; destruct H1);
    repeat (apply elem_of_cons in H2 as [H2|H2]);
    try (apply elem_of_nil in H2; destruct H2);
    simplify_eq; try reflexivity; discriminate.
Qed.

Lemma application_pairs_unique_witness :
  exists db',
    runApplicationOp
      (AOpCreate "f3" (mkCreateApplicationInput "j2" exampleLetter None)
         "a5" 900) (marketDb OPEN) = Ok db' /\
    uniquePairs (applications db').
Proof.
  destruct (runApplicationOp _ (marketDb OPEN)) as [db'|e] eqn:H;
    [|vm_compute in H; discriminate H].
  exists db'. split; [reflexivity|].
  apply (application_pairs_unique _ _ _ H).
  apply marketDb_uniquePairs.
Defined.

Lemma Application_findOne_absent job freelancer
    (apps : gmap string Application) :
  (forall id a, apps !! id = Some a ->
                ~ (jobId a = job /\ freelancerId a = freelancer)) ->
  Application_findOne job freelancer apps = None.
Proof.
  intros Hno.
  destruct (Application_findOne job freelancer apps) as [d|] eqn:Hf;
    [|reflexivity].
  apply Application_findOne_Some in Hf as (Hl & Hj & Hfr).
  exfalso. exact (Hno _ _ Hl (conj Hj Hfr)).
Qed.

(** X10. Accepting an application does not close the job: after the
    client has accepted the pending application A of an open job, the
    job is still open, so that a freelancer who has not applied yet can
    apply and be accepted too, and the job then has two accepted
    applications. *)
Theorem accept_leaves_job_open
    (idA newId client freelancer letter : string) (rate : option Z)
    (t1 t2 t3 t4 t5 : Z) (db : Db) (A : Application) (job : Job) :
  applications db !! idA = Some A ->
  jobs db !! jobId A = Some job ->
  clientId job = client -> job_status job = OPEN ->
  app_status A = PENDING ->
  applications db !! newId = None ->
  freelancer <> client ->
  (forall id a, applications db !! id = Some a ->
                ~ (jobId a = jobId A /\ freelancerId a = freelancer)) ->
  validCoverLetter letter = true -> validProposedRate rate = true ->
  exists A' db1 C db2 C' db3,
    acceptApplication idA client t1 t2 db = Ok (A', db1) /\
    (job_status <$> jobs db1 !! jobId A) = Some OPEN /\
    createApplication freelancer
      (mkCreateApplicationInput (jobId A) letter rate) newId t3 db1
    = Ok (C, db2) /\
    acceptApplication newId client t4 t5 db2 = Ok (C', db3) /\
    (exists a, applications db3 !! idA = Some a /\
               app_status a = ACCEPTED /\ jobId a = jobId A) /\
    (exists c, applications db3 !! newId = Some c /\
               app_status c = ACCEPTED /\ jobId c = jobId A) /\
    idA <> newId.
Proof.
  intros HA Hjob Hown Hopen Hpend Hnew Hne Hnone Hletter Hrate.
  assert (Hid : idA <> newId) by congruence.
  unfold acceptApplication at 1. rewrite HA, Hjob, Hown, String.eqb_refl.
  rewrite !bool_decide_eq_true_2 by assumption.
  do 2 eexists. eexists. eexists. eexists. eexists.
  split; [reflexivity|]. simpl.
  split; [rewrite Hjob; simpl; congruence|].
  split.
  { unfold createApplication. simpl. rewrite Hjob.
    rewrite bool_decide_eq_true_2 by exact Hopen. rewrite Hown.
    destruct (String.eqb_spec client freelancer) as [E|_]; [congruence|].
    simpl. rewrite Application_findOne_absent.
    2:{ intros id a. rewrite rejectCompetitors_lookup, lookup_insert.
        case_decide as Hc.
        - simpl. intros [= <-]. subst id.
          destruct (competitor _ _ _ _); simpl; eapply Hnone; eauto.
        - destruct (applications db !! id) as [b|] eqn:Hb; [|discriminate].
          simpl. intros [= <-].
          destruct (competitor _ _ _ _); simpl; eapply Hnone; eauto. }
    unfold Application_create. simpl. rewrite Hletter, Hrate. simpl.
    rewrite rejectCompetitors_lookup, lookup_insert_ne, Hnew by exact Hid.
    simpl. rewrite Application_findOne_absent.
    2:{ intros id a. rewrite rejectCompetitors_lookup, lookup_insert.
        case_decide as Hc.
        - simpl. intros [= <-]. subst id.
          destruct (competitor _ _ _ _); simpl; eapply Hnone; eauto.
        - destruct (applications db !! id) as [b|] eqn:Hb; [|discriminate].
          simpl. intros [= <-].
          destruct (competitor _ _ _ _); simpl; eapply Hnone; eauto. }
    simpl. reflexivity. }
  split.
  { unfold acceptApplication. simpl. rewrite lookup_insert_eq. simpl.
    unfold Job_incApplicationsCount. rewrite lookup_alter_eq, Hjob. simpl.
    rewrite Hown, String.eqb_refl.
    rewrite bool_decide_eq_true_2 by exact Hopen. simpl. reflexivity. }
  simpl. split; [|split; [|exact Hid]].
  - exists (respond ACCEPTED t1 A).
    rewrite rejectCompetitors_lookup, lookup_insert_ne by congruence.
    rewrite lookup_insert_ne by congruence.
    rewrite rejectCompetitors_lookup, lookup_insert_eq. simpl.
    unfold competitor. simpl. rewrite String.eqb_refl. simpl.
    rewrite !andb_false_r. simpl. auto.
  - eexists. rewrite rejectCompetitors_lookup, lookup_insert_eq. simpl.
    unfold competitor. simpl. rewrite String.eqb_refl, andb_false_r.
    split; [reflexivity|]. simpl. auto.
Qed.

(** The freelancer [f3] has withdrawn from the job [j1] but never applied
    to [j2], whose application [a4] the client accepts first. *)
Lemma accept_leaves_job_open_witness :
  exists db3 a c,
    applications db3 !! "a4" = Some a /\ app_status a = ACCEPTED /\
    applications db3 !! "a5" = Some c /\ app_status c = ACCEPTED /\
    jobId a = jobId c.
Proof.
  destruct (accept_leaves_job_open "a4" "a5" "c1" "f3" exampleLetter None
              500 501 600 700 701 (marketDb OPEN)
              (exampleApplication "j2" "f2" PENDING None) (exampleJob OPEN 1))
    as (A' & db1 & C & db2 & C' & db3 & _ & _ & _ & _
        & (a & Ha & Hsa & Hja) & (c & Hc & Hsc & Hjc) & _);
    try reflexivity.
  - discriminate.
  - intros id a Hl [Hj Hf]. apply elem_of_map_to_list in Hl.
    vm_compute in Hl.
    repeat (apply elem_of_cons in Hl as [Hl|Hl]);
      try (apply elem_of_nil in Hl; destruct Hl);
      simplify_eq; discriminate.
  - exists db3, a, c. repeat split; try assumption. congruence.
Defined.

(** X11. Closing a job freezes acceptance only: when the job of a
    pending application is no longer open (assigned, completed or
    cancelled), its client can no longer accept the application and
    nobody can apply, both failing with JOB_NOT_OPEN, while the client
    can still reject it and the applicant can still withdraw it. *)
Theorem closed_job_applications
    (id : string) (db : Db) (a : Application) (job : Job) :
  applications db !! id = Some a ->
  jobs db !! jobId a = Some job ->
  job_status job <> OPEN ->
  app_status a = PENDING ->
  (forall t1 t2,
     acceptApplication id (clientId job) t1 t2 db
     = Err (AppError 400 "JOB_NOT_OPEN")) /\
  (forall freelancer data newId now,
     in_jobId data = jobId a ->
     createApplication freelancer data newId now db
     = Err (AppError 400 "JOB_NOT_OPEN")) /\
  (forall now, exists r db',
     rejectApplication id (clientId job) now db = Ok (r, db') /\
     applications db' !! id = Some r /\ app_status r = REJECTED) /\
  (exists r db',
     withdrawApplication id (freelancerId a) db = Ok (r, db') /\
     applications db' !! id = Some r /\ app_status r = WITHDRAWN).
Proof.
  intros Ha Hjob Hclosed Hpend. split; [|split; [|split]].
  - intros t1 t2. unfold acceptApplication.
    rewrite Ha, Hjob, String.eqb_refl.
    rewrite bool_decide_eq_false_2 by exact Hclosed. reflexivity.
  - intros freelancer data newId now Hsame. unfold createApplication.
    rewrite Hsame, Hjob.
    rewrite bool_decide_eq_false_2 by exact Hclosed. reflexivity.
  - intros now. unfold rejectApplication.
    rewrite Ha, Hjob, String.eqb_refl.
    rewrite bool_decide_eq_true_2 by exact Hpend.
    do 2 eexists. split; [reflexivity|]. simpl.
    rewrite lookup_insert_eq. auto.
  - unfold withdrawApplication. rewrite Ha, String.eqb_refl.
    rewrite bool_decide_eq_true_2 by exact Hpend.
    do 2 eexists. split; [reflexivity|]. simpl.
    rewrite lookup_insert_eq. auto.
Qed.

Lemma closed_job_applications_witness :
  acceptApplication "a1" "c1" 500 501 (marketDb CANCELLED)
  = Err (AppError 400 "JOB_NOT_OPEN").
Proof.
  destruct (closed_job_applications "a1" (marketDb CANCELLED)
              (exampleApplication "j1" "f1" PENDING None)
              (exampleJob CANCELLED 3)) as [Hacc _].
  - reflexivity.
  - reflexivity.
  - discriminate.
  - reflexivity.
  - apply (Hacc 500 501).
Defined.

(** *** The counter of applications *)

Lemma elem_of_liveIds (job : string) (apps : gmap string Application)
    (id : string) :
  id ∈ liveIds job apps <->
  exists a, apps !! id = Some a /\ countsAsLive job a.
Proof.
  unfold liveIds. rewrite elem_of_dom. unfold is_Some.
  split; intros [a Ha]; exists a.
  - apply map_lookup_filter_Some in Ha. exact Ha.
  - apply map_lookup_filter_Some. exact Ha.
Qed.

Lemma liveIds_insert_live job apps id a :
  countsAsLive job a ->
  liveIds job (<[id := a]> apps) = {[id]} ∪ liveIds job apps.
Proof.
  intros Hlive. apply set_eq. intros x.
  rewrite elem_of_union, elem_of_singleton, !elem_of_liveIds.
  rewrite lookup_insert. case_decide as Hx.
  - subst x. split; [auto|]. intros _. eauto.
  - split; [auto|]. intros [E|H]; [congruence|exact H].
Qed.

Lemma liveIds_insert_dead job apps id a :
  ~ countsAsLive job a ->
  liveIds job (<[id := a]> apps) = liveIds job apps ∖ {[id]}.
Proof.
  intros Hdead. apply set_eq. intros x.
  rewrite elem_of_difference, elem_of_singleton, !elem_of_liveIds.
  rewrite lookup_insert. case_decide as Hx.
  - subst x. split.
    + intros (b & [= <-] & Hb). contradiction.
    + intros [_ Hn]. congruence.
  - split; [intros H; split; [exact H|congruence]|intros [H _]; exact H].
Qed.

Lemma liveIds_delete job apps id :
  liveIds job (delete id apps) = liveIds job apps ∖ {[id]}.
Proof.
  apply set_eq. intros x.
  rewrite elem_of_difference, elem_of_singleton, !elem_of_liveIds.
  rewrite lookup_delete. case_decide as Hx.
  - subst x. split.
    + intros (b & Hb & _). discriminate Hb.
    + intros [_ Hn]. congruence.
  - split; [intros H; split; [exact H|congruence]|intros [H _]; exact H].
Qed.

Lemma liveIds_rejectCompetitors job j id t apps :
  liveIds job (rejectCompetitors j id t apps) = liveIds job apps.
Proof.
  apply set_eq. intros x. rewrite !elem_of_liveIds.
  rewrite rejectCompetitors_lookup.
  destruct (apps !! x) as [a|]; simpl.
  - unfold competitor.
    destruct (bool_decide (app_status a = PENDING)) eqn:Hp.
    + apply bool_decide_eq_true in Hp.
      destruct (bool_decide (jobId a = j) && negb (String.eqb x id)); simpl.
      * split; intros (b & [= <-] & Hj & Hs); eexists;
          (split; [reflexivity|]); split; simpl in *;
          try assumption; congruence.
      * reflexivity.
    + rewrite andb_false_r. reflexivity.
  - split; intros (b & Hb & _); discriminate Hb.
Qed.

Lemma size_add_live (X : gset string) (id : string) :
  id ∉ X -> Z.of_nat (size ({[id]} ∪ X)) = Z.of_nat (size X) + 1.
Proof.
  intros Hx. rewrite size_union by set_solver.
  rewrite size_singleton. lia.
Qed.

Lemma size_remove_live (X : gset string) (id : string) :
  id ∈ X -> Z.of_nat (size (X ∖ {[id]})) = Z.of_nat (size X) - 1.
Proof.
  intros Hx. rewrite size_difference by set_solver.
  rewrite size_singleton.
  assert (size X <> 0%nat).
  { intros E. apply size_empty_inv in E. set_solver. }
  lia.
Qed.

(** What a successful operation does to the jobs. *)
Lemma runApplicationOp_jobs (op : ApplicationOp) (db db' : Db) :
  runApplicationOp op db = Ok db' ->
  match op with
  | AOpCreate _ data _ _ =>
      jobs db' = Job_incApplicationsCount (in_jobId data) 1 (jobs db)
  | AOpWithdraw id _ | AOpDelete id _ =>
      exists a, applications db !! id = Some a /\
                jobs db' = Job_incApplicationsCount (jobId a) (-1) (jobs db)
  | _ => jobs db' = jobs db
  end.
Proof.
  intros H. destruct op as [f data newId now|id u data|id u t1 t2|id u now
                            |id u|id u]; simpl in *.
  - unfold createApplication in H.
    destruct (jobs db !! in_jobId data) as [job|]; [|discriminate H].
    destruct (bool_decide _); [|discriminate H].
    destruct (negb _); [|discriminate H].
    destruct (Application_findOne _ _ _); [discriminate H|].
    destruct (Application_create _ _ _); [|discriminate H].
    simpl in H. injection H as <-. reflexivity.
  - unfold updateApplication in H.
    destruct (applications db !! id) as [a|]; [|discriminate H].
    destruct (String.eqb _ _); [|discriminate H].
    destruct (bool_decide _); [|discriminate H].
    destruct (Application_save _ _ _ _); [|discriminate H].
    simpl in H. injection H as <-. reflexivity.
  - unfold acceptApplication in H.
    destruct (applications db !! id) as [a|]; [|discriminate H].
    destruct (jobs db !! jobId a) as [job|]; [|discriminate H].
    destruct (String.eqb _ _); [|discriminate H].
    destruct (bool_decide _); [|discriminate H].
    destruct (bool_decide _); [|discriminate H].
    simpl in H. injection H as <-. reflexivity.
  - unfold rejectApplication in H.
    destruct (applications db !! id) as [a|]; [|discriminate H].
    destruct (jobs db !! jobId a) as [job|]; [|discriminate H].
    destruct (String.eqb _ _); [|discriminate H].
    destruct (bool_decide _); [|discriminate H].
    simpl in H. injection H as <-. reflexivity.
  - unfold withdrawApplication in H.
    destruct (applications db !! id) as [a|]; [|discriminate H].
    destruct (String.eqb _ _); [|discriminate H].
    destruct (bool_decide _); [|discriminate H].
    simpl in H. injection H as <-. eauto.
  - unfold deleteApplication in H.
    destruct (applications db !! id) as [a|]; [|discriminate H].
    destruct (String.eqb _ _); [|discriminate H].
    simpl in H. injection H as <-. eauto.
Qed.

Lemma lookup_incApplicationsCount (job j : string) (d : Z)
    (js : gmap string Job) :
  (fun x => applicationsCount (job_stats x))
    <$> Job_incApplicationsCount job d js !! j
  = (fun x => applicationsCount (job_stats x)
              + (if decide (job = j) then d else 0)) <$> js !! j.
Proof.
  unfold Job_incApplicationsCount. rewrite lookup_alter.
  case_decide; [subst|]; destruct (js !! j); simpl; try reflexivity.
  f_equal. lia.
Qed.

Lemma difference_absent (X : gset string) (id : string) :
  id ∉ X -> X ∖ {[id]} = X.
Proof.
  intros Hx. apply set_eq. intros x.
  rewrite elem_of_difference, elem_of_singleton.
  split; [tauto|]. intros H. split; [exact H|congruence].
Qed.

Lemma liveIds_insert_same job apps id a a' :
  apps !! id = Some a ->
  (countsAsLive job a' <-> countsAsLive job a) ->
  liveIds job (<[id := a']> apps) = liveIds job apps.
Proof.
  intros Ha Hiff. apply set_eq. intros x. rewrite !elem_of_liveIds.
  rewrite lookup_insert. case_decide as Hx; [|reflexivity].
  subst x. split.
  - intros (b & [= <-] & Hb). exists a. split; [exact Ha|]. tauto.
  - intros (b & Hb & Hlive). exists a'. split; [reflexivity|].
    assert (b = a) as -> by congruence. tauto.
Qed.

Lemma counter_after (job : string) (db db' : Db) (d : Z) (job' : string)
    (j' : Job) :
  counterExact job db ->
  jobs db' = Job_incApplicationsCount job' d (jobs db) ->
  jobs db' !! job = Some j' ->
  applicationsCount (job_stats j')
  = Z.of_nat (size (liveIds job (applications db)))
    + (if decide (job' = job) then d else 0).
Proof.
  intros Hinv Hjobs Hj'.
  assert (Hc : (fun x => applicationsCount (job_stats x)) <$> jobs db' !! job
               = Some (applicationsCount (job_stats j')))
    by (rewrite Hj'; reflexivity).
  rewrite Hjobs, lookup_incApplicationsCount in Hc.
  destruct (jobs db !! job) as [j0|] eqn:Hj0; [|discriminate Hc].
  simpl in Hc. injection Hc as <-. rewrite (Hinv j0 Hj0). reflexivity.
Qed.

(** X12. The counter of applications is exact as long as no withdrawn
    application is deleted: if [stats.applicationsCount] of a job equals
    the number of its applications that are not withdrawn, it still does
    after any successful create, edit, accept, reject or withdraw, and
    after the deletion of an application that is not withdrawn. *)
Theorem applicationsCount_exact
    (op : ApplicationOp) (db db' : Db) (job : string) :
  counterExact job db ->
  runApplicationOp op db = Ok db' ->
  (forall id userId a,
     op = AOpDelete id userId -> applications db !! id = Some a ->
     app_status a <> WITHDRAWN) ->
  counterExact job db'.
Proof.
  intros Hinv H Hdel j' Hj'.
  pose proof (runApplicationOp_effect _ _ _ H) as Heff.
  pose proof (runApplicationOp_jobs _ _ _ H) as Hjobs.
  destruct op as [f data newId now|id u data|id u t1 t2|id u now
                  |id u|id u]; simpl in Heff, Hjobs.
  - destruct Heff as (job0 & _ & _ & _ & Hnew & _ & ->).
    rewrite (counter_after _ _ _ _ _ _ Hinv Hjobs Hj').
    assert (Hout : newId ∉ liveIds job (applications db)).
    { rewrite elem_of_liveIds. intros (a & Ha & _). congruence. }
    case_decide as Hsame.
    + rewrite liveIds_insert_live by (split; [exact Hsame|discriminate]).
      rewrite size_add_live by exact Hout. reflexivity.
    + rewrite liveIds_insert_dead by (intros [E _]; contradiction).
      rewrite difference_absent by exact Hout. lia.
  - destruct Heff as (a & Ha & _ & _ & ->).
    rewrite (liveIds_insert_same _ _ _ a) by (exact Ha || reflexivity).
    rewrite Hjobs in Hj'. exact (Hinv _ Hj').
  - destruct Heff as (a & job0 & Ha & _ & _ & _ & Hp & ->).
    rewrite liveIds_rejectCompetitors.
    rewrite (liveIds_insert_same _ _ _ a); [|exact Ha|].
    + rewrite Hjobs in Hj'. exact (Hinv _ Hj').
    + unfold countsAsLive. simpl. rewrite Hp.
      split; intros [? _]; (split; [assumption|discriminate]).
  - destruct Heff as (a & job0 & Ha & _ & _ & Hp & ->).
    rewrite (liveIds_insert_same _ _ _ a); [|exact Ha|].
    + rewrite Hjobs in Hj'. exact (Hinv _ Hj').
    + unfold countsAsLive. simpl. rewrite Hp.
      split; intros [? _]; (split; [assumption|discriminate]).
  - destruct Heff as (a & Ha & _ & Hp & ->).
    destruct Hjobs as (a' & Ha' & Hjobs).
    assert (a' = a) as -> by congruence.
    rewrite (counter_after _ _ _ _ _ _ Hinv Hjobs Hj').
    rewrite liveIds_insert_dead
      by (intros [_ Hs]; apply Hs; reflexivity).
    case_decide as Hsame.
    + rewrite size_remove_live; [lia|].
      apply elem_of_liveIds. exists a. split; [exact Ha|].
      split; [exact Hsame|]. rewrite Hp. discriminate.
    + rewrite difference_absent; [lia|].
      rewrite elem_of_liveIds. intros (b & Hb & Hj & _). congruence.
  - destruct Heff as (a & Ha & _ & ->).
    destruct Hjobs as (a' & Ha' & Hjobs).
    assert (a' = a) as -> by congruence.
    rewrite (counter_after _ _ _ _ _ _ Hinv Hjobs Hj').
    rewrite liveIds_delete.
    case_decide as Hsame.
    + rewrite size_remove_live; [lia|].
      apply elem_of_liveIds. exists a. split; [exact Ha|].
      split; [exact Hsame|]. exact (Hdel id u a eq_refl Ha).
    + rewrite difference_absent; [lia|].
      rewrite elem_of_liveIds. intros (b & Hb & Hj & _). congruence.
Qed.

(** The job [j2] counts its one application [a4], which its applicant
    withdraws. *)
Lemma applicationsCount_exact_witness :
  exists db',
    runApplicationOp (AOpWithdraw "a4" "f2") (marketDb OPEN) = Ok db' /\
    applicationsCountOf "j2" db' = Some 0 /\
    counterExact "j2" db'.
Proof.
  destruct (runApplicationOp _ (marketDb OPEN)) as [db'|e] eqn:H;
    [|vm_compute in H; discriminate H].
  exists db'. split; [reflexivity|].
  split; [vm_compute in H; injection H as <-; vm_compute; reflexivity|].
  refine (applicationsCount_exact _ _ _ "j2" _ H _).
  - intros j Hj. vm_compute in Hj. injection Hj as <-.
    vm_compute. reflexivity.
  - intros id userId a Hop. discriminate Hop.
Defined.

End ApplicationLifecycleProperties.

(** ** The final states of a job, across the services *)

Section FinalStates.
Import JobService JobLifecycle ApplicationService ApplicationEdits.

Lemma sameButStats_refl (j : Job) : sameButStats j j.
Proof. unfold sameButStats. auto. Qed.

(** On a completed job the operations of the job service fail. *)
Lemma completed_job_ops_fail (op : JobOp) (jobId userId : string)
    (st : Store) (job : Job) :
  jobs (st_db st) !! jobId = Some job ->
  job_status job = COMPLETED ->
  exists e, runJobOp op jobId userId st = Err e.
Proof.
  intros Hjob Hst.
  destruct (runJobOp op jobId userId st) as [st'|e] eqn:Hrun; [|eauto].
  exfalso. apply runJobOp_Ok_inv in Hrun as (job' & Hjob' & _ & Htr & _).
  assert (job' = job) as -> by congruence. rewrite Hst in Htr.
  destruct op; simpl in Htr; destruct Htr as [Hb _];
    solve [discriminate Hb | apply Hb; reflexivity].
Qed.

(** On a cancelled job only cancel succeeds, and it stores the document
    it has loaded. *)
Lemma cancelled_job_ops (op : JobOp) (jobId userId : string)
    (st st' : Store) (job : Job) :
  jobs (st_db st) !! jobId = Some job ->
  job_status job = CANCELLED ->
  runJobOp op jobId userId st = Ok st' ->
  op = OpCancel /\ st' = st.
Proof.
  intros Hjob Hst Hrun.
  pose proof (runJobOp_Ok_inv _ _ _ _ _ Hrun) as (job' & Hjob' & _ & Htr & _).
  assert (job' = job) as -> by congruence. rewrite Hst in Htr.
  destruct op; simpl in Htr;
    try (destruct Htr as [Hb _]; discriminate Hb);
    try (destruct Htr as (_ & Hb & _); destruct Hb; reflexivity).
  split; [reflexivity|].
  simpl in Hrun. unfold cancelJob in Hrun. rewrite Hjob in Hrun.
  destruct (String.eqb (clientId job) userId); [|discriminate Hrun].
  rewrite Hst in Hrun. simpl in Hrun.
  destruct (saveJob _ _ _) as [st1|e] eqn:Hsave; [|discriminate Hrun].
  apply saveJob_Ok_inv in Hsave as [_ ->]. simpl in Hrun.
  injection Hrun as <-.
  destruct st as [db dates]. destruct db. simpl in *.
  unfold setJobs. simpl. f_equal. f_equal.
  apply insert_id. rewrite Hjob. f_equal.
  destruct job. simpl in *. subst. reflexivity.
Qed.

(** The application manager writes the counter of applications of a job
    and nothing else of it. *)
Lemma runApplicationOp_job (op : ApplicationOp) (db db' : Db)
    (id : string) (job : Job) :
  runApplicationOp op db = Ok db' ->
  jobs db !! id = Some job ->
  exists job', jobs db' !! id = Some job' /\ sameButStats job job'.
Proof.
  intros H Hjob. apply runApplicationOp_jobs in H.
  assert (Hinc : forall j d,
            exists job',
              Job_incApplicationsCount j d (jobs db) !! id = Some job' /\
              sameButStats job job').
  { intros j d. unfold Job_incApplicationsCount. rewrite lookup_alter.
    case_decide; simplify_eq; rewrite Hjob; simpl; eexists;
      (split; [reflexivity|]); unfold sameButStats; auto. }
  destruct op; try destruct H as (a & _ & H); rewrite H;
    solve [apply Hinc | exists job; split; [exact Hjob|apply sameButStats_refl]].
Qed.

(** X2. Completed and cancelled are final. On a completed job
    publishJob, assignFreelancer, completeJob, cancelJob, deleteJob and
    updateJob all fail; on a cancelled job the only one of them that
    succeeds is cancelJob, and it changes nothing. And none of the
    methods that write jobs (these six, createJob, getJobById and the
    six writers of the application service) removes a completed or
    cancelled job or changes its status, its title, its client, its
    assignment, its details or its dates: they change its stats at
    most. *)
Theorem job_final_states (jobId : string) (st : Store) (job : Job) :
  jobs (st_db st) !! jobId = Some job ->
  (job_status job = COMPLETED ->
   forall op userId, exists e, runJobOp op jobId userId st = Err e) /\
  (job_status job = CANCELLED ->
   forall op userId st',
     runJobOp op jobId userId st = Ok st' -> op = OpCancel /\ st' = st) /\
  (isFinal (job_status job) ->
   forall op st',
     runServiceOp op st = Ok st' ->
     exists job',
       jobs (st_db st') !! jobId = Some job' /\
       sameButStats job job' /\
       datesOf jobId st' = datesOf jobId st).
Proof.
  intros Hjob. split; [|split].
  - intros Hst op userId. eapply completed_job_ops_fail; eauto.
  - intros Hst op userId st'. eapply cancelled_job_ops; eauto.
  - intros Hfinal op st' Hrun.
    destruct op as [op jobId' userId|jobId' inc|client data newId|op];
      simpl in Hrun.
    + destruct (decide (jobId' = jobId)) as [->|Hne].
      * destruct Hfinal as [Hst|Hst].
        -- destruct (completed_job_ops_fail op jobId userId st job Hjob Hst)
             as [e He]. congruence.
        -- destruct (cancelled_job_ops op jobId userId st st' job Hjob Hst
                       Hrun) as [_ ->].
           exists job. split; [exact Hjob|].
           split; [apply sameButStats_refl|reflexivity].
      * apply runJobOp_Ok_inv in Hrun as (_ & _ & _ & _ & Hj & Hd & _).
        exists job. rewrite Hj, Hd by congruence.
        split; [exact Hjob|]. split; [apply sameButStats_refl|reflexivity].
    + unfold getJobById in Hrun.
      destruct (jobs (st_db st) !! jobId') as [job0|] eqn:Hjob0;
        [|discriminate Hrun].
      destruct inc.
      * destruct (saveJob _ _ _) as [st1|e] eqn:Hsave; [|discriminate Hrun].
        apply saveJob_Ok_inv in Hsave as [_ ->]. simpl in Hrun.
        injection Hrun as <-. unfold datesOf. simpl.
        destruct (decide (jobId' = jobId)) as [->|Hne].
        -- rewrite lookup_insert_eq. assert (job0 = job) as -> by congruence.
           eexists. split; [reflexivity|]. split; [|reflexivity].
           unfold sameButStats. auto.
        -- rewrite lookup_insert_ne by exact Hne. exists job.
           split; [exact Hjob|]. split; [apply sameButStats_refl|reflexivity].
      * simpl in Hrun. injection Hrun as <-. exists job.
        split; [exact Hjob|]. split; [apply sameButStats_refl|reflexivity].
    + unfold createJob in Hrun.
      destruct (validateDocument _ _ _); [|discriminate Hrun]. simpl in Hrun.
      destruct (jobs (st_db st) !! newId) eqn:Hnew; [discriminate Hrun|].
      simpl in Hrun. injection Hrun as <-. unfold datesOf. simpl.
      rewrite lookup_insert_ne by congruence. exists job.
      split; [exact Hjob|]. split; [apply sameButStats_refl|reflexivity].
    + destruct (runApplicationOp op (st_db st)) as [db'|e] eqn:Hop;
        [|discriminate Hrun].
      simpl in Hrun. injection Hrun as <-.
      destruct (runApplicationOp_job op _ _ jobId job Hop Hjob)
        as (job' & Hjob' & Hsame).
      exists job'. split; [exact Hjob'|]. split; [exact Hsame|reflexivity].
Qed.

(** A completed job is still viewed, and its views are counted: the
    stats are what can still change. *)
Lemma job_final_states_witness :
  exists st' job',
    runServiceOp (SView "j1" true) (exampleStore COMPLETED) = Ok st' /\
    jobs (st_db st') !! "j1" = Some job' /\
    job_status job' = COMPLETED /\
    views (job_stats job') = 1.
Proof.
  destruct (runServiceOp (SView "j1" true) (exampleStore COMPLETED))
    as [st'|e] eqn:Hrun; [|vm_compute in Hrun; discriminate Hrun].
  destruct (job_final_states "j1" (exampleStore COMPLETED)
              (exampleJob COMPLETED 3) eq_refl) as (_ & _ & Hkept).
  destruct (Hkept (or_introl eq_refl) _ _ Hrun)
    as (job' & Hjob' & (_ & _ & Hst & _) & _).
  exists st', job'. split; [reflexivity|]. split; [exact Hjob'|].
  split; [exact Hst|].
  vm_compute in Hrun. injection Hrun as <-.
  vm_compute in Hjob'. injection Hjob' as <-. reflexivity.
Defined.

End FinalStates.

(** ** Registration, login and sessions *)

Section SessionProperties.
Import AuthService AuthSessions.

Variable bcrypt_compare : string -> string -> bool.
Variable bcrypt_hash : string -> string -> string.
Variable generateTokens : string -> string -> UserRole -> string * string.
Variable verifyToken : string -> TokenType -> option JWTPayload.

Lemma User_findOne_email_spec (e : string) (us : gmap string User)
    (id : string) (user : User) :
  User_findOne_email e us = Some (id, user) ->
  us !! id = Some user /\ email user = e.
Proof.
  unfold User_findOne_email. intros H. apply find_some in H as [Hin He].
  apply list_elem_of_In in Hin. apply elem_of_map_to_list in Hin.
  simpl in He. apply String.eqb_eq in He. auto.
Qed.

Lemma User_findOne_email_None (e : string) (us : gmap string User)
    (id : string) (user : User) :
  User_findOne_email e us = None -> us !! id = Some user -> email user <> e.
Proof.
  unfold User_findOne_email. intros H Hl He.
  pose proof (find_none _ _ H (id, user)) as Hf. simpl in Hf.
  rewrite He, String.eqb_refl in Hf. discriminate Hf.
  apply list_elem_of_In. apply elem_of_map_to_list. exact Hl.
Qed.

(** Under the unique index, the lookup by e-mail finds the user. *)
Lemma User_findOne_email_unique (us : gmap string User) (id : string)
    (user : User) :
  uniqueEmails us -> us !! id = Some user ->
  User_findOne_email (email user) us = Some (id, user).
Proof.
  intros Huniq Hl.
  destruct (User_findOne_email (email user) us) as [[id' user']|] eqn:Hf.
  - apply User_findOne_email_spec in Hf as [Hl' He].
    assert (id' = id) as -> by (eapply Huniq; eauto).
    congruence.
  - exfalso. exact (User_findOne_email_None _ _ _ _ Hf Hl eq_refl).
Qed.

Lemma withoutToken_spec (t x : string) (tokens : list string) :
  x ∈ withoutToken t tokens <-> x ∈ tokens /\ x <> t.
Proof using.
  unfold withoutToken. rewrite list_elem_of_filter.
  split; intros [H1 H2]; split; assumption.
Qed.

Lemma withoutToken_length (t : string) (tokens : list string) :
  t ∈ tokens ->
  (length (withoutToken t tokens) < length tokens)%nat.
Proof using.
  unfold withoutToken. induction tokens as [|x l IH]; intros Hin.
  - apply elem_of_nil in Hin. destruct Hin.
  - rewrite filter_cons. case_decide as Hx; simpl.
    + apply elem_of_cons in Hin as [E|Hin]; [congruence|].
      specialize (IH Hin). lia.
    + pose proof (length_filter (fun token => token <> t) l). lia.
Qed.

(** [login] succeeds for a stored user whose password matches and whose
    account is neither suspended nor deleted. *)
Lemma login_accepts
    (data : LoginInput) (now : Z) (db : Db) :
  uniqueEmails (users db) ->
  (exists id user,
     users db !! id = Some user /\ email user = li_email data /\
     bcrypt_compare (li_password data) (password user) = true /\
     accountStatus user <> ACC_SUSPENDED /\
     accountStatus user <> ACC_DELETED) ->
  exists r, login bcrypt_compare generateTokens data now db = Ok r.
Proof.
  intros Huniq (id & user & Hl & He & Hpw & Hs & Hd). unfold login.
  rewrite <- He, (User_findOne_email_unique _ _ _ Huniq Hl), Hpw.
  rewrite !bool_decide_eq_false_2 by assumption. simpl. eauto.
Qed.

(** X13. Under the unique index on the e-mail, [login] succeeds exactly
    when a user has the given e-mail, the password matches the stored
    hash and the account is neither suspended nor deleted (a pending,
    unverified account does log in); it then appends the new refresh
    token to the tokens of that user, sets [lastLoginAt] and writes
    nothing else. *)
Theorem login_succeeds_exactly_when
    (data : LoginInput) (now : Z) (db : Db) :
  uniqueEmails (users db) ->
  ((exists r db',
      login bcrypt_compare generateTokens data now db = Ok (r, db')) <->
   (exists id user,
      users db !! id = Some user /\ email user = li_email data /\
      bcrypt_compare (li_password data) (password user) = true /\
      accountStatus user <> ACC_SUSPENDED /\
      accountStatus user <> ACC_DELETED)) /\
  (forall r db',
     login bcrypt_compare generateTokens data now db = Ok (r, db') ->
     exists id user,
       users db !! id = Some user /\
       lr_user r = recordLogin (lr_refreshToken r) now user /\
       db' = setUsers (<[id := lr_user r]> (users db)) db).
Proof.
  intros Huniq. unfold login. split; [split|].
  - intros (r & db' & H).
    destruct (User_findOne_email _ _) as [[id user]|] eqn:Hf;
      [|discriminate H].
    apply User_findOne_email_spec in Hf as [Hl He].
    destruct (bcrypt_compare _ _) eqn:Hpw; [|discriminate H].
    case_bool_decide as Hs; [discriminate H|].
    case_bool_decide as Hd; [discriminate H|].
    exists id, user. auto.
  - intros (id & user & Hl & He & Hpw & Hs & Hd).
    rewrite <- He, (User_findOne_email_unique _ _ _ Huniq Hl), Hpw.
    rewrite !bool_decide_eq_false_2 by assumption. simpl. eauto.
  - intros r db' H.
    destruct (User_findOne_email _ _) as [[id user]|] eqn:Hf;
      [|discriminate H].
    apply User_findOne_email_spec in Hf as [Hl He].
    destruct (bcrypt_compare _ _); [|discriminate H].
    destruct (negb _); [|discriminate H].
    destruct (negb _); [|discriminate H].
    injection H as <- <-. exists id, user. auto.
Qed.

Lemma singleton_uniqueEmails (id : string) (u : User) :
  uniqueEmails {[ id := u ]}.
Proof.
  intros id1 id2 u1 u2 H1 H2 _.
  apply lookup_singleton_Some in H1 as [<- _].
  apply lookup_singleton_Some in H2 as [<- _]. reflexivity.
Qed.

Lemma emails_kept_unique (us us' : gmap string User) :
  (forall id u', us' !! id = Some u' ->
     exists u, us !! id = Some u /\ email u = email u') ->
  uniqueEmails us -> uniqueEmails us'.
Proof.
  intros Hkept Huniq id1 id2 u1 u2 H1 H2 He.
  destruct (Hkept _ _ H1) as (v1 & Hv1 & He1).
  destruct (Hkept _ _ H2) as (v2 & Hv2 & He2).
  apply (Huniq id1 id2 v1 v2); congruence.
Qed.

Lemma insert_same_email_unique (us : gmap string User) (id : string)
    (u u' : User) :
  us !! id = Some u -> email u' = email u ->
  uniqueEmails us -> uniqueEmails (<[id := u']> us).
Proof.
  intros Hl He. apply emails_kept_unique. intros id0 v'.
  rewrite lookup_insert. case_decide as Hid.
  - intros [= <-]. subst id0. exists u. auto.
  - intros Hv. exists v'. auto.
Qed.

Lemma insert_new_email_unique (us : gmap string User) (id : string)
    (u' : User) :
  User_findOne_email (email u') us = None ->
  uniqueEmails us -> uniqueEmails (<[id := u']> us).
Proof.
  intros Hnone Huniq id1 id2 u1 u2. rewrite !lookup_insert.
  repeat case_decide; subst; intros H1 H2 He; simplify_eq.
  - reflexivity.
  - exfalso. eapply User_findOne_email_None; eauto.
  - exfalso. eapply User_findOne_email_None; eauto.
  - eapply Huniq; eauto.
Qed.

(** What a successful [register] has stored. *)
Lemma register_Ok_inv (data : RegisterInput) (newId salt : string)
    (db db1 : Db) (r : LoginResult) :
  register bcrypt_hash generateTokens data newId salt db = Ok (r, db1) ->
  User_findOne_email (ri_email data) (users db) = None /\
  users db !! newId = None /\
  emailMatches (ri_email data) = true /\
  (8 <= String.length (ri_password data))%nat /\
  lr_user r
  = mkUser (ri_email data) (bcrypt_hash (ri_password data) salt)
      (ri_role data) ACC_PENDING defaultGamification (mkUserStats 0 0)
      [lr_refreshToken r] None /\
  lr_refreshToken r
  = (generateTokens newId (ri_email data) (ri_role data)).2 /\
  db1 = setUsers (<[newId := lr_user r]> (users db)) db.
Proof.
  unfold register. intros H.
  destruct (User_findOne_email _ _) eqn:Hf; [discriminate H|].
  destruct (emailMatches _) eqn:Hm; [|discriminate H].
  destruct (Z.leb_spec 8 (Z.of_nat (String.length (ri_password data))));
    [|discriminate H].
  destruct (negb (isBlank (ri_firstName data))); [|discriminate H].
  destruct (negb (isBlank (ri_lastName data))); [|discriminate H].
  destruct (users db !! newId) eqn:Hnew; [discriminate H|].
  injection H as <- <-. simpl. repeat split; auto. lia.
Qed.

(** X14. Registration and login are a round trip: after a successful
    [register], the new account is stored pending with the schema
    defaults and its hashed password, the e-mails are still unique, and
    a [login] with the same e-mail and password succeeds (the hash
    comparing equal to its own preimage), leaving the account with the
    refresh tokens of the two calls. *)
Theorem register_then_login
    (data : RegisterInput) (newId salt : string) (now : Z)
    (db db1 : Db) (r : LoginResult) :
  register bcrypt_hash generateTokens data newId salt db = Ok (r, db1) ->
  uniqueEmails (users db) ->
  bcrypt_compare (ri_password data)
    (bcrypt_hash (ri_password data) salt) = true ->
  uniqueEmails (users db1) /\
  users db1 !! newId = Some (lr_user r) /\
  accountStatus (lr_user r) = ACC_PENDING /\
  gamification (lr_user r) = defaultGamification /\
  exists r2 db2,
    login bcrypt_compare generateTokens
      (mkLoginInput (ri_email data) (ri_password data)) now db1
    = Ok (r2, db2) /\
    refreshTokens (lr_user r2) = [lr_refreshToken r; lr_refreshToken r2].
Proof.
  intros H Huniq Hpw.
  apply register_Ok_inv in H as (Hf & Hnew & _ & _ & Hu & Ht & ->).
  assert (Huniq1 : uniqueEmails (<[newId := lr_user r]> (users db))).
  { apply insert_new_email_unique; [|exact Huniq]. rewrite Hu. exact Hf. }
  simpl. split; [exact Huniq1|].
  split; [apply lookup_insert_eq|].
  split; [rewrite Hu; reflexivity|]. split; [rewrite Hu; reflexivity|].
  unfold login. simpl.
  assert (He : ri_email data = email (lr_user r)) by (rewrite Hu; reflexivity).
  rewrite He.
  rewrite (User_findOne_email_unique _ newId (lr_user r) Huniq1)
    by apply lookup_insert_eq.
  rewrite Hu. simpl. rewrite Hpw. simpl.
  do 2 eexists. split; [reflexivity|]. reflexivity.
Qed.

(** X15. An e-mail that a stored user already has cannot be registered
    again: [register] fails with the Conflict 409, before any of the
    submitted fields is validated and whatever they are. *)
Theorem register_email_taken
    (data : RegisterInput) (newId salt : string) (db : Db)
    (id : string) (u : User) :
  users db !! id = Some u ->
  email u = ri_email data ->
  register bcrypt_hash generateTokens data newId salt db
  = Err (AppError 409 "CONFLICT") /\
  isConflict (AppError 409 "CONFLICT") = true.
Proof.
  intros Hl He. unfold register.
  destruct (User_findOne_email _ _) eqn:Hf; [split; reflexivity|].
  exfalso. exact (User_findOne_email_None _ _ _ _ Hf Hl He).
Qed.

(** X16. The uniqueness of the e-mail, which the unique index declares,
    is an invariant of the authentication service: register, login,
    logout, token refresh and password change keep the e-mails of the
    stored users pairwise distinct. *)
Theorem session_ops_unique_emails (op : SessionOp) (db db' : Db) :
  runSessionOp bcrypt_compare bcrypt_hash generateTokens verifyToken op db
  = Ok db' ->
  uniqueEmails (users db) ->
  uniqueEmails (users db').
Proof.
  intros H Huniq.
  destruct op as [data newId salt|data now|userId t|t|userId data salt];
    simpl in H.
  - destruct (register _ _ _ _ _ _) as [[r db1]|e] eqn:Hr; [|discriminate H].
    simpl in H. injection H as <-.
    apply register_Ok_inv in Hr as (Hf & _ & _ & _ & Hu & _ & ->).
    simpl. apply insert_new_email_unique; [|exact Huniq].
    rewrite Hu. exact Hf.
  - destruct (login _ _ _ _ _) as [[r db1]|e] eqn:Hr; [|discriminate H].
    simpl in H. injection H as <-.
    unfold login in Hr.
    destruct (User_findOne_email _ _) as [[id user]|] eqn:Hf;
      [|discriminate Hr].
    apply User_findOne_email_spec in Hf as [Hl _].
    destruct (bcrypt_compare _ _); [|discriminate Hr].
    destruct (negb _); [|discriminate Hr].
    destruct (negb _); [|discriminate Hr].
    injection Hr as <- <-. simpl.
    eapply insert_same_email_unique; eauto.
  - unfold logout in H.
    destruct (users db !! userId) as [user|] eqn:Hl; [|discriminate H].
    injection H as <-. simpl.
    eapply insert_same_email_unique; eauto.
  - destruct (refreshAccessToken _ _ _ _) as [[r db1]|e] eqn:Hr;
      [|discriminate H].
    simpl in H. injection H as <-.
    unfold refreshAccessToken in Hr.
    destruct (verifyToken t REFRESH) as [payload|]; [|discriminate Hr].
    destruct (users db !! jwt_userId payload) as [user|] eqn:Hl;
      [|discriminate Hr].
    destruct (bool_decide _); [|discriminate Hr].
    injection Hr as <- <-. simpl.
    eapply insert_same_email_unique; eauto.
  - unfold changePassword in H.
    destruct (users db !! userId) as [user|] eqn:Hl; [|discriminate H].
    destruct (bcrypt_compare _ _); [|discriminate H].
    destruct (8 <=? _); [|discriminate H].
    injection H as <-. simpl.
    eapply insert_same_email_unique; eauto.
Qed.

(** X17. Logout revokes the refresh token: it removes every occurrence
    of the token from the tokens of the user and keeps the others, in
    order; a later [refreshAccessToken] with that token, if it was
    issued to this user, fails with Unauthorized. The other users are
    not written. *)
Theorem logout_revokes
    (userId refreshToken : string) (db db' : Db) :
  logout userId refreshToken db = Ok db' ->
  (exists tokens,
     refreshTokensOf userId db = Some tokens /\
     refreshTokensOf userId db' = Some (withoutToken refreshToken tokens) /\
     (refreshToken ∉ withoutToken refreshToken tokens) /\
     (forall x, x <> refreshToken ->
                (x ∈ withoutToken refreshToken tokens <-> x ∈ tokens))) /\
  (forall payload,
     verifyToken refreshToken REFRESH = Some payload ->
     jwt_userId payload = userId ->
     refreshAccessToken generateTokens verifyToken refreshToken db'
     = Err UnauthorizedError) /\
  (forall id, id <> userId -> users db' !! id = users db !! id).
Proof using generateTokens verifyToken.
  unfold logout, refreshTokensOf. intros H.
  destruct (users db !! userId) as [user|] eqn:Hl; [|discriminate H].
  injection H as <-. simpl. split; [|split].
  - exists (refreshTokens user). rewrite lookup_insert_eq. simpl.
    split; [reflexivity|]. split; [reflexivity|]. split.
    + rewrite withoutToken_spec. intros [_ Hx]. apply Hx. reflexivity.
    + intros x Hx. rewrite withoutToken_spec.
      split; [intros [Hin _]; exact Hin|intros Hin; split; assumption].
  - intros payload Hv Hp. unfold refreshAccessToken.
    rewrite Hv, Hp. simpl. rewrite lookup_insert_eq. simpl.
    rewrite bool_decide_eq_false_2; [reflexivity|].
    rewrite withoutToken_spec. intros [_ Hx]. apply Hx. reflexivity.
  - intros id Hne. apply lookup_insert_ne. intros E. apply Hne.
    symmetry. exact E.
Qed.

(** X18. Token refresh rotates the refresh token: it succeeds only for a
    token that verifies and is among the tokens of its user; it removes
    that token and appends the new one, so the number of tokens does not
    grow; and when the new token differs from the old one, the old one
    is refused with Unauthorized from then on. *)
Theorem refresh_rotates
    (refreshToken : string) (db db' : Db) (tokens : string * string) :
  refreshAccessToken generateTokens verifyToken refreshToken db
  = Ok (tokens, db') ->
  exists payload user,
    verifyToken refreshToken REFRESH = Some payload /\
    users db !! jwt_userId payload = Some user /\
    refreshToken ∈ refreshTokens user /\
    refreshTokensOf (jwt_userId payload) db'
    = Some (withoutToken refreshToken (refreshTokens user) ++ [tokens.2])%list /\
    (length (withoutToken refreshToken (refreshTokens user) ++ [tokens.2])
     <= length (refreshTokens user))%nat /\
    (tokens.2 <> refreshToken ->
     refreshAccessToken generateTokens verifyToken refreshToken db'
     = Err UnauthorizedError).
Proof using generateTokens verifyToken.
  unfold refreshAccessToken at 1. intros H.
  destruct (verifyToken refreshToken REFRESH) as [payload|] eqn:Hv;
    [|discriminate H].
  destruct (users db !! jwt_userId payload) as [user|] eqn:Hl;
    [|discriminate H].
  case_bool_decide as Hin; [|discriminate H].
  injection H as <- <-. exists payload, user.
  split; [reflexivity|]. split; [exact Hl|]. split; [exact Hin|].
  unfold refreshTokensOf. simpl. rewrite lookup_insert_eq. simpl.
  split; [reflexivity|]. split.
  - rewrite length_app. simpl.
    pose proof (withoutToken_length _ _ Hin). lia.
  - intros Hne. unfold refreshAccessToken. rewrite Hv. simpl.
    rewrite lookup_insert_eq. simpl.
    rewrite bool_decide_eq_false_2; [reflexivity|].
    rewrite elem_of_app, withoutToken_spec, list_elem_of_singleton.
    intros [[_ Hx]|Hx]; [apply Hx; reflexivity|].
    apply Hne. symmetry. exact Hx.
Qed.

(** X19. A password change closes every session: it succeeds only when
    the current password matches, stores the hash of the new password
    and empties the refresh tokens, so that every refresh token issued
    to the user is refused afterwards; and a login with the new password
    succeeds (the hash comparing equal to its own preimage, the e-mails
    being unique and the account neither suspended nor deleted). *)
Theorem changePassword_closes_sessions
    (userId salt : string) (data : ChangePasswordInput) (db db' : Db) :
  changePassword bcrypt_compare bcrypt_hash userId data salt db = Ok db' ->
  exists user,
    users db !! userId = Some user /\
    bcrypt_compare (cp_currentPassword data) (password user) = true /\
    refreshTokensOf userId db' = Some [] /\
    (forall t payload,
       verifyToken t REFRESH = Some payload ->
       jwt_userId payload = userId ->
       refreshAccessToken generateTokens verifyToken t db'
       = Err UnauthorizedError) /\
    (forall now,
       uniqueEmails (users db) ->
       cp_newPassword data <> password user ->
       bcrypt_compare (cp_newPassword data)
         (bcrypt_hash (cp_newPassword data) salt) = true ->
       accountStatus user <> ACC_SUSPENDED ->
       accountStatus user <> ACC_DELETED ->
       exists r db2,
         login bcrypt_compare generateTokens
           (mkLoginInput (email user) (cp_newPassword data)) now db'
         = Ok (r, db2)).
Proof.
  unfold changePassword. intros H.
  destruct (users db !! userId) as [user|] eqn:Hl; [|discriminate H].
  destruct (bcrypt_compare (cp_currentPassword data) (password user)) eqn:Hc;
    [|discriminate H].
  destruct (8 <=? _); [|discriminate H].
  injection H as <-. exists user.
  split; [reflexivity|]. split; [exact Hc|].
  unfold refreshTokensOf. simpl. rewrite lookup_insert_eq. simpl.
  split; [reflexivity|]. split.
  - intros t payload Hv Hp. unfold refreshAccessToken.
    rewrite Hv, Hp. simpl. rewrite lookup_insert_eq. simpl.
    reflexivity.
  - intros now Huniq Hnew Hpw Hs Hd.
    destruct (String.eqb_spec (cp_newPassword data) (password user));
      [contradiction|].
    set (user' := setRefreshTokens [] _).
    assert (Hu' : uniqueEmails (<[userId := user']> (users db))).
    { eapply insert_same_email_unique; eauto. }
    destruct (login_accepts
                (mkLoginInput (email user) (cp_newPassword data)) now
                (setUsers (<[userId := user']> (users db)) db))
      as [[r db2] Hr]; [exact Hu'| |eauto].
    exists userId, user'. simpl. rewrite lookup_insert_eq.
    repeat split; auto.
Qed.

End SessionProperties.

Lemma login_succeeds_exactly_when_witness :
  exists r db',
    AuthService.login exampleCompare exampleTokens
      (AuthService.mkLoginInput "ana@example.com" "hash") 700
      (exampleDb defaultGamification []) = Ok (r, db').
Proof.
  destruct (login_succeeds_exactly_when exampleCompare exampleTokens
              (AuthService.mkLoginInput "ana@example.com" "hash") 700
              (exampleDb defaultGamification [])) as [[_ Hok] _].
  - apply singleton_uniqueEmails.
  - apply Hok. exists "u1", (exampleUser defaultGamification).
    repeat split; try reflexivity; discriminate.
Defined.

Lemma register_then_login_witness :
  exists r2 db2,
    AuthService.login exampleCompare exampleTokens
      (AuthService.mkLoginInput "bea@example.com" "s3cret-pass") 900
      (setUsers
         (<["u2" := AuthService.lr_user
              (AuthService.mkLoginResult
                 (mkUser "bea@example.com" "$2a$12$s3cret-pass" CLIENT
                    ACC_PENDING defaultGamification (mkUserStats 0 0)
                    ["refresh.u2"] None) "access.u2" "refresh.u2")]>
            (users (sessionDb [])))
         (sessionDb []))
    = Ok (r2, db2).
Proof.
  destruct (register_then_login exampleCompare exampleHash exampleTokens
              exampleRegistration "u2" "salt" 900 (sessionDb []) _ _
              eq_refl (singleton_uniqueEmails _ _) eq_refl)
    as (_ & _ & _ & _ & r2 & db2 & H & _).
  exists r2, db2. exact H.
Defined.

Lemma register_email_taken_witness :
  AuthSessions.register exampleHash exampleTokens
    (AuthSessions.mkRegisterInput "ana@example.com" "" "" "" CLIENT)
    "u2" "salt" (sessionDb [])
  = Err (AppError 409 "CONFLICT").
Proof.
  exact (proj1 (register_email_taken exampleHash exampleTokens
                  (AuthSessions.mkRegisterInput "ana@example.com" "" "" ""
                     CLIENT)
                  "u2" "salt" (sessionDb []) "u1" _ eq_refl eq_refl)).
Defined.

Lemma session_ops_unique_emails_witness :
  exists db',
    runSessionOp exampleCompare exampleHash exampleTokens exampleVerify
      (SOpRegister exampleRegistration "u2" "salt") (sessionDb [])
    = Ok db' /\
    uniqueEmails (users db').
Proof.
  eexists. split; [reflexivity|].
  exact (session_ops_unique_emails exampleCompare exampleHash exampleTokens
           exampleVerify (SOpRegister exampleRegistration "u2" "salt")
           (sessionDb []) _ eq_refl (singleton_uniqueEmails _ _)).
Defined.

Lemma logout_revokes_witness :
  exists db',
    AuthSessions.logout "u1" "refresh.u1" (sessionDb ["refresh.u1"; "other"])
    = Ok db' /\
    refreshTokensOf "u1" db' = Some ["other"] /\
    AuthSessions.refreshAccessToken exampleFreshTokens exampleVerify
      "refresh.u1" db'
    = Err UnauthorizedError.
Proof.
  eexists. split; [reflexivity|].
  destruct (logout_revokes exampleFreshTokens exampleVerify "u1" "refresh.u1"
              (sessionDb ["refresh.u1"; "other"]) _ eq_refl)
    as ((tokens & Hbefore & Hafter & _) & Hrefused & _).
  injection Hbefore as <-. split; [exact Hafter|].
  exact (Hrefused _ eq_refl eq_refl).
Defined.

Lemma refresh_rotates_witness :
  exists tokens db',
    AuthSessions.refreshAccessToken exampleFreshTokens exampleVerify
      "refresh.u1" (sessionDb ["refresh.u1"; "other"])
    = Ok (tokens, db') /\
    refreshTokensOf "u1" db' = Some ["other"; "refresh2.u1"] /\
    AuthSessions.refreshAccessToken exampleFreshTokens exampleVerify
      "refresh.u1" db'
    = Err UnauthorizedError.
Proof.
  do 2 eexists. split; [reflexivity|].
  destruct (refresh_rotates exampleFreshTokens exampleVerify "refresh.u1"
              (sessionDb ["refresh.u1"; "other"]) _ _ eq_refl)
    as (payload & user & Hv & Hl & _ & Hnew & _ & Hold).
  injection Hv as <-. injection Hl as <-.
  split; [exact Hnew|]. apply Hold. discriminate.
Defined.

Lemma changePassword_closes_sessions_witness :
  exists db',
    AuthSessions.changePassword exampleCompare exampleHash "u1"
      examplePasswordChange "salt" (sessionDb ["refresh.u1"])
    = Ok db' /\
    refreshTokensOf "u1" db' = Some [] /\
    exists r db2,
      AuthService.login exampleCompare exampleTokens
        (AuthService.mkLoginInput "ana@example.com" "another-pass") 900 db'
      = Ok (r, db2).
Proof.
  eexists. split; [reflexivity|].
  destruct (changePassword_closes_sessions exampleCompare exampleHash
              exampleTokens exampleVerify "u1" "salt" examplePasswordChange
              (sessionDb ["refresh.u1"]) _ eq_refl)
    as (user & Hl & _ & Hnone & _ & Hlogin).
  injection Hl as <-. split; [exact Hnone|].
  apply (Hlogin 900).
  - apply singleton_uniqueEmails.
  - discriminate.
  - reflexivity.
  - discriminate.
  - discriminate.
Defined.

(** ** The orchestrator: points accounting and what it leaves alone *)

Section Accounting.
Import GamificationService.

(** A successful [recordActivity] in terms of the achievements it
    unlocks. *)
Lemma recordActivity_unlocked userId type md date now db db' user :
  users db !! userId = Some user ->
  recordActivity userId type md date now db = Ok db' ->
  exists p unlocked,
    assoc type specPointsTable = Some p /\
    users db' !! userId
    = Some (applyActivity p now (achievementCatalog db) user) /\
    Forall (fun a => a ∈ achievementCatalog db /\ isActive a = true /\
                     ach_id a ∉ achievements (gamification user)) unlocked /\
    NoDup (map ach_id unlocked) /\
    achievements
      (gamification (applyActivity p now (achievementCatalog db) user))
    = (achievements (gamification user) ++ map ach_id unlocked)%list /\
    totalPoints
      (gamification (applyActivity p now (achievementCatalog db) user))
    = totalPoints (gamification user) + p + sumPoints unlocked.
Proof.
  intros Hu H.
  apply recordActivity_Ok_inv in H as (user0 & p & Hu0 & Hin & Hp & _ & ->).
  assert (user0 = user) as -> by congruence.
  destruct (getPointsForActivity_known type Hin) as (p' & Hassoc & Hp' & _).
  assert (p' = p) as -> by congruence.
  set (u0 := setGamification
               (setTotalPoints (totalPoints (gamification user) + p)
                  (gamification user)) user).
  destruct (updateStreak_frame now u0) as (Hpts & _ & Hachs & _).
  destruct (evaluate_unlocked (fun _ => True)
              (activeAchievements (achievementCatalog db))
              (updateStreak now u0)) as (unlocked & Hev & Hall & Hnd); [auto|].
  exists p, unlocked. split; [exact Hassoc|].
  split; [simpl; apply lookup_insert_eq|].
  unfold applyActivity, checkAchievements. fold u0. rewrite Hev. simpl.
  rewrite grantAll_achievements, grantAll_totalPoints, Hpts, Hachs.
  repeat split; try assumption; try reflexivity.
  eapply Forall_impl; [exact Hall|]. simpl. intros a (Ha & _ & Hno).
  apply activeAchievements_elem in Ha as [Hact Hcat].
  rewrite Hachs in Hno. auto.
Qed.

(** X20. The points of a user are accounted for: a successful
    [recordActivity] raises [totalPoints] by the points of the activity
    type plus the bonus of each achievement it unlocks, and appends the
    ids of exactly these achievements, which are active entries of the
    catalog that the user did not hold. *)
Theorem recordActivity_points_accounting
    (userId type : string) (md : option string) (date now : Z)
    (db db' : Db) (user : User) :
  users db !! userId = Some user ->
  recordActivity userId type md date now db = Ok db' ->
  exists p unlocked user',
    assoc type specPointsTable = Some p /\
    users db' !! userId = Some user' /\
    Forall (fun a => a ∈ achievementCatalog db /\ isActive a = true /\
                     ach_id a ∉ achievements (gamification user)) unlocked /\
    achievements (gamification user')
    = (achievements (gamification user) ++ map ach_id unlocked)%list /\
    totalPoints (gamification user')
    = totalPoints (gamification user) + p + sumPoints unlocked.
Proof.
  intros Hu H.
  destruct (recordActivity_unlocked _ _ _ _ _ _ _ _ Hu H)
    as (p & unlocked & Hp & Hu' & Hall & _ & Hachs & Hpts).
  exists p, unlocked. eexists. eauto.
Qed.

(** X21. No achievement is granted twice: if the achievements of a user
    hold no id twice, they hold none twice after a successful
    [recordActivity], whatever the catalog (be it with repeated ids). *)
Theorem recordActivity_achievements_NoDup
    (userId type : string) (md : option string) (date now : Z)
    (db db' : Db) (user : User) :
  users db !! userId = Some user ->
  NoDup (achievements (gamification user)) ->
  recordActivity userId type md date now db = Ok db' ->
  exists user',
    users db' !! userId = Some user' /\
    NoDup (achievements (gamification user')) /\
    achievements (gamification user) ⊆ achievements (gamification user').
Proof.
  intros Hu Hnd H.
  destruct (recordActivity_unlocked _ _ _ _ _ _ _ _ Hu H)
    as (p & unlocked & _ & Hu' & Hall & Hndu & Hachs & _).
  eexists. split; [exact Hu'|]. rewrite Hachs. split.
  - apply NoDup_app. split; [exact Hnd|]. split; [|exact Hndu].
    intros x Hx Hx'. apply list_elem_of_fmap in Hx' as (a & -> & Ha).
    rewrite Forall_forall in Hall. destruct (Hall a Ha) as (_ & _ & Hno).
    contradiction.
  - intros x Hx. apply elem_of_app. left. exact Hx.
Qed.

(** X22. A successful [recordActivity] writes the ledger and the
    gamification of the one user, and nothing else: the jobs, the
    applications, the catalog and the other users are as before, and of
    the user the credentials, the role, the status, the stats and the
    sessions are. *)
Theorem recordActivity_frame
    (userId type : string) (md : option string) (date now : Z)
    (db db' : Db) :
  recordActivity userId type md date now db = Ok db' ->
  jobs db' = jobs db /\
  applications db' = applications db /\
  achievementCatalog db' = achievementCatalog db /\
  (forall id, id <> userId -> users db' !! id = users db !! id) /\
  exists user user',
    users db !! userId = Some user /\
    users db' !! userId = Some user' /\
    setGamification (gamification user) user' = user.
Proof.
  intros H.
  apply recordActivity_Ok_inv in H as (user & p & Hu & _ & _ & _ & ->).
  simpl. repeat split.
  - intros id Hne. apply lookup_insert_ne. congruence.
  - exists user. eexists. split; [exact Hu|].
    split; [apply lookup_insert_eq|].
    unfold applyActivity, checkAchievements.
    set (u0 := setGamification _ user).
    assert (Hstreak : forall u,
              setGamification (gamification user) (updateStreak now u)
              = setGamification (gamification user) u).
    { intros u. unfold updateStreak.
      destruct (lastActivityDate (gamification u)); [|reflexivity].
      destruct (_ =? 0); [reflexivity|]. destruct (_ =? 1); reflexivity. }
    assert (Hev : forall achs u,
              setGamification (gamification user) (evaluate achs u)
              = setGamification (gamification user) u).
    { induction achs as [|a achs IH]; intros u; [reflexivity|].
      simpl. unfold evaluate in IH. rewrite IH. unfold checkAchievement.
      destruct (includes _ _); [reflexivity|].
      destruct (achieved u a); reflexivity. }
    rewrite Hev, Hstreak. subst u0. destruct user. reflexivity.
Qed.

(** X23. A same-day activity does not move the anchor of the streak:
    after an activity recorded less than a day after the stored
    [lastActivityDate], the streak fields are as before, so that the
    streak fields after the next activity are those [updateStreak]
    computes from the state before both, as if the same-day activity
    had not happened. *)
Theorem same_day_activity_keeps_anchor
    (userId type1 type2 : string) (md1 md2 : option string)
    (date1 t1 date2 t2 last : Z) (db db1 db2 : Db) (user : User) :
  users db !! userId = Some user ->
  lastActivityDate (gamification user) = Some last ->
  getDaysDifference last t1 = 0 ->
  recordActivity userId type1 md1 date1 t1 db = Ok db1 ->
  recordActivity userId type2 md2 date2 t2 db1 = Ok db2 ->
  (streakFields <$> gamificationOf userId db1)
  = Some (streakFields (gamification user)) /\
  (streakFields <$> gamificationOf userId db2)
  = Some (streakFields (gamification (updateStreak t2 user))).
Proof.
  intros Hu Hlast Hd H1 H2.
  apply recordActivity_user in H1 as (user0 & p1 & Hu0 & _ & _ & Hu1).
  assert (user0 = user) as -> by congruence.
  apply recordActivity_user in H2 as (user1 & p2 & Hu1' & _ & _ & Hu2).
  rewrite Hu1 in Hu1'. injection Hu1' as <-.
  unfold gamificationOf. rewrite Hu1, Hu2. simpl.
  set (user1 := applyActivity p1 t1 (achievementCatalog db) user).
  destruct (applyActivity_streak p1 t1 (achievementCatalog db) user)
    as (Hc1 & Hl1 & Hd1).
  rewrite (updateStreak_same_day t1 last user Hlast Hd) in Hc1, Hl1, Hd1.
  fold user1 in Hc1, Hl1, Hd1.
  split.
  - unfold streakFields. rewrite Hc1, Hl1, Hd1. reflexivity.
  - destruct (applyActivity_streak p2 t2 (achievementCatalog db1) user1)
      as (Hc2 & Hl2 & Hd2).
    unfold streakFields. rewrite Hc2, Hl2, Hd2.
    rewrite Hlast in Hd1. unfold updateStreak. rewrite Hd1, Hlast.
    destruct (getDaysDifference last t2 =? 0);
      [rewrite Hc1, Hl1, Hd1, Hlast; reflexivity|].
    destruct (getDaysDifference last t2 =? 1); simpl; rewrite ?Hc1, ?Hl1;
      [destruct (_ <? _); reflexivity|reflexivity].
Qed.

End Accounting.

(** ** The reads: recent activities and leaderboard *)

Section Reads.
Import GamificationService Leaderboard.

Lemma StronglySorted_lookup {A : Type} (R : relation A) (l : list A)
    (i j : nat) (x y : A) :
  StronglySorted R l -> (i < j)%nat ->
  l !! i = Some x -> l !! j = Some y -> R x y.
Proof.
  intros Hs. revert i j. induction Hs as [|a l Hs IH Hall]; intros i j Hij Hi Hj.
  - discriminate Hi.
  - destruct j as [|j]; [lia|]. simpl in Hj. destruct i as [|i].
    + injection Hi as <-. rewrite Forall_forall in Hall. apply Hall.
      eapply list_elem_of_lookup_2. exact Hj.
    + simpl in Hi. apply (IH i j); [lia|assumption|assumption].
Qed.

Lemma insertByDateDesc_Permutation (e : ActivityEvent)
    (l : list ActivityEvent) :
  insertByDateDesc e l ≡ₚ e :: l.
Proof.
  induction l as [|e' l IH]; simpl; [reflexivity|].
  destruct (ev_date e' <=? ev_date e); [reflexivity|].
  rewrite IH. apply Permutation_swap.
Qed.

Lemma insertByDateDesc_sorted (e : ActivityEvent) (l : list ActivityEvent) :
  StronglySorted newestFirst l ->
  StronglySorted newestFirst (insertByDateDesc e l).
Proof.
  induction 1 as [|e' l Hs IH Hall]; simpl.
  - repeat constructor.
  - destruct (Z.leb_spec (ev_date e') (ev_date e)) as [Hle|Hlt].
    + constructor; [constructor; assumption|].
      constructor; [exact Hle|].
      eapply Forall_impl; [exact Hall|]. unfold newestFirst. simpl. lia.
    + constructor; [exact IH|].
      rewrite insertByDateDesc_Permutation.
      constructor; [unfold newestFirst; lia|exact Hall].
Qed.

Lemma sortByDateDesc_spec (l : list ActivityEvent) :
  foldr insertByDateDesc [] l ≡ₚ l /\
  StronglySorted newestFirst (foldr insertByDateDesc [] l).
Proof.
  induction l as [|e l [IHp IHs]]; simpl.
  - split; [reflexivity|constructor].
  - split.
    + rewrite insertByDateDesc_Permutation, IHp. reflexivity.
    + apply insertByDateDesc_sorted. exact IHs.
Qed.

(** An event newer than all the others is sorted first. *)
Lemma sortByDateDesc_snoc (l : list ActivityEvent) (e : ActivityEvent) :
  Forall (fun e' => ev_date e' < ev_date e) l ->
  foldr insertByDateDesc [] (l ++ [e])
  = e :: foldr insertByDateDesc [] l.
Proof.
  induction 1 as [|e' l Hlt _ IH]; simpl; [reflexivity|].
  rewrite IH. simpl.
  destruct (Z.leb_spec (ev_date e) (ev_date e')); [lia|reflexivity].
Qed.

(** X24. The recent activities of the stats read are at most ten events
    of the ledger, all of the user asked for, newest first; they are all
    the events of the user when these are ten or fewer, and an event of
    the user that is left out is not newer than any listed one. The read
    fails with NotFound exactly when the user is unknown. *)
Theorem getUserGamificationStats_recent (userId : string) (db : Db) :
  (users db !! userId = None <->
   getUserGamificationStats userId db = Err NotFoundError) /\
  forall st,
    getUserGamificationStats userId db = Ok st ->
    let recent := gs_recentActivities st in
    let own := filter (fun e => ev_userId e = userId) (activityEvents db) in
    length recent = Nat.min 10 (length own) /\
    (forall e, e ∈ recent -> e ∈ activityEvents db /\ ev_userId e = userId) /\
    (forall i j e e',
       (i < j)%nat -> recent !! i = Some e -> recent !! j = Some e' ->
       ev_date e' <= ev_date e) /\
    (forall e e',
       e ∈ own -> e ∉ recent -> e' ∈ recent -> ev_date e <= ev_date e').
Proof.
  unfold getUserGamificationStats. split.
  - destruct (users db !! userId); split; congruence.
  - intros st H. destruct (users db !! userId); [|discriminate H].
    injection H as <-. simpl. unfold recentActivities.
    set (own := filter _ (activityEvents db)).
    destruct (sortByDateDesc_spec own) as [Hperm Hsorted].
    set (sorted := foldr insertByDateDesc [] own) in *.
    assert (Hsplit : sorted = (take 10 sorted ++ drop 10 sorted)%list)
      by (symmetry; apply take_drop).
    split; [|split; [|split]].
    + rewrite length_take, Hperm. reflexivity.
    + intros e He. apply elem_of_take in He as (i & He & _).
      apply list_elem_of_lookup_2 in He. rewrite Hperm in He.
      apply list_elem_of_filter in He. tauto.
    + intros i j e e' Hij Hi Hj.
      apply lookup_take_Some in Hi as [Hi _].
      apply lookup_take_Some in Hj as [Hj _].
      exact (StronglySorted_lookup _ _ _ _ _ _ Hsorted Hij Hi Hj).
    + intros e e' He Hno He'. rewrite <- Hperm, Hsplit in He.
      apply elem_of_app in He as [He|He]; [contradiction|].
      rewrite Hsplit in Hsorted.
      exact (StronglySorted_app_1_elem_of _ _ _ _ _ Hsorted He' He).
Qed.

(** X25. Recording and reading back: after a successful
    [recordActivity] whose ledger date is later than the dates of all
    the earlier events of the user, the stats read lists the new event
    first, with the points of its type, followed by the recent
    activities of before, the total cut to ten. *)
Theorem recordActivity_then_stats
    (userId type : string) (md : option string) (date now : Z)
    (db db' : Db) :
  recordActivity userId type md date now db = Ok db' ->
  (forall e, e ∈ activityEvents db -> ev_userId e = userId ->
             ev_date e < date) ->
  exists st st' p,
    getUserGamificationStats userId db = Ok st /\
    getUserGamificationStats userId db' = Ok st' /\
    assoc type specPointsTable = Some p /\
    gs_recentActivities st'
    = take 10 (mkActivityEvent userId type p md date
                 :: gs_recentActivities st).
Proof.
  intros H Hnew.
  apply recordActivity_Ok_inv in H as (user & p & Hu & Hin & Hp & _ & ->).
  destruct (getPointsForActivity_known type Hin) as (p' & Hassoc & Hp' & _).
  assert (p' = p) as -> by congruence.
  unfold getUserGamificationStats. simpl. rewrite Hu, lookup_insert_eq.
  do 2 eexists. exists p. split; [reflexivity|]. split; [reflexivity|].
  split; [exact Hassoc|]. simpl. unfold recentActivities.
  rewrite filter_app, filter_cons_True, filter_nil by reflexivity.
  rewrite sortByDateDesc_snoc.
  - simpl. f_equal. rewrite take_take. reflexivity.
  - apply Forall_forall. intros e He. apply list_elem_of_filter in He as [Hid He].
    simpl. apply Hnew; assumption.
Qed.

Lemma byPointsDesc_trans : Transitive byPointsDesc.
Proof. intros x y z. unfold byPointsDesc. lia. Qed.

Lemma byPointsDesc_total : Total byPointsDesc.
Proof. intros x y. unfold byPointsDesc. lia. Qed.

Lemma User_find_sorted_spec (us : gmap string User) :
  User_find_sorted us ≡ₚ map_to_list us /\
  StronglySorted byPointsDesc (User_find_sorted us).
Proof.
  split; [apply merge_sort_Permutation|].
  apply StronglySorted_merge_sort;
    [apply byPointsDesc_trans|apply byPointsDesc_total].
Qed.

Lemma cursor_limit_split {A : Type} (limit : N) (l : list A) :
  exists rest, l = (cursor_limit limit l ++ rest)%list.
Proof.
  unfold cursor_limit. destruct (limit =? 0)%N.
  - exists []. symmetry. apply app_nil_r.
  - exists (drop (N.to_nat limit) l). symmetry. apply take_drop.
Qed.

Lemma getLeaderboard_lookup (limit : option N) (db : Db) (i : nat)
    (e : LeaderboardEntry) :
  getLeaderboard limit db !! i = Some e <->
  exists d,
    cursor_limit (default 10%N limit) (User_find_sorted (users db)) !! i
    = Some d /\
    e = mkLeaderboardEntry (Z.of_nat i + 1) d.1 (email d.2)
          (totalPoints (gamification d.2))
          (currentStreak (gamification d.2)).
Proof.
  unfold getLeaderboard. rewrite list_lookup_imap.
  destruct (cursor_limit _ _ !! i) as [d|]; simpl.
  - split; [intros [= <-]; eauto|]. intros (d' & [= <-] & ->). reflexivity.
  - split; [discriminate|]. intros (d' & Hd & _). discriminate.
Qed.

Lemma getLeaderboard_ids (limit : option N) (db : Db) :
  lb_id <$> getLeaderboard limit db
  = (cursor_limit (default 10%N limit) (User_find_sorted (users db))).*1.
Proof.
  apply list_eq. intros i. rewrite !list_lookup_fmap.
  unfold getLeaderboard. rewrite list_lookup_imap.
  destruct (cursor_limit _ _ !! i); reflexivity.
Qed.

(** X26. The leaderboard ranks stored users by points: its length is the
    limit, or the number of users if that is smaller or the limit is 0;
    the entry at position [i] has rank [i + 1] and carries the e-mail,
    points and streak of a stored user; points never increase down the
    board; and no user is listed twice. *)
Theorem getLeaderboard_ranked (limit : option N) (db : Db) :
  let board := getLeaderboard limit db in
  length board
  = (if (default 10%N limit =? 0)%N then size (users db)
     else Nat.min (N.to_nat (default 10%N limit)) (size (users db))) /\
  (forall i e,
     board !! i = Some e ->
     lb_rank e = Z.of_nat i + 1 /\
     exists user,
       users db !! lb_id e = Some user /\
       lb_email e = email user /\
       lb_totalPoints e = totalPoints (gamification user) /\
       lb_currentStreak e = currentStreak (gamification user)) /\
  (forall i j e e',
     (i < j)%nat -> board !! i = Some e -> board !! j = Some e' ->
     lb_totalPoints e' <= lb_totalPoints e) /\
  NoDup (lb_id <$> board).
Proof.
  destruct (User_find_sorted_spec (users db)) as [Hperm Hsorted].
  destruct (cursor_limit_split (default 10%N limit)
              (User_find_sorted (users db))) as [rest Hsplit].
  simpl. split; [|split; [|split]].
  - unfold getLeaderboard. rewrite length_imap. unfold cursor_limit.
    destruct (_ =? 0)%N.
    + rewrite Hperm. apply length_map_to_list.
    + rewrite length_take, Hperm, length_map_to_list. reflexivity.
  - intros i e He. apply getLeaderboard_lookup in He as (d & Hd & ->).
    simpl. split; [reflexivity|]. exists d.2.
    repeat split. apply elem_of_map_to_list. rewrite <- Hperm, Hsplit.
    apply elem_of_app. left. destruct d.
    eapply list_elem_of_lookup_2. exact Hd.
  - intros i j e e' Hij Hi Hj.
    apply getLeaderboard_lookup in Hi as (d & Hd & ->).
    apply getLeaderboard_lookup in Hj as (d' & Hd' & ->). simpl.
    rewrite Hsplit in Hsorted. apply StronglySorted_app_1_l in Hsorted.
    exact (StronglySorted_lookup _ _ _ _ _ _ Hsorted Hij Hd Hd').
  - rewrite getLeaderboard_ids.
    assert (Hnd : NoDup (User_find_sorted (users db)).*1).
    { rewrite Hperm. apply NoDup_fst_map_to_list. }
    rewrite Hsplit, fmap_app in Hnd. apply NoDup_app in Hnd. tauto.
Qed.

(** X27. The leaderboard lists the top: a stored user who is not on the
    board has no more points than any user on it. *)
Theorem getLeaderboard_top (limit : option N) (db : Db)
    (id : string) (user : User) (e : LeaderboardEntry) :
  users db !! id = Some user ->
  id ∉ lb_id <$> getLeaderboard limit db ->
  e ∈ getLeaderboard limit db ->
  totalPoints (gamification user) <= lb_totalPoints e.
Proof.
  intros Hu Hno He.
  destruct (User_find_sorted_spec (users db)) as [Hperm Hsorted].
  destruct (cursor_limit_split (default 10%N limit)
              (User_find_sorted (users db))) as [rest Hsplit].
  rewrite getLeaderboard_ids in Hno.
  apply list_elem_of_lookup_1 in He as [i He].
  apply getLeaderboard_lookup in He as (d & Hd & ->). simpl.
  apply list_elem_of_lookup_2 in Hd.
  apply elem_of_map_to_list in Hu. rewrite <- Hperm, Hsplit in Hu.
  apply elem_of_app in Hu as [Hu|Hu].
  - exfalso. apply Hno. apply list_elem_of_fmap. exists (id, user). auto.
  - rewrite Hsplit in Hsorted.
    exact (StronglySorted_app_1_elem_of _ _ _ _ _ Hsorted Hd Hu).
Qed.

End Reads.

Lemma recordActivity_points_accounting_witness :
  exists db' p unlocked user',
    GamificationService.recordActivity "u1" JOB_COMPLETED None 100 100
      (exampleDb defaultGamification [firstStep; centurion]) = Ok db' /\
    users db' !! "u1" = Some user' /\
    totalPoints (gamification user') = 0 + p + sumPoints unlocked.
Proof.
  destruct (GamificationService.recordActivity "u1" JOB_COMPLETED None 100 100
              (exampleDb defaultGamification [firstStep; centurion]))
    as [db'|e] eqn:H; [|vm_compute in H; discriminate H].
  destruct (recordActivity_points_accounting "u1" JOB_COMPLETED None 100 100
              (exampleDb defaultGamification [firstStep; centurion]) db'
              (exampleUser defaultGamification) eq_refl H)
    as (p & unlocked & user' & _ & Hu' & _ & _ & Hpts).
  exists db', p, unlocked, user'. split; [reflexivity|]. split; assumption.
Defined.

Lemma recordActivity_achievements_NoDup_witness :
  exists db' user',
    GamificationService.recordActivity "u1" JOB_COMPLETED None 100 100
      (exampleDb defaultGamification [firstStep; firstStep]) = Ok db' /\
    users db' !! "u1" = Some user' /\
    NoDup (achievements (gamification user')).
Proof.
  destruct (GamificationService.recordActivity "u1" JOB_COMPLETED None 100 100
              (exampleDb defaultGamification [firstStep; firstStep]))
    as [db'|e] eqn:H; [|vm_compute in H; discriminate H].
  destruct (recordActivity_achievements_NoDup "u1" JOB_COMPLETED None 100 100
              (exampleDb defaultGamification [firstStep; firstStep]) db'
              (exampleUser defaultGamification) eq_refl (NoDup_nil_2 (A:=string)) H)
    as (user' & Hu' & Hnd & _).
  exists db', user'. split; [reflexivity|]. split; assumption.
Defined.

Lemma recordActivity_frame_witness :
  exists db',
    GamificationService.recordActivity "f1" LOGIN None 100 100
      (st_db (exampleStore OPEN)) = Ok db' /\
    jobs db' = jobs (st_db (exampleStore OPEN)) /\
    applications db' = applications (st_db (exampleStore OPEN)) /\
    users db' !! "c1" = users (st_db (exampleStore OPEN)) !! "c1".
Proof.
  destruct (GamificationService.recordActivity "f1" LOGIN None 100 100
              (st_db (exampleStore OPEN)))
    as [db'|e] eqn:H; [|vm_compute in H; discriminate H].
  destruct (recordActivity_frame "f1" LOGIN None 100 100
              (st_db (exampleStore OPEN)) db' H) as (Hj & Ha & _ & Hu & _).
  exists db'. split; [reflexivity|]. split; [exact Hj|].
  split; [exact Ha|]. apply Hu. discriminate.
Defined.

Lemma same_day_activity_keeps_anchor_witness :
  exists db1 db2,
    GamificationService.recordActivity "u1" LOGIN None 82800000 82800000
      (exampleDb (mkGamification 2 2 (Some 0) 10 1 []) []) = Ok db1 /\
    GamificationService.recordActivity "u1" LOGIN None 90000000 90000000 db1
    = Ok db2 /\
    (streakFields <$> gamificationOf "u1" db2) = Some (3, 3, Some 90000000).
Proof.
  destruct (GamificationService.recordActivity "u1" LOGIN None 82800000
              82800000 (exampleDb (mkGamification 2 2 (Some 0) 10 1 []) []))
    as [db1|e] eqn:H1; [|vm_compute in H1; discriminate H1].
  destruct (GamificationService.recordActivity "u1" LOGIN None 90000000
              90000000 db1)
    as [db2|e] eqn:H2;
    [|injection H1 as <-; vm_compute in H2; discriminate H2].
  exists db1, db2. split; [reflexivity|]. split; [exact H2|].
  exact (proj2 (same_day_activity_keeps_anchor "u1" LOGIN LOGIN None None
                  82800000 82800000 90000000 90000000 0
                  (exampleDb (mkGamification 2 2 (Some 0) 10 1 []) [])
                  db1 db2
                  (exampleUser (mkGamification 2 2 (Some 0) 10 1 []))
                  eq_refl eq_refl eq_refl H1 H2)).
Defined.

Lemma getUserGamificationStats_recent_witness :
  GamificationService.getUserGamificationStats "u9" ledgerDb
  = Err NotFoundError /\
  exists st,
    GamificationService.getUserGamificationStats "u1" ledgerDb = Ok st /\
    length (GamificationService.gs_recentActivities st) = 2%nat.
Proof.
  split.
  - apply (proj1 (getUserGamificationStats_recent "u9" ledgerDb)).
    reflexivity.
  - eexists. split; [reflexivity|].
    exact (proj1 (proj2 (getUserGamificationStats_recent "u1" ledgerDb)
                    _ eq_refl)).
Defined.

Lemma recordActivity_then_stats_witness :
  exists db' st',
    GamificationService.recordActivity "u1" LOGIN None 4000 4000 ledgerDb
    = Ok db' /\
    GamificationService.getUserGamificationStats "u1" db' = Ok st' /\
    GamificationService.gs_recentActivities st'
    = [mkActivityEvent "u1" LOGIN 5 None 4000;
       mkActivityEvent "u1" JOB_COMPLETED 50 None 3000;
       mkActivityEvent "u1" LOGIN 5 None 1000].
Proof.
  destruct (GamificationService.recordActivity "u1" LOGIN None 4000 4000
              ledgerDb)
    as [db'|e] eqn:H; [|vm_compute in H; discriminate H].
  destruct (recordActivity_then_stats "u1" LOGIN None 4000 4000 ledgerDb db' H)
    as (st & st' & p & Hst & Hst' & Hp & Hrecent).
  - intros e0 He0 _.
    repeat (apply elem_of_cons in He0 as [->|He0]); simpl; try lia.
    apply elem_of_nil in He0. destruct He0.
  - exists db', st'. split; [reflexivity|]. split; [exact Hst'|].
    injection Hst as <-. injection Hp as <-. exact Hrecent.
Defined.

Lemma getLeaderboard_ranked_witness :
  length (Leaderboard.getLeaderboard (Some 2%N) boardDb) = 2%nat /\
  NoDup (Leaderboard.lb_id <$> Leaderboard.getLeaderboard None boardDb).
Proof.
  split.
  - exact (proj1 (getLeaderboard_ranked (Some 2%N) boardDb)).
  - exact (proj2 (proj2 (proj2 (getLeaderboard_ranked None boardDb)))).
Defined.

Lemma getLeaderboard_top_witness :
  40 <= Leaderboard.lb_totalPoints
          (Leaderboard.mkLeaderboardEntry 2 "u3" "cruz@example.com" 120 3).
Proof.
  apply (getLeaderboard_top (Some 2%N) boardDb "u1"
           (withPoints "ana@example.com" 40 1)).
  - reflexivity.
  - apply (bool_decide_unpack _). vm_compute. exact I.
  - apply (list_elem_of_lookup_2 _ 1). vm_compute. reflexivity.
Defined.
